(** * Free-Estimate-Generator: the estimate state store, the totals engine,
      the Korean currency-words formatters and the record service.

    The development embeds the TypeScript sources shallowly:
    - [JSNum]: JavaScript numbers as IEEE 754 binary64 values
      (the Standard Library's [SpecFloat] at precision 53);
    - [Item], [Supplier], [Client], [EstimateData]: src/types/estimate.ts;
    - [Totals]: [useTotals] / [calculateTotals] and the rows of the items
      table of the two previews;
    - [Korean]: the three copies of the currency-words formatter;
    - [JSString], [JSArray]: the string and array methods that the
      sources call;
    - [Sequence], [Store]: utils/estimate and state/EstimateContext;
    - [Server]: the Hono handlers of the record service.
    The definitions come first, the properties after them. *)

From Stdlib Require Import ZArith List String Ascii DecimalString Lia Bool.
From Stdlib Require Import Floats.SpecFloat.
From Equations Require Import Equations.
From stdpp Require Import gmap strings list.

Local Open Scope Z_scope.

(** ** JavaScript numbers *)

Module JSNum.

(** A JS [number] is a binary64 float. *)
Definition number := spec_float.

Definition prec : Z := 53.
Definition emax : Z := 1024.

(** An integer literal, or an integer read from JSON: the nearest double. *)
Definition of_Z (z : Z) : number := binary_normalize prec emax z 0 false.

Definition add : number → number → number := SFadd prec emax.
Definition sub : number → number → number := SFsub prec emax.
Definition mul : number → number → number := SFmul prec emax.
Definition div : number → number → number := SFdiv prec emax.

(** The decimal literals [1.1] and [0.1] denote the doubles nearest to
    11/10 and 1/10; a correctly rounded division of exact operands
    yields exactly these. *)
Definition lit_1_1 : number := div (of_Z 11) (of_Z 10).
Definition lit_0_1 : number := div (of_Z 1) (of_Z 10).

(** The integer part, rounding towards minus infinity, of a finite
    double: [s m e] stands for (-1)^s * m * 2^e, and [Z.shiftl] by a
    negative amount is the floor division by the power of two. *)
Definition floor_Z (x : number) : option Z :=
  match x with
  | S754_zero _ => Some 0
  | S754_finite s m e => Some (Z.shiftl (cond_Zopp s (Zpos m)) e)
  | S754_infinity _ | S754_nan => None
  end.

(** [Math.floor]: NaN, the infinities and the zeros are returned as they are. *)
Definition Math_floor (x : number) : number :=
  match x with
  | S754_finite s m e =>
      if e <? 0 then of_Z (Z.shiftl (cond_Zopp s (Zpos m)) e) else x
  | _ => x
  end.

(** Integer-valued counters (sequence counts, array indices, amounts
    handed to the formatter) are kept in [Z]; an integer result that
    leaves the range where every integer is a double is rounded to the
    nearest double, ties to even. *)
Definition MAX_SAFE_INTEGER : Z := 2 ^ 53 - 1.

Definition round_int (z : Z) : Z :=
  let a := Z.abs z in
  if a <=? 2 ^ 53 then z
  else
    let e := Z.log2 a - 52 in
    let q := a / 2 ^ e in
    let r := a mod 2 ^ e in
    let half := 2 ^ (e - 1) in
    let q' := if r <? half then q
              else if half <? r then q + 1
              else if Z.even q then q else q + 1 in
    Z.sgn z * (q' * 2 ^ e).

Definition int_add (a b : Z) : Z := round_int (a + b).

End JSNum.

Abbreviation number := JSNum.number.

(** ** The data model (src/types/estimate.ts) *)

Inductive TaxOption := including | excluding.

(** An object built by spreading a [Partial<T>] over another object can
    miss a property or hold [undefined] in it; reading either gives
    [undefined].  A property of such an object is an [option]; a property
    of a patch is [Absent], explicitly [Undefined], or a [Value]. *)
Inductive patch (A : Type) : Type :=
| Absent
| Undefined
| Value (a : A).
Arguments Absent {A}.
Arguments Undefined {A}.
Arguments Value {A} a.

(** [p.field] *)
Definition read {A} (p : patch A) : option A :=
  match p with Value a => Some a | _ => None end.

(** The property of [{ ...old, ...p }]. *)
Definition spread {A} (old : option A) (p : patch A) : option A :=
  match p with
  | Absent => old
  | Undefined => None
  | Value a => Some a
  end.

(** [o ?? d] *)
Definition nullish {A} (o : option A) (d : A) : A :=
  match o with Some a => a | None => d end.

(** Truthiness of a string and of a string-or-undefined. *)
Definition truthy (s : string) : bool := negb (String.eqb s "").
Definition truthy_opt (o : option string) : bool :=
  match o with Some s => truthy s | None => false end.

(** [ToNumber]: [undefined] becomes NaN. *)
Definition to_number (o : option number) : number :=
  match o with Some x => x | None => S754_nan end.

Module Item.
Record t := mk {
  name : option string;
  quantity : option number;
  price : option number;
  spec : option string;
  note : option string
}.

Record partial := mkPartial {
  p_name : patch string;
  p_quantity : patch number;
  p_price : patch number;
  p_spec : patch string;
  p_note : patch string
}.

(** [{ ...undefined }] *)
Definition empty : t := mk None None None None None.

(** [{ ...existing, ...item }] *)
Definition merge (existing : t) (item : partial) : t :=
  {| name := spread (name existing) (p_name item);
     quantity := spread (quantity existing) (p_quantity item);
     price := spread (price existing) (p_price item);
     spec := spread (spec existing) (p_spec item);
     note := spread (note existing) (p_note item) |}.

(** An item as the forms build it: every property present, quantity
    and price integers. *)
Definition make (n : string) (q p : Z) (s nt : string) : t :=
  mk (Some n) (Some (JSNum.of_Z q)) (Some (JSNum.of_Z p)) (Some s) (Some nt).
End Item.

Module Supplier.
Record t := mk {
  name : string;
  companyName : string;
  address : string;
  businessType : string;
  businessItem : string;
  phone : string;
  fax : string;
  businessNumber : string;
  companyEmail : string;
  accountNumber : string;
  homepage : string;
  logo : option string;
  businessFields : string;
  footerNotes : string
}.
End Supplier.

Module Client.
Record t := mk {
  name : option string;
  phone : option string;
  email : option string;
  address : option string
}.

Record partial := mkPartial {
  p_name : patch string;
  p_phone : patch string;
  p_email : patch string;
  p_address : patch string
}.

(** [{ ...prev.client, ...client }] *)
Definition merge (prev : t) (client : partial) : t :=
  {| name := spread (name prev) (p_name client);
     phone := spread (phone prev) (p_phone client);
     email := spread (email prev) (p_email client);
     address := spread (address prev) (p_address client) |}.
End Client.

Module EstimateData.
(** A slot of the [items] array holds an item or, after [moveItem] took
    nothing out of it, [undefined]. *)
Record t := mk {
  estimateNumber : string;
  estimateDate : string;
  constructionStartDate : string;
  constructionEndDate : string;
  constructionDate : string;
  client : Client.t;
  clientName : string;
  clientPhone : string;
  clientEmail : string;
  supplier : Supplier.t;
  items : list (option Item.t);
  taxOption : TaxOption;
  businessFields : string;
  footerNotes : string
}.
End EstimateData.

(** ** The totals engine *)

Module Totals.
Import JSNum.

Record t := mk { subtotal : number; taxAmount : number; total : number }.

(** [useTotals] of the context-based preview (part_004, lines 176-193).
    [items.forEach] runs over the array from the left, [subtotal]
    being the accumulator. *)
Definition useTotals (items : list Item.t) (taxOption : TaxOption) : t :=
  let subtotal :=
    fold_left
      (fun subtotal item =>
         match taxOption with
         | including =>
             let unitPrice := Math_floor (div (to_number (Item.price item)) lit_1_1) in
             add subtotal (mul unitPrice (to_number (Item.quantity item)))
         | excluding =>
             add subtotal (mul (to_number (Item.price item)) (to_number (Item.quantity item)))
         end)
      items (of_Z 0) in
  let taxAmount := Math_floor (mul subtotal lit_0_1) in
  let total := add subtotal taxAmount in
  {| subtotal := subtotal; taxAmount := taxAmount; total := total |}.

(** [calculateTotals] of the prop-based preview (part_003, lines 276-292;
    the copy of part_006 is the same text). *)
Definition calculateTotals (estimateData_items : list Item.t)
    (estimateData_taxOption : TaxOption) : t :=
  let subtotal :=
    fold_left
      (fun subtotal item =>
         if match estimateData_taxOption with including => true | excluding => false end
         then
           let unitPrice := Math_floor (div (to_number (Item.price item)) lit_1_1) in
           add subtotal (mul unitPrice (to_number (Item.quantity item)))
         else
           add subtotal (mul (to_number (Item.price item)) (to_number (Item.quantity item))))
      estimateData_items (of_Z 0) in
  let taxAmount := Math_floor (mul subtotal lit_0_1) in
  let total := add subtotal taxAmount in
  {| subtotal := subtotal; taxAmount := taxAmount; total := total |}.

(** What one item adds to [subtotal] in the loops above. *)
Definition contribution (taxOption : TaxOption) (item : Item.t) : number :=
  match taxOption with
  | including =>
      mul (Math_floor (div (to_number (Item.price item)) lit_1_1))
          (to_number (Item.quantity item))
  | excluding => mul (to_number (Item.price item)) (to_number (Item.quantity item))
  end.

(** A row of the items table: the two amounts it prints. *)
Record line := mkLine { itemSubtotal : number; itemTax : number }.

(** The items table of the prop-based preview (part_003, lines 619-630). *)
Definition previewLine_003 (taxOption : TaxOption) (item : Item.t) : line :=
  let quantity := to_number (Item.quantity item) in
  let price := to_number (Item.price item) in
  match taxOption with
  | including =>
      let itemSubtotal := Math_floor (div (mul quantity price) lit_1_1) in
      let itemTax := sub (mul quantity price) itemSubtotal in
      mkLine itemSubtotal itemTax
  | excluding =>
      let itemSubtotal := mul quantity price in
      let itemTax := Math_floor (mul itemSubtotal lit_0_1) in
      mkLine itemSubtotal itemTax
  end.

(** The items table of the context-based preview (part_004, lines 462-468). *)
Definition previewLine_004 (taxOption : TaxOption) (item : Item.t) : line :=
  let quantity := to_number (Item.quantity item) in
  let price := to_number (Item.price item) in
  let itemSubtotal := mul quantity price in
  let itemTax := Math_floor (mul itemSubtotal lit_0_1) in
  match taxOption with
  | including =>
      let itemSubtotal := mul (Math_floor (div price lit_1_1)) quantity in
      let itemTax := Math_floor (mul itemSubtotal lit_0_1) in
      mkLine itemSubtotal itemTax
  | excluding => mkLine itemSubtotal itemTax
  end.

(** The rule of the specification, in exact integer arithmetic:
    floor(price / 1.1) is floor(10 * price / 11) and floor(s * 0.1) is
    floor(s / 10). *)
Definition spec_netPrice (price : Z) : Z := (10 * price) / 11.

Definition spec_subtotal (items : list (Z * Z)) (taxOption : TaxOption) : Z :=
  fold_right
    (fun '(quantity, price) acc =>
       match taxOption with
       | including => spec_netPrice price * quantity + acc
       | excluding => price * quantity + acc
       end)
    0 items.

Definition spec_computeTotals (items : list (Z * Z)) (taxOption : TaxOption)
  : Z * Z * Z :=
  let subtotal := spec_subtotal items taxOption in
  let taxAmount := subtotal / 10 in
  (subtotal, taxAmount, subtotal + taxAmount).

(** Items given by their (quantity, price), and the integer reading of
    a result. *)
Definition item_of (qp : Z * Z) : Item.t :=
  Item.make "" (fst qp) (snd qp) "EA" "".

Definition read_totals (r : t) : option (Z * Z * Z) :=
  match floor_Z (subtotal r), floor_Z (taxAmount r), floor_Z (total r) with
  | Some s, Some x, Some y => Some (s, x, y)
  | _, _, _ => None
  end.

Definition read_line (l : line) : option (Z * Z) :=
  match floor_Z (itemSubtotal l), floor_Z (itemTax l) with
  | Some s, Some x => Some (s, x)
  | _, _ => None
  end.
End Totals.

(** ** The Korean currency-words formatters *)

Module Korean.

(** [table[i]] for an integer [i]; an index outside the table reads
    [undefined], which the string concatenation prints as the word
    undefined. *)
Definition at_index (table : list string) (i : Z) : string :=
  if i <? 0 then "undefined" else nth (Z.to_nat i) table "undefined".

(** The [while] loops divide their counter by 10000 until it is no
    longer positive; the number of binary digits of the counter
    decreases at each turn. *)
Definition bits (num : Z) : nat := Z.to_nat (Z.log2_up (num + 1)).

Ltac bits_decrease :=
  match goal with
  | H : 0 < ?n |- (bits (?n / 10000) < bits ?n)%nat =>
      unfold bits;
      pose proof (Z.div_pos n 10000 ltac:(lia) ltac:(lia));
      pose proof (Z.mul_div_le n 10000 ltac:(lia));
      pose proof (Z.log2_up_double (n / 10000 + 1) ltac:(lia));
      pose proof (Z.log2_up_le_mono (2 * (n / 10000 + 1)) (n + 1) ltac:(lia));
      pose proof (Z.log2_up_nonneg (n / 10000 + 1));
      apply Z2Nat.inj_lt; lia
  end.

(** *** numberToKorean of part_003 (lines 221-273) *)

Definition units_003 : list string := [""; "만"; "억"; "조"; "경"].
Definition digits_003 : list string :=
  ["영"; "일"; "이"; "삼"; "사"; "오"; "육"; "칠"; "팔"; "구"].

Definition partStr_003 (part : Z) : string :=
  let partStr := "" in
  let thousands := part / 1000 in
  let hundreds := (part mod 1000) / 100 in
  let tens := (part mod 100) / 10 in
  let ones := part mod 10 in
  let partStr :=
    if 0 <? thousands then
      if thousands =? 1 then partStr +:+ "천"
      else partStr +:+ (at_index digits_003 thousands +:+ "천")
    else partStr in
  let partStr :=
    if 0 <? hundreds then
      if hundreds =? 1 then partStr +:+ "백"
      else partStr +:+ (at_index digits_003 hundreds +:+ "백")
    else partStr in
  let partStr :=
    if 0 <? tens then
      if tens =? 1 then partStr +:+ "십"
      else partStr +:+ (at_index digits_003 tens +:+ "십")
    else partStr in
  let partStr :=
    if 0 <? ones then partStr +:+ at_index digits_003 ones else partStr in
  partStr.

Equations? loop_003 (num : Z) (unitIndex : Z) (result : string) : string
  by wf (bits num) lt :=
  loop_003 num unitIndex result with Z_lt_dec 0 num => {
    | left _ =>
        let part := num mod 10000 in
        let result :=
          if 0 <? part
          then (partStr_003 part +:+ at_index units_003 unitIndex) +:+ result
          else result in
        loop_003 (num / 10000) (unitIndex + 1) result
    | right _ => result }.
Proof. bits_decrease. Qed.

Definition numberToKorean_003 (num : Z) : string :=
  if num =? 0 then "영원정" else loop_003 num 0 "" +:+ "원정".

(** *** formatKoreanCurrency of part_004 (lines 195-235) *)

Definition units_004 : list string := [""; "만"; "억"; "조"; "경"].
Definition digits_004 : list string :=
  ["영"; "일"; "이"; "삼"; "사"; "오"; "육"; "칠"; "팔"; "구"].

Definition partStr_004 (part : Z) : string :=
  let partStr := "" in
  let thousands := part / 1000 in
  let hundreds := (part mod 1000) / 100 in
  let tens := (part mod 100) / 10 in
  let ones := part mod 10 in
  let partStr :=
    if 0 <? thousands
    then partStr +:+ ((if thousands =? 1 then "" else at_index digits_004 thousands) +:+ "천")
    else partStr in
  let partStr :=
    if 0 <? hundreds
    then partStr +:+ ((if hundreds =? 1 then "" else at_index digits_004 hundreds) +:+ "백")
    else partStr in
  let partStr :=
    if 0 <? tens
    then partStr +:+ ((if tens =? 1 then "" else at_index digits_004 tens) +:+ "십")
    else partStr in
  let partStr :=
    if 0 <? ones then partStr +:+ at_index digits_004 ones else partStr in
  partStr.

Equations? loop_004 (amount : Z) (unitIndex : Z) (result : string) : string
  by wf (bits amount) lt :=
  loop_004 amount unitIndex result with Z_lt_dec 0 amount => {
    | left _ =>
        let part := amount mod 10000 in
        let result :=
          if 0 <? part
          then (partStr_004 part +:+ at_index units_004 unitIndex) +:+ result
          else result in
        loop_004 (amount / 10000) (unitIndex + 1) result
    | right _ => result }.
Proof. bits_decrease. Qed.

Definition formatKoreanCurrency_004 (value : Z) : string :=
  if value =? 0 then "영원정"
  else
    let amount := value in
    loop_004 amount 0 "" +:+ "원정".

(** *** numberToKorean of part_006 (lines 387-431) *)

Definition units_006 : list string := [""; "만"; "억"; "조"].
Definition digits_006 : list string :=
  [""; "일"; "이"; "삼"; "사"; "오"; "육"; "칠"; "팔"; "구"].

Definition partStr_006 (part : Z) : string :=
  let partStr := "" in
  let thousands := part / 1000 in
  let hundreds := (part mod 1000) / 100 in
  let tens := (part mod 100) / 10 in
  let ones := part mod 10 in
  let partStr :=
    if 0 <? thousands
    then partStr +:+ ((if thousands =? 1 then "" else at_index digits_006 thousands) +:+ "천")
    else partStr in
  let partStr :=
    if 0 <? hundreds
    then partStr +:+ ((if hundreds =? 1 then "" else at_index digits_006 hundreds) +:+ "백")
    else partStr in
  let partStr :=
    if 0 <? tens then
      if tens =? 1 then partStr +:+ "십"
      else partStr +:+ (at_index digits_006 tens +:+ "십")
    else partStr in
  let partStr :=
    if 0 <? ones then partStr +:+ at_index digits_006 ones else partStr in
  partStr.

Equations? loop_006 (num : Z) (unitIndex : Z) (result : string) : string
  by wf (bits num) lt :=
  loop_006 num unitIndex result with Z_lt_dec 0 num => {
    | left _ =>
        let part := num mod 10000 in
        let result :=
          if 0 <? part
          then (partStr_006 part +:+ at_index units_006 unitIndex) +:+ result
          else result in
        loop_006 (num / 10000) (unitIndex + 1) result
    | right _ => result }.
Proof. bits_decrease. Qed.

Definition numberToKorean_006 (num : Z) : string :=
  if num =? 0 then "영원정" else loop_006 num 0 "" +:+ "원정".

End Korean.


(** ** Strings of the JavaScript run time *)

Module JSString.

Definition newline : string := String "010"%char EmptyString.

(** The value of a date input: decimal digits and hyphens (YYYY-MM-DD),
    or the empty string. *)
Definition is_digit (c : ascii) : bool :=
  let n := nat_of_ascii c in (48 <=? n)%nat && (n <=? 57)%nat.

Fixpoint date_string (s : string) : bool :=
  match s with
  | EmptyString => true
  | String c s' => (Ascii.eqb c "-"%char || is_digit c) && date_string s'
  end.

(** [date.replace(/-/g, '')] *)
Fixpoint remove_hyphens (s : string) : string :=
  match s with
  | EmptyString => EmptyString
  | String c s' =>
      if Ascii.eqb c "-"%char then remove_hyphens s'
      else String c (remove_hyphens s')
  end.

(** [String(n)] for an integer [n] (of magnitude below 10^21, where the
    number is printed in plain decimal digits). *)
Definition String_int (n : Z) : string := NilZero.string_of_int (Z.to_int n).

(** [s.padStart(targetLength, "0")] *)
Fixpoint zeros (k : nat) : string :=
  match k with O => EmptyString | S k' => String "0"%char (zeros k') end.

Definition padStart_0 (targetLength : nat) (s : string) : string :=
  zeros (targetLength - String.length s) +:+ s.

(** [s.split(' ')] *)
Fixpoint split_space (s : string) : list string :=
  match s with
  | EmptyString => [EmptyString]
  | String c s' =>
      if Ascii.eqb c " "%char then EmptyString :: split_space s'
      else
        match split_space s' with
        | piece :: rest => String c piece :: rest
        | [] => [String c EmptyString]
        end
  end.

End JSString.

(** ** Arrays of the JavaScript run time *)

Module JSArray.

(** [l.filter((x, i) => keep x i)] *)
Fixpoint filter_from {A} (i : Z) (keep : A → Z → bool) (l : list A) : list A :=
  match l with
  | [] => []
  | x :: l' =>
      if keep x i then x :: filter_from (i + 1) keep l'
      else filter_from (i + 1) keep l'
  end.

Definition filter {A} (keep : A → Z → bool) (l : list A) : list A :=
  filter_from 0 keep l.

(** [l.map((x, i) => f x i)] *)
Fixpoint map_from {A B} (i : Z) (f : A → Z → B) (l : list A) : list B :=
  match l with
  | [] => []
  | x :: l' => f x i :: map_from (i + 1) f l'
  end.

Definition map {A B} (f : A → Z → B) (l : list A) : list B := map_from 0 f l.

(** [l.findIndex(p)]: the first index whose element satisfies [p], or -1. *)
Fixpoint findIndex_from {A} (i : Z) (p : A → bool) (l : list A) : Z :=
  match l with
  | [] => -1
  | x :: l' => if p x then i else findIndex_from (i + 1) p l'
  end.

Definition findIndex {A} (p : A → bool) (l : list A) : Z := findIndex_from 0 p l.

(** [l.splice(start, deleteCount, ...ins)] for integer arguments: the
    removed elements and the array afterwards.  A negative [start]
    counts from the end; both arguments are clamped to the array. *)
Definition splice {A} (start deleteCount : Z) (ins : list A) (l : list A)
  : list A * list A :=
  let len := Z.of_nat (length l) in
  let actualStart :=
    if start <? 0 then Z.max (len + start) 0 else Z.min start len in
  let actualDeleteCount := Z.min (Z.max deleteCount 0) (len - actualStart) in
  let k := Z.to_nat actualStart in
  let d := Z.to_nat actualDeleteCount in
  (firstn d (skipn k l), firstn k l ++ ins ++ skipn (k + d) l).

End JSArray.

(** ** The estimate number sequence and the initial document (utils/estimate, part_001) *)

Module Sequence.

Definition DEFAULT_SUPPLIER : Supplier.t :=
  {| Supplier.name := "테스트";
     Supplier.companyName := "오빠두엑셀";
     Supplier.address := "서울 강남구 테헤란로 141-2";
     Supplier.businessType := "전자상거래";
     Supplier.businessItem := "온라인제품";
     Supplier.phone := "02) 123-4848";
     Supplier.fax := "";
     Supplier.businessNumber := "123-01-01249";
     Supplier.companyEmail := "info@oppadu.com";
     Supplier.accountNumber := "";
     Supplier.homepage := "www.oppadu.com";
     Supplier.logo := None;
     Supplier.businessFields :=
       "온라인 강의 • 오프라인 특강 • 기업 컨설팅 • 프로그램 보안/제작";
     Supplier.footerNotes :=
       ("● 오빠두엑셀 (www.oppadu.com) 홈페이지에서 온라인으로 구매 확정해주세요." +:+ JSString.newline)
       +:+ ("● 사업자등록증은 팩스 또는 이메일(info@oppadu.com)으로 전달 부탁드립니다." +:+ JSString.newline)
       +:+ ("● 프로그램 라이선 필요시 제작기간 약 3~15일 소요 / 추가비용 부과됩니다." +:+ JSString.newline)
       +:+ "● 도시/산간지역의 경우 추가 배송비가 부과됩니다." |}.

Definition EMPTY_CLIENT : Client.t :=
  {| Client.name := Some ""; Client.phone := Some "";
     Client.email := Some ""; Client.address := Some "" |}.

(** What [localStorage.getItem('estimateNumbers')] holds: nothing, text
    that [JSON.parse] rejects, or a record of counts.  (Text that parses
    to [null] or to any other value is told apart in [Storage], which
    has the functions below over every state of the item.) *)
Inductive stored :=
| Missing
| Corrupt
| Parsed (sequences : gmap string Z).

(** The browser as the sequence store sees it. *)
Record World := mkWorld {
  hasWindow : bool;          (* typeof window !== 'undefined' *)
  estimateNumbers : stored;  (* the localStorage item *)
  setItem_ok : bool;         (* localStorage.setItem returns rather than throws *)
  today : string             (* new Date().toISOString().split('T')[0] *)
}.

(** [generateSequenceStore().read()] *)
Definition store_read (w : World) : gmap string Z :=
  if negb (hasWindow w) then ∅
  else
    match estimateNumbers w with
    | Missing => ∅          (* getItem gives null: '{}' is parsed *)
    | Corrupt => ∅          (* JSON.parse throws: caught, {} returned *)
    | Parsed sequences => sequences
    end.

(** [generateSequenceStore().write(value)] *)
Definition store_write (value : gmap string Z) (w : World) : World :=
  if negb (hasWindow w) then w
  else if setItem_ok w
       then {| hasWindow := hasWindow w; estimateNumbers := Parsed value;
               setItem_ok := setItem_ok w; today := today w |}
       else w.

(** [sequences[dateKey] || 0]: a missing entry and the count 0 are falsy.
    The entry is looked up in the parsed record itself, which is what
    the property access does for the key of a date string (no property
    of [Object.prototype] has a name made of digits). *)
Definition count_or_0 (sequences : gmap string Z) (dateKey : string) : Z :=
  match sequences !! dateKey with
  | Some n => if n =? 0 then 0 else n
  | None => 0
  end.

Definition generateEstimateNumber (date : string) (w : World) : string * World :=
  let dateKey := JSString.remove_hyphens date in
  let sequences := store_read w in
  let nextCount := JSNum.int_add (count_or_0 sequences dateKey) 1 in
  let updated := <[dateKey := nextCount]> sequences in
  let w' := store_write updated w in
  ((dateKey +:+ "-") +:+ JSString.padStart_0 3 (JSString.String_int nextCount), w').

Definition createInitialEstimate (date : string) (w : World) : EstimateData.t * World :=
  let '(number, w') := generateEstimateNumber date w in
  ({| EstimateData.estimateNumber := number;
      EstimateData.estimateDate := date;
      EstimateData.constructionStartDate := "";
      EstimateData.constructionEndDate := "";
      EstimateData.constructionDate := "";
      EstimateData.client := EMPTY_CLIENT;
      EstimateData.clientName := "";
      EstimateData.clientPhone := "";
      EstimateData.clientEmail := "";
      EstimateData.supplier := DEFAULT_SUPPLIER;
      EstimateData.items := [];
      EstimateData.taxOption := excluding;
      EstimateData.businessFields := Supplier.businessFields DEFAULT_SUPPLIER;
      EstimateData.footerNotes := Supplier.footerNotes DEFAULT_SUPPLIER |}, w').

Definition hasMeaningfulEstimateData (estimate : EstimateData.t) : bool :=
  if 0 <? Z.of_nat (length (EstimateData.items estimate)) then true
  else if truthy_opt (Client.name (EstimateData.client estimate))
          || truthy_opt (Client.phone (EstimateData.client estimate))
          || truthy_opt (Client.email (EstimateData.client estimate))
          || truthy_opt (Client.address (EstimateData.client estimate))
  then true
  else if truthy (EstimateData.constructionStartDate estimate)
          || truthy (EstimateData.constructionEndDate estimate)
          || truthy (EstimateData.constructionDate estimate)
  then true
  else if negb (String.eqb (EstimateData.businessFields estimate)
                           (Supplier.businessFields DEFAULT_SUPPLIER))
  then true
  else if negb (String.eqb (EstimateData.footerNotes estimate)
                           (Supplier.footerNotes DEFAULT_SUPPLIER))
  then true
  else false.

End Sequence.

(** ** The estimate state store (state/EstimateContext, part_000) *)

Module Store.
Import EstimateData.

(** The React state of [EstimateProvider]. *)
Record State := mkState {
  estimate : EstimateData.t;
  currentEstimateId : option string
}.

(** [{ ...prev, estimateNumber: v }], [{ ...prev, items: v }]. *)
Definition with_estimateNumber (v : string) (prev : EstimateData.t) : EstimateData.t :=
  mk v (estimateDate prev) (constructionStartDate prev) (constructionEndDate prev)
     (constructionDate prev) (client prev) (clientName prev) (clientPhone prev)
     (clientEmail prev) (supplier prev) (items prev) (taxOption prev)
     (businessFields prev) (footerNotes prev).

Definition with_items (v : list (option Item.t)) (prev : EstimateData.t) : EstimateData.t :=
  mk (estimateNumber prev) (estimateDate prev) (constructionStartDate prev)
     (constructionEndDate prev) (constructionDate prev) (client prev)
     (clientName prev) (clientPhone prev) (clientEmail prev) (supplier prev)
     v (taxOption prev) (businessFields prev) (footerNotes prev).

(** A call [updateField(field, value)]: the field and a value of its type. *)
Inductive field_value :=
| f_estimateNumber (value : string)
| f_estimateDate (value : string)
| f_constructionStartDate (value : string)
| f_constructionEndDate (value : string)
| f_constructionDate (value : string)
| f_client (value : Client.t)
| f_clientName (value : string)
| f_clientPhone (value : string)
| f_clientEmail (value : string)
| f_supplier (value : Supplier.t)
| f_items (value : list (option Item.t))
| f_taxOption (value : TaxOption)
| f_businessFields (value : string)
| f_footerNotes (value : string).

(** [{ ...prev, [field]: value }] *)
Definition assign (fv : field_value) (prev : EstimateData.t) : EstimateData.t :=
  match fv with
  | f_estimateNumber v => with_estimateNumber v prev
  | f_estimateDate v =>
      mk (estimateNumber prev) v (constructionStartDate prev) (constructionEndDate prev)
         (constructionDate prev) (client prev) (clientName prev) (clientPhone prev)
         (clientEmail prev) (supplier prev) (items prev) (taxOption prev)
         (businessFields prev) (footerNotes prev)
  | f_constructionStartDate v =>
      mk (estimateNumber prev) (estimateDate prev) v (constructionEndDate prev)
         (constructionDate prev) (client prev) (clientName prev) (clientPhone prev)
         (clientEmail prev) (supplier prev) (items prev) (taxOption prev)
         (businessFields prev) (footerNotes prev)
  | f_constructionEndDate v =>
      mk (estimateNumber prev) (estimateDate prev) (constructionStartDate prev) v
         (constructionDate prev) (client prev) (clientName prev) (clientPhone prev)
         (clientEmail prev) (supplier prev) (items prev) (taxOption prev)
         (businessFields prev) (footerNotes prev)
  | f_constructionDate v =>
      mk (estimateNumber prev) (estimateDate prev) (constructionStartDate prev)
         (constructionEndDate prev) v (client prev) (clientName prev) (clientPhone prev)
         (clientEmail prev) (supplier prev) (items prev) (taxOption prev)
         (businessFields prev) (footerNotes prev)
  | f_client v =>
      mk (estimateNumber prev) (estimateDate prev) (constructionStartDate prev)
         (constructionEndDate prev) (constructionDate prev) v (clientName prev)
         (clientPhone prev) (clientEmail prev) (supplier prev) (items prev)
         (taxOption prev) (businessFields prev) (footerNotes prev)
  | f_clientName v =>
      mk (estimateNumber prev) (estimateDate prev) (constructionStartDate prev)
         (constructionEndDate prev) (constructionDate prev) (client prev) v
         (clientPhone prev) (clientEmail prev) (supplier prev) (items prev)
         (taxOption prev) (businessFields prev) (footerNotes prev)
  | f_clientPhone v =>
      mk (estimateNumber prev) (estimateDate prev) (constructionStartDate prev)
         (constructionEndDate prev) (constructionDate prev) (client prev)
         (clientName prev) v (clientEmail prev) (supplier prev) (items prev)
         (taxOption prev) (businessFields prev) (footerNotes prev)
  | f_clientEmail v =>
      mk (estimateNumber prev) (estimateDate prev) (constructionStartDate prev)
         (constructionEndDate prev) (constructionDate prev) (client prev)
         (clientName prev) (clientPhone prev) v (supplier prev) (items prev)
         (taxOption prev) (businessFields prev) (footerNotes prev)
  | f_supplier v =>
      mk (estimateNumber prev) (estimateDate prev) (constructionStartDate prev)
         (constructionEndDate prev) (constructionDate prev) (client prev)
         (clientName prev) (clientPhone prev) (clientEmail prev) v (items prev)
         (taxOption prev) (businessFields prev) (footerNotes prev)
  | f_items v => with_items v prev
  | f_taxOption v =>
      mk (estimateNumber prev) (estimateDate prev) (constructionStartDate prev)
         (constructionEndDate prev) (constructionDate prev) (client prev)
         (clientName prev) (clientPhone prev) (clientEmail prev) (supplier prev)
         (items prev) v (businessFields prev) (footerNotes prev)
  | f_businessFields v =>
      mk (estimateNumber prev) (estimateDate prev) (constructionStartDate prev)
         (constructionEndDate prev) (constructionDate prev) (client prev)
         (clientName prev) (clientPhone prev) (clientEmail prev) (supplier prev)
         (items prev) (taxOption prev) v (footerNotes prev)
  | f_footerNotes v =>
      mk (estimateNumber prev) (estimateDate prev) (constructionStartDate prev)
         (constructionEndDate prev) (constructionDate prev) (client prev)
         (clientName prev) (clientPhone prev) (clientEmail prev) (supplier prev)
         (items prev) (taxOption prev) (businessFields prev) v
  end.

(** The updater handed to [setEstimate] by [updateField]; it reads and
    writes the sequence store when the field is [estimateDate]. *)
Definition updateField_updater (fv : field_value) (prev : EstimateData.t)
    (w : Sequence.World) : EstimateData.t * Sequence.World :=
  let next := assign fv prev in
  match fv with
  | f_estimateDate value =>
      let '(number, w') := Sequence.generateEstimateNumber value w in
      (with_estimateNumber number next, w')
  | _ => (next, w)
  end.

Definition updateField (fv : field_value) (st : State) (w : Sequence.World)
  : State * Sequence.World :=
  let '(next, w') := updateField_updater fv (estimate st) w in
  (mkState next (currentEstimateId st), w').

Definition updateClient_updater (client : Client.partial) (prev : EstimateData.t)
  : EstimateData.t :=
  mk (estimateNumber prev) (estimateDate prev) (constructionStartDate prev)
     (constructionEndDate prev) (constructionDate prev)
     (Client.merge (EstimateData.client prev) client)
     (nullish (read (Client.p_name client)) (clientName prev))
     (nullish (read (Client.p_phone client)) (clientPhone prev))
     (nullish (read (Client.p_email client)) (clientEmail prev))
     (supplier prev) (items prev) (taxOption prev)
     (businessFields prev) (footerNotes prev).

Definition updateClient (client : Client.partial) (st : State) : State :=
  mkState (updateClient_updater client (estimate st)) (currentEstimateId st).

(** [setEstimate({ ...nextEstimate })] *)
Definition replaceEstimate (nextEstimate : EstimateData.t) (st : State) : State :=
  mkState nextEstimate (currentEstimateId st).

Definition removeItem (index : Z) (st : State) : State :=
  let prev := estimate st in
  mkState
    (with_items (JSArray.filter (fun _ i => negb (i =? index)) (items prev)) prev)
    (currentEstimateId st).

Definition moveItem (from to : Z) (st : State) : State :=
  if from =? to then st
  else
    let prev := estimate st in
    let nextItems := items prev in
    let '(taken, nextItems) := JSArray.splice from 1 [] nextItems in
    (* const [removed] = ...: the first element taken, or undefined *)
    let removed := match taken with x :: _ => x | [] => None end in
    let '(_, nextItems) := JSArray.splice to 0 [removed] nextItems in
    mkState (with_items nextItems prev) (currentEstimateId st).

Definition updateItem (index : Z) (item : Item.partial) (st : State) : State :=
  let prev := estimate st in
  mkState
    (with_items
       (JSArray.map
          (fun existing i =>
             if i =? index
             then Some (Item.merge (default Item.empty existing) item)
             else existing)
          (items prev))
       prev)
    (currentEstimateId st).

Definition appendItems (new_items : list Item.t) (st : State) : State :=
  let prev := estimate st in
  mkState (with_items (items prev ++ List.map Some new_items) prev)
          (currentEstimateId st).

(** [createInitialEstimate()] is called without a date: today's. *)
Definition resetEstimate (st : State) (w : Sequence.World) : State * Sequence.World :=
  let '(initial, w') := Sequence.createInitialEstimate (Sequence.today w) w in
  (mkState initial None, w').

Definition hasDirtyState (st : State) : bool :=
  Sequence.hasMeaningfulEstimateData (estimate st).

(** A run of [updateClient] calls, oldest first. *)
Definition updateClient_calls (calls : list Client.partial) (st : State) : State :=
  fold_left (fun st client => updateClient client st) calls st.

(** In the words of the specification: of the values supplied for one
    property by a run of calls, oldest first, the most recent one that
    is not undefined, and the prior mirror value when there is none. *)
Definition most_recently_supplied (supplied : list (option string)) (prior : string)
  : string :=
  List.last (omap id supplied) prior.

(** A run of [updateField('estimateDate', d)] calls, oldest first. *)
Definition updateField_dates (dates : list string) (st : State) (w : Sequence.World)
  : State * Sequence.World :=
  fold_left (fun '(st, w) d => updateField (f_estimateDate d) st w) dates (st, w).

End Store.

(** ** The record service (the Hono handlers, part_002) *)

Module Server.

(** A persisted estimate: the document sent by the client with the
    three properties the server sets.  A time stamp is kept as the time
    value (milliseconds since the epoch) that [toISOString] prints; the
    printing is one-to-one and preserves the order. *)
Record EstimateRecord := mkRecord {
  data : EstimateData.t;
  id : string;
  createdAt : Z;
  updatedAt : Z
}.

Inductive payload :=
| P_error (error : string)
| P_suppliers (message : string) (suppliers : list Supplier.t)
| P_clients (message : string) (clients : list Client.t)
| P_itemTemplates (message : string) (itemTemplates : list Item.t)
| P_estimate (message : string) (estimate : EstimateRecord)
| P_estimates (message : string) (estimates : list EstimateRecord).

Record Response := mkResponse { status : Z; body : payload }.

(** [c.json(p)] and [c.json(p, status)] *)
Definition json (p : payload) : Response := mkResponse 200 p.
Definition json_status (p : payload) (s : Z) : Response := mkResponse s p.

(** What the handlers call outside the repository: the auth verifier
    (the id of the user, or null), [decodeURIComponent] (which throws a
    URIError on a malformed escape), the wall clock and [Math.random]. *)
Record Env := mkEnv {
  getUserFromToken : string → option string;
  decodeURIComponent : string → option string;
  clock : nat → Z;
  random : nat → string
}.

(** The key-value store, one map per key prefix ([user_suppliers_],
    [user_clients_], [user_item_templates_], [user_estimates_]) from the
    user id to the stored array, and how many times the clock and the
    random generator were read. *)
Record State := mkState {
  user_suppliers : gmap string (list Supplier.t);
  user_clients : gmap string (list Client.t);
  user_item_templates : gmap string (list Item.t);
  user_estimates : gmap string (list EstimateRecord);
  clock_reads : nat;
  random_draws : nat
}.

Definition set_suppliers (uid : string) (v : list Supplier.t) (st : State) : State :=
  mkState (<[uid := v]> (user_suppliers st)) (user_clients st)
          (user_item_templates st) (user_estimates st)
          (clock_reads st) (random_draws st).

Definition set_clients (uid : string) (v : list Client.t) (st : State) : State :=
  mkState (user_suppliers st) (<[uid := v]> (user_clients st))
          (user_item_templates st) (user_estimates st)
          (clock_reads st) (random_draws st).

Definition set_item_templates (uid : string) (v : list Item.t) (st : State) : State :=
  mkState (user_suppliers st) (user_clients st)
          (<[uid := v]> (user_item_templates st)) (user_estimates st)
          (clock_reads st) (random_draws st).

Definition set_estimates (uid : string) (v : list EstimateRecord) (st : State) : State :=
  mkState (user_suppliers st) (user_clients st)
          (user_item_templates st) (<[uid := v]> (user_estimates st))
          (clock_reads st) (random_draws st).

(** [await kv.get(key) || []] *)
Definition get_or_empty {A} (m : gmap string (list A)) (uid : string) : list A :=
  default [] (m !! uid).

(** [Date.now()], [new Date()]: the next reading of the clock. *)
Definition now (env : Env) (st : State) : Z * State :=
  (clock env (clock_reads st),
   mkState (user_suppliers st) (user_clients st) (user_item_templates st)
           (user_estimates st) (S (clock_reads st)) (random_draws st)).

(** [Math.random().toString(36).substr(2, 9)] *)
Definition random_suffix (env : Env) (st : State) : string * State :=
  (random env (random_draws st),
   mkState (user_suppliers st) (user_clients st) (user_item_templates st)
           (user_estimates st) (clock_reads st) (S (random_draws st))).

(** The first lines of every handler: the token is the second piece of
    the Authorization header, and the verifier resolves it to a user. *)
Definition authenticate (env : Env) (authorization : option string)
  : Response + string :=
  let accessToken :=
    match authorization with
    | Some header => JSString.split_space header !! 1%nat
    | None => None
    end in
  if negb (truthy_opt accessToken)
  then inl (json_status (P_error "No access token provided") 401)
  else
    match getUserFromToken env (default "" accessToken) with
    | None => inl (json_status (P_error "Invalid access token") 401)
    | Some user_id => inr user_id
    end.

(** POST /suppliers (lines 97-134).  [request_json] is [None] when
    [c.req.json()] throws. *)
Definition post_suppliers (env : Env) (authorization : option string)
    (request_json : option Supplier.t) (st : State) : Response * State :=
  match authenticate env authorization with
  | inl rejected => (rejected, st)
  | inr user_id =>
      match request_json with
      | None => (json_status (P_error "Error saving supplier") 500, st)
      | Some supplier =>
          if negb (truthy (Supplier.companyName supplier))
          then (json_status (P_error "Company name is required") 400, st)
          else
            let existingSuppliers := get_or_empty (user_suppliers st) user_id in
            let supplierIndex :=
              JSArray.findIndex
                (fun s => String.eqb (Supplier.companyName s) (Supplier.companyName supplier))
                existingSuppliers in
            let existingSuppliers :=
              if 0 <=? supplierIndex
              then <[Z.to_nat supplierIndex := supplier]> existingSuppliers
              else existingSuppliers ++ [supplier] in
            (json (P_suppliers "Supplier saved successfully" existingSuppliers),
             set_suppliers user_id existingSuppliers st)
      end
  end.

(** POST /clients (lines 387-424) *)
Definition post_clients (env : Env) (authorization : option string)
    (request_json : option Client.t) (st : State) : Response * State :=
  match authenticate env authorization with
  | inl rejected => (rejected, st)
  | inr user_id =>
      match request_json with
      | None => (json_status (P_error "Error saving client") 500, st)
      | Some client =>
          if negb (truthy_opt (Client.name client))
          then (json_status (P_error "Client name is required") 400, st)
          else
            let existingClients := get_or_empty (user_clients st) user_id in
            let clientIndex :=
              JSArray.findIndex
                (fun c => bool_decide (Client.name c = Client.name client))
                existingClients in
            let existingClients :=
              if 0 <=? clientIndex
              then <[Z.to_nat clientIndex := client]> existingClients
              else existingClients ++ [client] in
            (json (P_clients "Client saved successfully" existingClients),
             set_clients user_id existingClients st)
      end
  end.

(** POST /item-templates (lines 159-196) *)
Definition post_item_templates (env : Env) (authorization : option string)
    (request_json : option Item.t) (st : State) : Response * State :=
  match authenticate env authorization with
  | inl rejected => (rejected, st)
  | inr user_id =>
      match request_json with
      | None => (json_status (P_error "Error saving item template") 500, st)
      | Some itemTemplate =>
          if negb (truthy_opt (Item.name itemTemplate))
          then (json_status (P_error "Item name is required") 400, st)
          else
            let existingTemplates := get_or_empty (user_item_templates st) user_id in
            let templateIndex :=
              JSArray.findIndex
                (fun t => bool_decide (Item.name t = Item.name itemTemplate))
                existingTemplates in
            let existingTemplates :=
              if 0 <=? templateIndex
              then <[Z.to_nat templateIndex := itemTemplate]> existingTemplates
              else existingTemplates ++ [itemTemplate] in
            (json (P_itemTemplates "Item template saved successfully" existingTemplates),
             set_item_templates user_id existingTemplates st)
      end
  end.

(** DELETE /suppliers/:companyName (lines 427-454) *)
Definition delete_suppliers (env : Env) (authorization : option string)
    (param_companyName : string) (st : State) : Response * State :=
  match authenticate env authorization with
  | inl rejected => (rejected, st)
  | inr user_id =>
      match decodeURIComponent env param_companyName with
      | None => (json_status (P_error "Error deleting supplier") 500, st)
      | Some companyName =>
          let existingSuppliers := get_or_empty (user_suppliers st) user_id in
          let filteredSuppliers :=
            List.filter (fun s => negb (String.eqb (Supplier.companyName s) companyName))
                        existingSuppliers in
          (json (P_suppliers "Supplier deleted successfully" filteredSuppliers),
           set_suppliers user_id filteredSuppliers st)
      end
  end.

(** DELETE /clients/:clientName (lines 457-484) *)
Definition delete_clients (env : Env) (authorization : option string)
    (param_clientName : string) (st : State) : Response * State :=
  match authenticate env authorization with
  | inl rejected => (rejected, st)
  | inr user_id =>
      match decodeURIComponent env param_clientName with
      | None => (json_status (P_error "Error deleting client") 500, st)
      | Some clientName =>
          let existingClients := get_or_empty (user_clients st) user_id in
          let filteredClients :=
            List.filter (fun c => negb (bool_decide (Client.name c = Some clientName)))
                        existingClients in
          (json (P_clients "Client deleted successfully" filteredClients),
           set_clients user_id filteredClients st)
      end
  end.

(** DELETE /item-templates/:name (lines 199-226): the parameter is used
    as the router hands it over. *)
Definition delete_item_templates (env : Env) (authorization : option string)
    (param_name : string) (st : State) : Response * State :=
  match authenticate env authorization with
  | inl rejected => (rejected, st)
  | inr user_id =>
      let templateName := param_name in
      let existingTemplates := get_or_empty (user_item_templates st) user_id in
      let filteredTemplates :=
        List.filter (fun t => negb (bool_decide (Item.name t = Some templateName)))
                    existingTemplates in
      (json (P_itemTemplates "Item template deleted successfully" filteredTemplates),
       set_item_templates user_id filteredTemplates st)
  end.

(** POST /estimates (lines 251-289).  The object literal reads the clock
    three times: [Date.now()] for the id, then [new Date()] for
    [createdAt] and again for [updatedAt]. *)
Definition post_estimates (env : Env) (authorization : option string)
    (request_json : option EstimateData.t) (st : State) : Response * State :=
  match authenticate env authorization with
  | inl rejected => (rejected, st)
  | inr user_id =>
      match request_json with
      | None => (json_status (P_error "Error saving estimate") 500, st)
      | Some estimateData =>
          if negb (truthy (EstimateData.estimateNumber estimateData))
             || negb (truthy (EstimateData.clientName estimateData))
          then (json_status (P_error "Estimate number and client name are required") 400, st)
          else
            let '(date_now, st) := now env st in
            let '(suffix, st) := random_suffix env st in
            let '(created, st) := now env st in
            let '(updated, st) := now env st in
            let estimate :=
              {| data := estimateData;
                 id := (JSString.String_int date_now +:+ "_") +:+ suffix;
                 createdAt := created;
                 updatedAt := updated |} in
            let existingEstimates := get_or_empty (user_estimates st) user_id in
            let existingEstimates := estimate :: existingEstimates in
            (json (P_estimate "Estimate saved successfully" estimate),
             set_estimates user_id existingEstimates st)
      end
  end.

(** PUT /estimates/:id (lines 292-332) *)
Definition put_estimates (env : Env) (authorization : option string)
    (param_id : string) (request_json : option EstimateData.t) (st : State)
  : Response * State :=
  match authenticate env authorization with
  | inl rejected => (rejected, st)
  | inr user_id =>
      let estimateId := param_id in
      match request_json with
      | None => (json_status (P_error "Error updating estimate") 500, st)
      | Some estimateData =>
          let existingEstimates := get_or_empty (user_estimates st) user_id in
          let estimateIndex :=
            JSArray.findIndex (fun e => String.eqb (id e) estimateId) existingEstimates in
          if estimateIndex =? -1
          then (json_status (P_error "Estimate not found") 404, st)
          else
            match existingEstimates !! Z.to_nat estimateIndex with
            | None => (json_status (P_error "Error updating estimate") 500, st)
            | Some found =>
                let '(updated, st) := now env st in
                let replacement :=
                  {| data := estimateData;
                     id := estimateId;
                     createdAt := createdAt found;
                     updatedAt := updated |} in
                let existingEstimates :=
                  <[Z.to_nat estimateIndex := replacement]> existingEstimates in
                (json (P_estimate "Estimate updated successfully" replacement),
                 set_estimates user_id existingEstimates st)
            end
      end
  end.

(** DELETE /estimates/:id (lines 335-362) *)
Definition delete_estimates (env : Env) (authorization : option string)
    (param_id : string) (st : State) : Response * State :=
  match authenticate env authorization with
  | inl rejected => (rejected, st)
  | inr user_id =>
      let estimateId := param_id in
      let existingEstimates := get_or_empty (user_estimates st) user_id in
      let filteredEstimates :=
        List.filter (fun e => negb (String.eqb (id e) estimateId)) existingEstimates in
      (json (P_estimates "Estimate deleted successfully" filteredEstimates),
       set_estimates user_id filteredEstimates st)
  end.

(** The requests of the service that write to the store, and the service
    as a machine: it starts with an empty key-value store and handles
    the requests one after the other. *)
Inductive request :=
| POST_suppliers (authorization : option string) (request_json : option Supplier.t)
| POST_clients (authorization : option string) (request_json : option Client.t)
| POST_item_templates (authorization : option string) (request_json : option Item.t)
| POST_estimates (authorization : option string) (request_json : option EstimateData.t)
| PUT_estimates (authorization : option string) (param_id : string)
    (request_json : option EstimateData.t)
| DELETE_suppliers (authorization : option string) (param_companyName : string)
| DELETE_clients (authorization : option string) (param_clientName : string)
| DELETE_item_templates (authorization : option string) (param_name : string)
| DELETE_estimates (authorization : option string) (param_id : string).

Definition handle (env : Env) (req : request) (st : State) : Response * State :=
  match req with
  | POST_suppliers a j => post_suppliers env a j st
  | POST_clients a j => post_clients env a j st
  | POST_item_templates a j => post_item_templates env a j st
  | POST_estimates a j => post_estimates env a j st
  | PUT_estimates a i j => put_estimates env a i j st
  | DELETE_suppliers a k => delete_suppliers env a k st
  | DELETE_clients a k => delete_clients env a k st
  | DELETE_item_templates a k => delete_item_templates env a k st
  | DELETE_estimates a i => delete_estimates env a i st
  end.

Definition initial : State := mkState ∅ ∅ ∅ ∅ 0 0.

(** A sample environment: one known token, route parameters without
    escapes, a clock that advances by one millisecond at every reading. *)
Definition sample_env : Env :=
  mkEnv (fun token => if String.eqb token "token-1" then Some "user-1" else None)
        Some
        (fun n => 1700000000000 + Z.of_nat n)
        (fun _ => "k3x9q2m7p").

(** The same with a clock that stands still. *)
Definition frozen_env : Env :=
  mkEnv (getUserFromToken sample_env) (decodeURIComponent sample_env)
        (fun _ => 1700000000000) (random sample_env).

(** The array that POST /suppliers stores and returns. *)
Definition saved_suppliers (supplier : Supplier.t) (existingSuppliers : list Supplier.t)
  : list Supplier.t :=
  let supplierIndex :=
    JSArray.findIndex
      (fun s => String.eqb (Supplier.companyName s) (Supplier.companyName supplier))
      existingSuppliers in
  if 0 <=? supplierIndex
  then <[Z.to_nat supplierIndex := supplier]> existingSuppliers
  else existingSuppliers ++ [supplier].

(** No two records of a supplier collection share a [companyName]. *)
Definition unique_companyNames (l : list Supplier.t) : Prop :=
  NoDup (List.map Supplier.companyName l).

Definition serve (env : Env) (history : list request) : State :=
  fold_left (fun st req => snd (handle env req st)) history initial.

Definition suppliers_unique (st : State) : Prop :=
  ∀ uid, unique_companyNames (get_or_empty (user_suppliers st) uid).

(** Sample payloads: the default supplier under another phone number,
    and a fresh document for the client Kim. *)
Definition sample_supplier (phone : string) : Supplier.t :=
  let d := Sequence.DEFAULT_SUPPLIER in
  Supplier.mk (Supplier.name d) (Supplier.companyName d) (Supplier.address d)
    (Supplier.businessType d) (Supplier.businessItem d) phone (Supplier.fax d)
    (Supplier.businessNumber d) (Supplier.companyEmail d) (Supplier.accountNumber d)
    (Supplier.homepage d) (Supplier.logo d) (Supplier.businessFields d)
    (Supplier.footerNotes d).

Definition sample_estimate : EstimateData.t :=
  Store.updateClient_updater
    (Client.mkPartial (Value "Kim") Absent Absent Absent)
    (fst (Sequence.createInitialEstimate "2024-05-01"
            (Sequence.mkWorld true Sequence.Missing true "2024-05-01"))).

End Server.

(** ** The rest of the record service: requests and list endpoints *)

Module ServerReads.
Import Server.

(** The Authorization header of a request. *)
Definition authorization_of (req : request) : option string :=
  match req with
  | POST_suppliers a _ | POST_clients a _ | POST_item_templates a _
  | POST_estimates a _ | PUT_estimates a _ _ | DELETE_suppliers a _
  | DELETE_clients a _ | DELETE_item_templates a _ | DELETE_estimates a _ => a
  end.

(** GET /suppliers, /clients, /item-templates and /estimates (lines
    75-94, 365-384, 137-156 and 229-248): [inl] is the rejection, and
    [inr l] the answer 200 whose only property is the array [l].  The
    store is read, never written. *)
Definition get_suppliers (env : Env) (authorization : option string) (st : State)
  : Response + list Supplier.t :=
  match authenticate env authorization with
  | inl rejected => inl rejected
  | inr user_id => inr (get_or_empty (user_suppliers st) user_id)
  end.

Definition get_clients (env : Env) (authorization : option string) (st : State)
  : Response + list Client.t :=
  match authenticate env authorization with
  | inl rejected => inl rejected
  | inr user_id => inr (get_or_empty (user_clients st) user_id)
  end.

Definition get_item_templates (env : Env) (authorization : option string) (st : State)
  : Response + list Item.t :=
  match authenticate env authorization with
  | inl rejected => inl rejected
  | inr user_id => inr (get_or_empty (user_item_templates st) user_id)
  end.

Definition get_estimates (env : Env) (authorization : option string) (st : State)
  : Response + list EstimateRecord :=
  match authenticate env authorization with
  | inl rejected => inl rejected
  | inr user_id => inr (get_or_empty (user_estimates st) user_id)
  end.

(** A piece of a header: a string without a space. *)
Fixpoint no_space (s : string) : bool :=
  match s with
  | EmptyString => true
  | String c s' => negb (Ascii.eqb c " "%char) && no_space s'
  end.

(** The four collections of one user. *)
Definition collections_of (st : State) (uid : string)
  : list Supplier.t * list Client.t * list Item.t * list EstimateRecord :=
  (get_or_empty (user_suppliers st) uid, get_or_empty (user_clients st) uid,
   get_or_empty (user_item_templates st) uid, get_or_empty (user_estimates st) uid).

(** The keys of the three keyed collections are present and distinct. *)
Definition keys_sound {A} (key : A → option string) (l : list A) : Prop :=
  Forall (fun x => truthy_opt (key x) = true) l ∧ NoDup (List.map key l).

Definition store_sound (st : State) : Prop :=
  ∀ uid,
    keys_sound (fun s => Some (Supplier.companyName s))
               (get_or_empty (user_suppliers st) uid) ∧
    keys_sound Client.name (get_or_empty (user_clients st) uid) ∧
    keys_sound Item.name (get_or_empty (user_item_templates st) uid).

End ServerReads.

(** ** [decodeURIComponent], and the service where it is the built-in *)

Module URI.

(** A string stands for the JS string whose UTF-8 encoding it holds.
    [decodeURIComponent] copies every code unit other than [%]; at a
    [%] it reads two hexadecimal digits as an octet, and for an octet
    from 0x80 on as many further escapes as its leading one bits
    announce; the octets must be the UTF-8 encoding of a code point,
    which is what it appends.  [None] stands for the URIError thrown
    at an escape that is cut short, is not hexadecimal, or is not
    UTF-8. *)
Definition hex_value (c : ascii) : option N :=
  let n := N_of_ascii c in
  if ((48 <=? n) && (n <=? 57))%N then Some (n - 48)%N
  else if ((65 <=? n) && (n <=? 70))%N then Some (n - 55)%N
  else if ((97 <=? n) && (n <=? 102))%N then Some (n - 87)%N
  else None.

(** The number of octets that a first octet from 0x80 on announces:
    two, three or four; 10xxxxxx and 11111xxx begin nothing. *)
Definition announced (B : N) : option nat :=
  if (B <? 192)%N then None
  else if (B <? 224)%N then Some 2%nat
  else if (B <? 240)%N then Some 3%nat
  else if (B <? 248)%N then Some 4%nat
  else None.

Definition is_continuation (B : N) : bool := ((128 <=? B) && (B <? 192))%N.

(** The well-formed UTF-8 sequences, given that the octets after the
    first are continuation octets: no overlong form, no surrogate,
    nothing above U+10FFFF. *)
Definition valid_utf8 (octets : list N) : bool :=
  match octets with
  | [b0; _] => (194 <=? b0)%N
  | [b0; b1; _] =>
      if (b0 =? 224)%N then (160 <=? b1)%N
      else if (b0 =? 237)%N then (b1 <=? 159)%N
      else true
  | [b0; b1; _; _] =>
      if (b0 =? 240)%N then (144 <=? b1)%N
      else if (b0 =? 244)%N then (b1 <=? 143)%N
      else (b0 <? 244)%N
  | _ => false
  end.

Definition string_of_octets (octets : list N) : string :=
  fold_right (fun B rest => String (ascii_of_N B) rest) EmptyString octets.

(** [expected] is the number of escapes still due for the sequence
    whose octets so far are [octets]. *)
Fixpoint decode (expected : nat) (octets : list N) (s : string) : option string :=
  match s with
  | EmptyString =>
      match expected with
      | O => Some EmptyString
      | S _ => None
      end
  | String c s1 =>
      if Ascii.eqb c "%"%char then
        match s1 with
        | String x (String y rest) =>
            match hex_value x, hex_value y with
            | Some h, Some l =>
                let B := (16 * h + l)%N in
                match expected with
                | O =>
                    if (B <? 128)%N
                    then option_map (String (ascii_of_N B)) (decode 0 [] rest)
                    else
                      match announced B with
                      | Some n => decode (n - 1) [B] rest
                      | None => None
                      end
                | S remaining =>
                    if is_continuation B then
                      let octets := octets ++ [B] in
                      match remaining with
                      | O =>
                          if valid_utf8 octets
                          then option_map (String.append (string_of_octets octets))
                                          (decode 0 [] rest)
                          else None
                      | S _ => decode remaining octets rest
                      end
                    else None
                end
            | _, _ => None
            end
        | _ => None
        end
      else
        match expected with
        | O => option_map (String c) (decode 0 [] s1)
        | S _ => None
        end
  end.

Definition decodeURIComponent (s : string) : option string := decode 0 [] s.

(** A string without [%]. *)
Fixpoint no_percent (s : string) : bool :=
  match s with
  | EmptyString => true
  | String c s' => negb (Ascii.eqb c "%"%char) && no_percent s'
  end.

(** An environment of the service whose [decodeURIComponent] is the
    built-in, and the sample environment made one. *)
Definition standard (env : Server.Env) : Prop :=
  ∀ s, Server.decodeURIComponent env s = decodeURIComponent s.

Definition runtime_env : Server.Env :=
  Server.mkEnv (Server.getUserFromToken Server.sample_env) decodeURIComponent
               (Server.clock Server.sample_env) (Server.random Server.sample_env).

End URI.

(** ** The sequence store over everything that [localStorage] can hold *)

Module Storage.
Import EstimateData.

(** The item [estimateNumbers] in full: the three states of
    [Sequence.stored] (nothing or the empty string, text that
    [JSON.parse] rejects, an object whose properties are integers),
    text that parses to [null], and text that parses to anything else
    (a number, a string, a boolean, an array, an object with a property
    that is not an integer). *)
Inductive stored :=
| Counts (item : Sequence.stored)
| Null
| Other.

Record World := mkWorld {
  hasWindow : bool;          (* typeof window !== 'undefined' *)
  estimateNumbers : stored;  (* the localStorage item *)
  setItem_ok : bool;         (* localStorage.setItem returns rather than throws *)
  today : string             (* new Date().toISOString().split('T')[0] *)
}.

(** A browser of [Sequence] seen here. *)
Definition of_world (w : Sequence.World) : World :=
  mkWorld (Sequence.hasWindow w) (Counts (Sequence.estimateNumbers w))
          (Sequence.setItem_ok w) (Sequence.today w).

(** What a call does: it returns, it throws, or it does something that
    this model does not follow (the stored text parses to [Other], the
    key is not made of digits and may name a property inherited from
    [Object.prototype], or the count lies beyond the safe integers,
    where [+ 1] need not be exact and [String] changes its notation). *)
Inductive outcome (A : Type) : Type :=
| Returned (a : A)
| Thrown
| Unmodelled.
Arguments Returned {A} a.
Arguments Thrown {A}.
Arguments Unmodelled {A}.

Definition bind {A B} (o : outcome A) (f : A → outcome B) : outcome B :=
  match o with
  | Returned a => f a
  | Thrown => Thrown
  | Unmodelled => Unmodelled
  end.

(** The value that [generateSequenceStore().read()] returns. *)
Inductive parsed :=
| record (sequences : gmap string Z)
| null
| other.

Definition record_of (item : Sequence.stored) : gmap string Z :=
  match item with
  | Sequence.Parsed sequences => sequences
  | Sequence.Missing => ∅      (* getItem gives null or '': '{}' is parsed *)
  | Sequence.Corrupt => ∅      (* JSON.parse throws: caught, {} returned *)
  end.

(** [generateSequenceStore().read()] (part_001, lines 30-46) *)
Definition store_read (w : World) : parsed :=
  if negb (hasWindow w) then record ∅
  else
    match estimateNumbers w with
    | Counts item => record (record_of item)
    | Null => null
    | Other => other
    end.

(** [generateSequenceStore().write(value)] (part_001, lines 47-53): a
    failing [setItem] is caught. *)
Definition store_write (value : gmap string Z) (w : World) : World :=
  if negb (hasWindow w) then w
  else if setItem_ok w
       then mkWorld (hasWindow w) (Counts (Sequence.Parsed value)) (setItem_ok w) (today w)
       else w.

(** [generateEstimateNumber] (part_001, lines 57-67).  [sequences[dateKey]]
    throws a TypeError on [null], outside any [try]. *)
Definition generateEstimateNumber (date : string) (w : World)
  : outcome (string * World) :=
  let dateKey := JSString.remove_hyphens date in
  match store_read w with
  | null => Thrown
  | other => Unmodelled
  | record sequences =>
      if negb (JSString.date_string date) then Unmodelled
      else
        let count := Sequence.count_or_0 sequences dateKey in
        if negb (Z.abs count <=? JSNum.MAX_SAFE_INTEGER) then Unmodelled
        else
          let nextCount := JSNum.int_add count 1 in
          let updated := <[dateKey := nextCount]> sequences in
          let w' := store_write updated w in
          Returned ((dateKey +:+ "-")
                    +:+ JSString.padStart_0 3 (JSString.String_int nextCount), w')
  end.

(** [updateField] (part_000, lines 31-41) over these browsers; an
    exception of the updater leaves it. *)
Definition updateField (fv : Store.field_value) (st : Store.State) (w : World)
  : outcome (Store.State * World) :=
  let next := Store.assign fv (Store.estimate st) in
  match fv with
  | Store.f_estimateDate value =>
      bind (generateEstimateNumber value w)
           (fun '(number, w') =>
              Returned (Store.mkState (Store.with_estimateNumber number next)
                                      (Store.currentEstimateId st), w'))
  | _ => Returned (Store.mkState next (Store.currentEstimateId st), w)
  end.

(** A run of [updateField('estimateDate', d)] calls, oldest first. *)
Definition updateField_dates (dates : list string) (st : Store.State) (w : World)
  : outcome (Store.State * World) :=
  fold_left
    (fun before d => bind before (fun '(st, w) => updateField (Store.f_estimateDate d) st w))
    dates (Returned (st, w)).

(** In the words of the specification: the running count of a date key,
    which is the integer stored under it, and 0 when there is none. *)
Definition stored_count (w : World) (dateKey : string) : Z :=
  match estimateNumbers w with
  | Counts item => default 0 (record_of item !! dateKey)
  | Null | Other => 0
  end.

End Storage.

(** ** The single-file application (part_007, lines 139-420) *)

Module Legacy.
Import EstimateData.

(** [generateEstimateNumber] (lines 198-211): [localStorage] is used
    as it is (a ReferenceError where there is no window), [JSON.parse]
    and [setItem] are not guarded, and the property of [null] cannot be
    read.  What [Storage.generateEstimateNumber] does not follow is not
    followed here either. *)
Definition generateEstimateNumber (date : string) (w : Storage.World)
  : Storage.outcome (string * Storage.World) :=
  let dateStr := JSString.remove_hyphens date in
  if negb (Storage.hasWindow w) then Storage.Thrown
  else
    match Storage.estimateNumbers w with
    | Storage.Counts Sequence.Corrupt => Storage.Thrown
    | Storage.Null => Storage.Thrown
    | Storage.Other => Storage.Unmodelled
    | Storage.Counts item =>
        let storedNumbers := Storage.record_of item in
        let dayKey := dateStr in
        if negb (JSString.date_string date) then Storage.Unmodelled
        else if negb (Z.abs (default 0 (storedNumbers !! dayKey)) <=? JSNum.MAX_SAFE_INTEGER)
        then Storage.Unmodelled
        else
          let count :=
            match storedNumbers !! dayKey with
            | Some n => if n =? 0 then 1 else JSNum.int_add n 1
            | None => 1
            end in
          let storedNumbers := <[dayKey := count]> storedNumbers in
          if Storage.setItem_ok w
          then Storage.Returned
                 ((dateStr +:+ "-") +:+ JSString.padStart_0 3 (JSString.String_int count),
                  Storage.mkWorld (Storage.hasWindow w)
                    (Storage.Counts (Sequence.Parsed storedNumbers))
                    (Storage.setItem_ok w) (Storage.today w))
          else Storage.Thrown
    end.

(** [a || b] on strings that may be undefined. *)
Definition or_else (o : option string) (d : string) : string :=
  match o with
  | Some s => if truthy s then s else d
  | None => d
  end.

(** [updateClient] (lines 296-305): the mirrors are kept with [||]. *)
Definition updateClient (client : Client.partial) (prev : EstimateData.t)
  : EstimateData.t :=
  mk (estimateNumber prev) (estimateDate prev) (constructionStartDate prev)
     (constructionEndDate prev) (constructionDate prev)
     (Client.merge (EstimateData.client prev) client)
     (or_else (read (Client.p_name client)) (clientName prev))
     (or_else (read (Client.p_phone client)) (clientPhone prev))
     (or_else (read (Client.p_email client)) (clientEmail prev))
     (supplier prev) (items prev) (taxOption prev)
     (businessFields prev) (footerNotes prev).

(** [moveItem] (lines 314-324): the two [splice] calls, with no test
    of the indices. *)
Definition moveItem (dragIndex hoverIndex : Z) (prev : EstimateData.t)
  : EstimateData.t :=
  let newItems := items prev in
  let '(taken, newItems) := JSArray.splice dragIndex 1 [] newItems in
  let removed := match taken with x :: _ => x | [] => None end in
  let '(_, newItems) := JSArray.splice hoverIndex 0 [removed] newItems in
  Store.with_items newItems prev.

(** [hasData] of [resetEstimate] (lines 353-356). *)
Definition hasData (estimateData : EstimateData.t) : bool :=
  (0 <? Z.of_nat (length (items estimateData)))
  || truthy_opt (Client.name (client estimateData))
  || truthy (constructionStartDate estimateData)
  || truthy (constructionEndDate estimateData).

End Legacy.

(** ** The item drafts of the form (components/EstimateForm.tsx, lines 932-1308) *)

Module Form.

Record ItemDraft := mkDraft {
  id : string;
  name : string;
  quantity : string;
  price : string;
  spec : string;
  note : string
}.

Definition createDraft (id : string) : ItemDraft := mkDraft id "" "" "" "EA" "".

(** [useState([createDraft('item-0')])] *)
Definition initial_drafts : list (option ItemDraft) := [Some (createDraft "item-0")].

Inductive draft_field := d_id | d_name | d_quantity | d_price | d_spec | d_note.

(** [{ ...draft, [field]: value }] *)
Definition set_field (field : draft_field) (value : string) (draft : ItemDraft)
  : ItemDraft :=
  match field with
  | d_id => mkDraft value (name draft) (quantity draft) (price draft) (spec draft) (note draft)
  | d_name => mkDraft (id draft) value (quantity draft) (price draft) (spec draft) (note draft)
  | d_quantity => mkDraft (id draft) (name draft) value (price draft) (spec draft) (note draft)
  | d_price => mkDraft (id draft) (name draft) (quantity draft) value (spec draft) (note draft)
  | d_spec => mkDraft (id draft) (name draft) (quantity draft) (price draft) value (note draft)
  | d_note => mkDraft (id draft) (name draft) (quantity draft) (price draft) (spec draft) value
  end.

(** [l[index]] for an integer index. *)
Definition at_index {A} (l : list (option A)) (index : Z) : option A :=
  if index <? 0 then None else mjoin (l !! Z.to_nat index).

Definition moveDraft (from to : Z) (prev : list (option ItemDraft))
  : list (option ItemDraft) :=
  let next := prev in
  let '(taken, next) := JSArray.splice from 1 [] next in
  let removed := match taken with x :: _ => x | [] => None end in
  let '(_, next) := JSArray.splice to 0 [removed] next in
  next.

Definition handleDraftChange (index : Z) (field : draft_field) (value : string)
    (prev : list (option ItemDraft)) : list (option ItemDraft) :=
  let next := prev in
  match at_index next index with
  | None => prev
  | Some draft => <[Z.to_nat index := Some (set_field field value draft)]> next
  end.

Definition handleDraftRemove (index : Z) (prev : list (option ItemDraft))
  : list (option ItemDraft) :=
  if (length prev =? 1)%nat then prev
  else JSArray.filter (fun _ idx => negb (idx =? index)) prev.

(** [handleAddDraftRow]; the id comes from the draft counter. *)
Definition handleAddDraftRow (new_id : string) (prev : list (option ItemDraft))
  : list (option ItemDraft) :=
  prev ++ [Some (createDraft new_id)].

Inductive draft_edit :=
| MoveDraft (from to : Z)
| DraftChange (index : Z) (field : draft_field) (value : string)
| DraftRemove (index : Z)
| AddDraftRow (new_id : string).

Definition edit (e : draft_edit) (prev : list (option ItemDraft))
  : list (option ItemDraft) :=
  match e with
  | MoveDraft from to => moveDraft from to prev
  | DraftChange index field value => handleDraftChange index field value prev
  | DraftRemove index => handleDraftRemove index prev
  | AddDraftRow new_id => handleAddDraftRow new_id prev
  end.

(** The payload of [handleSupplierSave] (line 1144) and the list that
    the handler keeps when nobody is signed in (lines 1167-1178). *)
Definition supplierPayload (estimate : EstimateData.t) : Supplier.t :=
  let s := EstimateData.supplier estimate in
  Supplier.mk (Supplier.name s) (Supplier.companyName s) (Supplier.address s)
    (Supplier.businessType s) (Supplier.businessItem s) (Supplier.phone s)
    (Supplier.fax s) (Supplier.businessNumber s) (Supplier.companyEmail s)
    (Supplier.accountNumber s) (Supplier.homepage s) (Supplier.logo s)
    (EstimateData.businessFields estimate) (EstimateData.footerNotes estimate).

Definition local_supplier_save (estimate : EstimateData.t) (suppliers : list Supplier.t)
  : list Supplier.t :=
  let supplierPayload := supplierPayload estimate in
  if negb (truthy (Supplier.companyName supplierPayload)) then suppliers
  else
    let existingIndex :=
      JSArray.findIndex
        (fun item => String.eqb (Supplier.companyName item)
                       (Supplier.companyName supplierPayload))
        suppliers in
    let next := suppliers in
    if 0 <=? existingIndex
    then <[Z.to_nat existingIndex := supplierPayload]> next
    else next ++ [supplierPayload].

End Form.

(** ** Saving and loading (EstimatePreview.handleSave of part_004,
       AppShell of part_007, MyPage.handleLoadEstimate) *)

Module Flow.
Import Server.

Inductive save_result :=
| LoginRequired
| NumberOrClientMissing
| NoItems
| SaveFailed (message : string)
| SaveDone (isUpdate : bool).

(** [response.ok] *)
Definition ok (r : Response) : bool := (200 <=? status r) && (status r <=? 299).

(** [JSON.stringify] writes NaN, the infinities and an undefined slot
    of an array as null, and the negative zero as 0; every other number
    and every string is read back by [JSON.parse] as it was.  A document
    is carried unchanged when every slot of its items holds an item
    whose quantity and price, where present, are none of these. *)
Definition json_number (x : option number) : bool :=
  match x with
  | Some S754_nan | Some (S754_infinity _) | Some (S754_zero true) => false
  | _ => true
  end.

Definition json_exact (e : EstimateData.t) : Prop :=
  Forall (fun slot =>
            match slot with
            | Some item =>
                json_number (Item.quantity item) = true ∧
                json_number (Item.price item) = true
            | None => False
            end)
         (EstimateData.items e).

(** [handleSave] (part_004, lines 264-313): [user] tells whether the
    user object is there.  The request reaches the handler with the
    header that [fetch] is given and with the document as its body,
    which is what [c.req.json()] reads for a document that JSON carries
    unchanged ([json_exact]); the id in the path is one that the server
    issued (digits, an underscore and letters), so the route parameter
    is that id. *)
Definition handleSave (env : Env) (accessToken : string) (user : bool)
    (app : Store.State) (server : State)
  : save_result * Store.State * State :=
  if negb (truthy accessToken) || negb user then (LoginRequired, app, server)
  else
    let estimate := Store.estimate app in
    if negb (truthy (EstimateData.estimateNumber estimate))
       || negb (truthy_opt (Client.name (EstimateData.client estimate)))
    then (NumberOrClientMissing, app, server)
    else if (length (EstimateData.items estimate) =? 0)%nat
    then (NoItems, app, server)
    else
      let isUpdate := truthy_opt (Store.currentEstimateId app) in
      let authorization := Some ("Bearer " +:+ accessToken) in
      let '(response, server') :=
        if isUpdate
        then put_estimates env authorization (default "" (Store.currentEstimateId app))
               (Some estimate) server
        else post_estimates env authorization (Some estimate) server in
      if negb (ok response)
      then
        (SaveFailed
           match body response with
           | P_error e => if truthy e then e else "견적서 저장에 실패했습니다."
           | _ => "견적서 저장에 실패했습니다."
           end,
         app, server')
      else
        let app' :=
          match body response with
          | P_estimate _ saved =>
              if negb isUpdate && truthy (id saved)
              then Store.mkState estimate (Some (id saved))
              else app
          | _ => app
          end in
        (SaveDone isUpdate, app', server').

(** [MyPage.handleLoadEstimate] followed by [AppShell.handleLoadEstimate]
    (part_007, lines 68-71): the record without its three server
    properties replaces the document, and its id is bound. *)
Definition handleLoadEstimate (record : EstimateRecord) (app : Store.State)
  : Store.State :=
  let app := Store.replaceEstimate (data record) app in
  Store.mkState (Store.estimate app)
                (if truthy (id record) then Some (id record) else None).

(** [AppShell.handleReset] (part_007, lines 45-56); [confirmed] is the
    answer that [window.confirm] gives when it is asked. *)
Definition handleReset (confirmed : bool) (app : Store.State) (w : Sequence.World)
  : Store.State * Sequence.World :=
  if Store.hasDirtyState app && negb confirmed then (app, w)
  else Store.resetEstimate app w.

End Flow.

(** ** Further copies of the totals (part_006, components/MyPage.tsx) *)

Module TotalsCopies.
Import JSNum Totals.

(** [calculateEstimateTotal] of the saved-estimate cards
    (components/MyPage.tsx, lines 161-172); its property [tax] is the
    field [taxAmount] here. *)
Definition calculateEstimateTotal (estimate_items : list Item.t)
    (estimate_taxOption : TaxOption) : Totals.t :=
  let subtotal :=
    fold_left
      (fun subtotal item =>
         match estimate_taxOption with
         | including =>
             let unitPrice := Math_floor (div (to_number (Item.price item)) lit_1_1) in
             add subtotal (mul unitPrice (to_number (Item.quantity item)))
         | excluding =>
             add subtotal (mul (to_number (Item.price item)) (to_number (Item.quantity item)))
         end)
      estimate_items (of_Z 0) in
  let tax := Math_floor (mul subtotal lit_0_1) in
  {| subtotal := subtotal; taxAmount := tax; total := add subtotal tax |}.

(** A row of the items table of part_006 (lines 1012-1024). *)
Record line_006 := mkLine_006 { unitPrice : number; totalPrice : number; taxAmount_006 : number }.

Definition previewLine_006 (taxOption : TaxOption) (item : Item.t) : line_006 :=
  let quantity := to_number (Item.quantity item) in
  let price := to_number (Item.price item) in
  match taxOption with
  | including =>
      let unitPrice := Math_floor (div price lit_1_1) in
      let totalPrice := mul unitPrice quantity in
      let taxAmount := mul (sub price unitPrice) quantity in
      mkLine_006 unitPrice totalPrice taxAmount
  | excluding =>
      let unitPrice := price in
      let totalPrice := mul unitPrice quantity in
      let taxAmount := Math_floor (mul totalPrice lit_0_1) in
      mkLine_006 unitPrice totalPrice taxAmount
  end.

(** The sum of the amounts of the rows, in the order of the table. *)
Definition sum_rows (amounts : list number) : number := fold_left add amounts (of_Z 0).

End TotalsCopies.

(** ** The currency words, digit by digit *)

Module KoreanWords.
Import Korean.

(** In words: a digit before a scale word.  Nothing for 0, the scale
    word alone for 1, the digit and the scale word otherwise. *)
Definition scaled (d : Z) (scale : string) : string :=
  if d =? 0 then "" else if d =? 1 then scale else at_index digits_003 d +:+ scale.

Definition ones_word (d : Z) : string :=
  if d =? 0 then "" else at_index digits_003 d.

Definition group_words (t h d o : Z) : string :=
  scaled t "천" +:+ (scaled h "백" +:+ (scaled d "십" +:+ ones_word o)).

Definition is_digit (d : Z) : Prop := 0 <= d <= 9.

(** A group of four digits followed by its unit word; nothing for 0. *)
Definition group (part : Z) (unit : string) : string :=
  if 0 <? part then partStr_003 part +:+ unit else "".

(** The amount in words, group by group, for an amount below 10000^4. *)
Definition amount_words (num : Z) : string :=
  group (num / 10000 ^ 3) "조"
  +:+ (group (num / 10000 ^ 2 mod 10000) "억"
  +:+ (group (num / 10000 mod 10000) "만"
  +:+ (group (num mod 10000) "" +:+ "원정"))).

End KoreanWords.

(** ** Predicates on the state store *)

Module StoreMore.
Import EstimateData Store.

(** The fields that [hasMeaningfulEstimateData] does not read. *)
Definition unread_by_dirty (fv : field_value) : bool :=
  match fv with
  | f_estimateNumber _ | f_estimateDate _ | f_clientName _ | f_clientPhone _
  | f_clientEmail _ | f_supplier _ | f_taxOption _ => true
  | _ => false
  end.

(** The legacy mirrors repeat the client. *)
Definition mirrors_synced (e : EstimateData.t) : Prop :=
  Client.name (client e) = Some (clientName e) ∧
  Client.phone (client e) = Some (clientPhone e) ∧
  Client.email (client e) = Some (clientEmail e).

(** A patch that sets none of name, phone and email to undefined. *)
Definition no_undefined (c : Client.partial) : Prop :=
  Client.p_name c ≠ Undefined ∧ Client.p_phone c ≠ Undefined ∧
  Client.p_email c ≠ Undefined.

(** A patch that supplies no empty string for name, phone or email. *)
Definition no_empty_string (c : Client.partial) : Prop :=
  Client.p_name c ≠ Value "" ∧ Client.p_phone c ≠ Value "" ∧
  Client.p_email c ≠ Value "".

(** An item patch that has no property. *)
Definition empty_patch : Item.partial :=
  Item.mkPartial Absent Absent Absent Absent Absent.

(** What [handleSave] asks of the document before it sends it. *)
Definition client_valid (e : EstimateData.t) : Prop :=
  truthy (estimateNumber e) = true ∧
  truthy_opt (Client.name (client e)) = true ∧
  items e ≠ [].

(** A sample document that can be saved: the client Kim and one item. *)
Definition sample_document : EstimateData.t :=
  with_items [Some (Item.make "A" 2 1000 "EA" "")] Server.sample_estimate.

Definition sample_app : Store.State := mkState sample_document None.

End StoreMore.

(** * Properties *)

(** ** Totals *)

Module TotalsFacts.
Import JSNum Totals.

(** The two literals are the doubles 0x1.199999999999ap+0 and
    0x1.999999999999ap-4. *)
Lemma literals_are_the_nearest_doubles :
  lit_1_1 = S754_finite false 4953959590107546 (-52) ∧
  lit_0_1 = S754_finite false 7205759403792794 (-56).
Proof. split; reflexivity. Qed.

(** The two copies of the aggregate computation are one function. *)
Lemma calculateTotals_useTotals items taxOption :
  calculateTotals items taxOption = useTotals items taxOption.
Proof. destruct taxOption; reflexivity. Qed.

Lemma fold_contributions taxOption items acc :
  fold_left
    (fun subtotal item =>
       match taxOption with
       | including =>
           let unitPrice := Math_floor (div (to_number (Item.price item)) lit_1_1) in
           add subtotal (mul unitPrice (to_number (Item.quantity item)))
       | excluding =>
           add subtotal (mul (to_number (Item.price item)) (to_number (Item.quantity item)))
       end)
    items acc
  = fold_left add (List.map (contribution taxOption) items) acc.
Proof.
  revert acc. induction items as [|item items IH]; intros acc; simpl.
  - reflexivity.
  - rewrite IH. destruct taxOption; reflexivity.
Qed.

(** The shape of the computation: the per-unit floor is taken before the
    multiplication and the summation, the tax once on the sum. *)
Lemma useTotals_shape items taxOption :
  let s := fold_left add (List.map (contribution taxOption) items) (of_Z 0) in
  useTotals items taxOption
  = {| subtotal := s;
       taxAmount := Math_floor (mul s lit_0_1);
       total := add s (Math_floor (mul s lit_0_1)) |}.
Proof. unfold useTotals. rewrite fold_contributions. reflexivity. Qed.

(** The rows of the context-based preview carry, in 'including' mode,
    the contributions that the aggregate sums. *)
Lemma previewLine_004_is_contribution item :
  itemSubtotal (previewLine_004 including item) = contribution including item ∧
  itemTax (previewLine_004 including item)
  = Math_floor (mul (contribution including item) lit_0_1).
Proof. split; reflexivity. Qed.

Lemma previewLine_004_rows_sum_to_subtotal items :
  subtotal (useTotals items including)
  = fold_left add
      (List.map (fun item => itemSubtotal (previewLine_004 including item)) items)
      (of_Z 0).
Proof.
  rewrite useTotals_shape. simpl. f_equal.
Qed.

(** The fourth and a variant of the fifth example of the specification:
    2 x 1000 and 1 x 500 before tax; one unit at 1000, tax included. *)
Example totals_excluding_example :
  useTotals [item_of (2, 1000); item_of (1, 500)] excluding
  = {| subtotal := of_Z 2500; taxAmount := of_Z 250; total := of_Z 2750 |}.
Proof. vm_compute. reflexivity. Qed.

Example totals_including_1000 :
  useTotals [item_of (1, 1000)] including
  = {| subtotal := of_Z 909; taxAmount := of_Z 90; total := of_Z 999 |}.
Proof. vm_compute. reflexivity. Qed.

(** Prices whose tenfold is a multiple of 11, or close below one, lose a
    unit: the exact floors are 30, 50, 60, 90, 100 and 1000. *)
Example unit_price_floors :
  List.map (fun p => floor_Z (div (of_Z p) lit_1_1)) [33; 55; 66; 99; 110; 1100]
  = [Some 29; Some 49; Some 59; Some 89; Some 99; Some 999] ∧
  List.map spec_netPrice [33; 55; 66; 99; 110; 1100] = [30; 50; 60; 90; 100; 1000].
Proof. split; vm_compute; reflexivity. Qed.

(** C1 (the code departs from the claim).  A single item of quantity 1
    and tax-inclusive price 1100: the double nearest to 1.1 lies above
    11/10, the quotient 1100 / 1.1 rounds to the double just below 1000,
    and both copies of the aggregate computation return subtotal 999,
    tax 99 and total 1098, where floor(1100 / 1.1) * 1 = 1000, tax 100
    and total 1100 are claimed. *)
Theorem C1_totals_including_1100 :
  div (of_Z 1100) lit_1_1 = S754_finite false 8796093022207999 (-43) ∧
  floor_Z (div (of_Z 1100) lit_1_1) = Some 999 ∧
  useTotals [item_of (1, 1100)] including
  = {| subtotal := of_Z 999; taxAmount := of_Z 99; total := of_Z 1098 |} ∧
  calculateTotals [item_of (1, 1100)] including
  = {| subtotal := of_Z 999; taxAmount := of_Z 99; total := of_Z 1098 |} ∧
  read_totals (useTotals [item_of (1, 1100)] including) = Some (999, 99, 1098) ∧
  spec_computeTotals [(1, 1100)] including = (1000, 100, 1100).
Proof. repeat split; vm_compute; reflexivity. Qed.

(** C2 (the code departs from the claim).  Two units at the
    tax-inclusive price 16: the prop-based preview prints
    floor(2 * 16 / 1.1) = 29 and the remainder 3 in the row, the
    context-based preview prints floor(16 / 1.1) * 2 = 28 and
    floor(28 * 0.1) = 2, and the aggregate of both previews is 28. *)
Theorem C2_previewLine_003_including :
  previewLine_003 including (item_of (2, 16))
  = {| itemSubtotal := of_Z 29; itemTax := of_Z 3 |} ∧
  previewLine_004 including (item_of (2, 16))
  = {| itemSubtotal := of_Z 28; itemTax := of_Z 2 |} ∧
  subtotal (calculateTotals [item_of (2, 16)] including) = of_Z 28 ∧
  spec_netPrice 16 * 2 = 28.
Proof. repeat split; vm_compute; reflexivity. Qed.

End TotalsFacts.

(** ** The currency-words formatters *)

Module KoreanFacts.
Import Korean.

(** The digit tables differ at index 0 only, which no positive digit reads. *)
Lemma digits_006_003 d : 0 < d → at_index digits_006 d = at_index digits_003 d.
Proof.
  intros Hd. unfold at_index.
  destruct (d <? 0); [reflexivity|].
  destruct (Z.to_nat d) as [|n] eqn:E; [lia|].
  do 10 (destruct n as [|n]; [reflexivity|]).
  reflexivity.
Qed.

(** The unit table of part_006 stops at 조. *)
Lemma units_006_003 u : 0 <= u <= 3 → at_index units_006 u = at_index units_003 u.
Proof.
  intros Hu. unfold at_index.
  destruct (u <? 0); [reflexivity|].
  assert (Hn : (Z.to_nat u <= 3)%nat) by lia.
  destruct (Z.to_nat u) as [|[|[|[|n]]]]; try reflexivity; lia.
Qed.

Ltac split_digit_tests :=
  repeat match goal with
         | |- context [if ?b then _ else _] => destruct b eqn:?
         end.

(** The rendering of a group of four digits is the same in the three copies. *)
Lemma partStr_004_003 part : partStr_004 part = partStr_003 part.
Proof. unfold partStr_004, partStr_003. split_digit_tests; reflexivity. Qed.

Lemma partStr_006_003 part : partStr_006 part = partStr_003 part.
Proof.
  unfold partStr_006, partStr_003.
  destruct (0 <? part / 1000) eqn:Ht;
    destruct (0 <? part mod 1000 / 100) eqn:Hh;
    destruct (0 <? part mod 100 / 10) eqn:Hd;
    destruct (0 <? part mod 10) eqn:Ho;
    repeat match goal with
           | H : (0 <? ?d) = true |- _ =>
               apply Z.ltb_lt in H; rewrite (digits_006_003 d H)
           end;
    split_digit_tests; reflexivity.
Qed.

Lemma loop_004_003 num unitIndex result :
  loop_004 num unitIndex result = loop_003 num unitIndex result.
Proof.
  funelim (loop_003 num unitIndex result); simp loop_004; rewrite Heq; simpl.
  - rewrite partStr_004_003.
    match goal with IH : loop_004 _ _ _ = loop_003 _ _ _ |- _ => exact IH end.
  - reflexivity.
Qed.

(** While the counter stays below 10000^(4 - unitIndex) the loop of
    part_006 never reads past its unit table. *)
Lemma loop_006_003 num unitIndex result :
  0 <= unitIndex → num < 10000 ^ (4 - unitIndex) →
  loop_006 num unitIndex result = loop_003 num unitIndex result.
Proof.
  funelim (loop_003 num unitIndex result); intros Hu Hbound;
    simp loop_006; rewrite Heq; simpl; [|reflexivity].
  assert (Hu3 : unitIndex <= 3).
  { destruct (Z_le_gt_dec unitIndex 3) as [|Hgt]; [assumption|exfalso].
    destruct (Z.eq_dec unitIndex 4) as [->|Hne].
    - simpl in Hbound. lia.
    - rewrite Z.pow_neg_r in Hbound by lia. lia. }
  rewrite partStr_006_003, units_006_003 by lia.
  match goal with
  | IH : _ → _ → loop_006 _ _ _ = loop_003 _ _ _ |- _ => apply IH; [lia|]
  end.
  replace (4 - unitIndex) with (Z.succ (4 - (unitIndex + 1))) in Hbound by lia.
  rewrite Z.pow_succ_r in Hbound by lia.
  apply Z.div_lt_upper_bound; lia.
Qed.

Lemma formatKoreanCurrency_004_003 num :
  formatKoreanCurrency_004 num = numberToKorean_003 num.
Proof.
  unfold formatKoreanCurrency_004, numberToKorean_003.
  destruct (num =? 0); [reflexivity|]. simpl. now rewrite loop_004_003.
Qed.

Lemma numberToKorean_006_003 num :
  num < 10000 ^ 4 → numberToKorean_006 num = numberToKorean_003 num.
Proof.
  intros Hb. unfold numberToKorean_006, numberToKorean_003.
  destruct (num =? 0); [reflexivity|].
  rewrite loop_006_003; [reflexivity|lia|exact Hb].
Qed.

(** A group whose thousands digit is 1 starts with 천 in every copy. *)
Lemma thousands_elided part :
  part / 1000 = 1 →
  ∃ rest, partStr_003 part = "천" +:+ rest ∧
          partStr_004 part = "천" +:+ rest ∧
          partStr_006 part = "천" +:+ rest.
Proof.
  intros Ht. rewrite partStr_004_003, partStr_006_003.
  unfold partStr_003. cbv zeta. rewrite Ht.
  change (0 <? 1) with true. change (1 =? 1) with true. cbv iota.
  split_digit_tests; eexists; repeat split; simpl; reflexivity.
Qed.

Example numberToKorean_003_1000 : numberToKorean_003 1000 = "천원정".
Proof. reflexivity. Qed.

Example formatKoreanCurrency_004_1000 : formatKoreanCurrency_004 1000 = "천원정".
Proof. reflexivity. Qed.

Example numberToKorean_006_1000 : numberToKorean_006 1000 = "천원정".
Proof. reflexivity. Qed.

Example formatKoreanCurrency_004_10000 : formatKoreanCurrency_004 10000 = "일만원정".
Proof. reflexivity. Qed.

Example numberToKorean_003_12345678 :
  numberToKorean_003 12345678 = "천이백삼십사만오천육백칠십팔원정".
Proof. reflexivity. Qed.

(** Past the safe integers the copy of part_006 runs out of units. *)
Example numberToKorean_006_past_its_units :
  numberToKorean_006 (10 ^ 16) = "일undefined원정" ∧
  numberToKorean_003 (10 ^ 16) = "일경원정".
Proof. split; vm_compute; reflexivity. Qed.

(** C3, refuted as stated: no group of four digits is spelled
    differently by two of the three formatters, whatever the integer,
    and there is no integer from 0 to Number.MAX_SAFE_INTEGER on which
    two of them return different strings; so there is no input on which
    one elides 일 before 천 and another does not. *)
Lemma C3_no_input_separates_the_formatters :
  (¬ ∃ part, partStr_003 part ≠ partStr_004 part ∨
             partStr_003 part ≠ partStr_006 part ∨
             partStr_004 part ≠ partStr_006 part) ∧
  (¬ ∃ num, 0 <= num ∧ num <= JSNum.MAX_SAFE_INTEGER ∧
      (numberToKorean_003 num ≠ formatKoreanCurrency_004 num ∨
       numberToKorean_003 num ≠ numberToKorean_006 num ∨
       formatKoreanCurrency_004 num ≠ numberToKorean_006 num)).
Proof.
  split.
  - intros (part & Hne). rewrite partStr_004_003, partStr_006_003 in Hne.
    destruct Hne as [Hne|[Hne|Hne]]; apply Hne; reflexivity.
  - intros (num & H0 & Hmax & Hne).
    assert (Hb : num < 10000 ^ 4) by (unfold JSNum.MAX_SAFE_INTEGER in Hmax; lia).
    rewrite formatKoreanCurrency_004_003, (numberToKorean_006_003 num Hb) in Hne.
    destruct Hne as [Hne|[Hne|Hne]]; apply Hne; reflexivity.
Qed.

(** C3, as amended: the three copies elide 일 before 천 alike, and on
    every integer from 0 to Number.MAX_SAFE_INTEGER they return the same
    string. *)
Theorem C3_formatters_agree num :
  0 <= num → num <= JSNum.MAX_SAFE_INTEGER →
  formatKoreanCurrency_004 num = numberToKorean_003 num ∧
  numberToKorean_006 num = numberToKorean_003 num ∧
  (∀ part, part / 1000 = 1 →
     ∃ rest, partStr_003 part = "천" +:+ rest ∧
             partStr_004 part = "천" +:+ rest ∧
             partStr_006 part = "천" +:+ rest).
Proof.
  intros H0 Hmax. split; [apply formatKoreanCurrency_004_003|]. split.
  - apply numberToKorean_006_003. unfold JSNum.MAX_SAFE_INTEGER in Hmax. lia.
  - apply thousands_elided.
Qed.

(** The amended C3 at the amount 1234. *)
Lemma C3_formatters_agree_witness :
  0 <= 1234 ∧ 1234 <= JSNum.MAX_SAFE_INTEGER ∧
  formatKoreanCurrency_004 1234 = numberToKorean_003 1234 ∧
  numberToKorean_006 1234 = numberToKorean_003 1234.
Proof.
  assert (H0 : 0 <= 1234) by lia.
  assert (Hmax : 1234 <= JSNum.MAX_SAFE_INTEGER) by (vm_compute; discriminate).
  destruct (C3_formatters_agree 1234 H0 Hmax) as (H1 & H2 & _).
  repeat split; assumption.
Defined.

End KoreanFacts.

(** ** The estimate state store *)

Module StoreFacts.
Import EstimateData Store.

(** *** updateClient and the legacy mirrors *)

Lemma last_cons_default {A} (v : A) (l : list A) (d : A) :
  List.last (v :: l) d = List.last l v.
Proof.
  revert v d. induction l as [|x l IH]; intros v d; [reflexivity|].
  change (List.last (v :: x :: l) d) with (List.last (x :: l) d).
  rewrite (IH x d), (IH x v). reflexivity.
Qed.

Lemma most_recently_supplied_cons v supplied prior :
  most_recently_supplied (v :: supplied) prior
  = most_recently_supplied supplied (nullish v prior).
Proof.
  unfold most_recently_supplied. destruct v as [a|]; simpl.
  - apply last_cons_default.
  - reflexivity.
Qed.

Lemma updateClient_mirrors client st :
  clientName (estimate (updateClient client st))
  = nullish (read (Client.p_name client)) (clientName (estimate st)) ∧
  clientPhone (estimate (updateClient client st))
  = nullish (read (Client.p_phone client)) (clientPhone (estimate st)) ∧
  clientEmail (estimate (updateClient client st))
  = nullish (read (Client.p_email client)) (clientEmail (estimate st)).
Proof. repeat split. Qed.

(** C4.  After any run of [updateClient] calls from any document, each
    legacy mirror holds the most recently supplied value of its client
    property that was not undefined, and its prior value when no call
    supplied one; a call whose patch leaves a property out, or sets it
    to undefined, keeps the mirror. *)
Theorem C4_updateClient_mirrors_follow calls st :
  let st' := updateClient_calls calls st in
  clientName (estimate st')
  = most_recently_supplied (List.map (fun c => read (Client.p_name c)) calls)
      (clientName (estimate st)) ∧
  clientPhone (estimate st')
  = most_recently_supplied (List.map (fun c => read (Client.p_phone c)) calls)
      (clientPhone (estimate st)) ∧
  clientEmail (estimate st')
  = most_recently_supplied (List.map (fun c => read (Client.p_email c)) calls)
      (clientEmail (estimate st)) ∧
  (∀ client,
     (read (Client.p_name client) = None →
      clientName (estimate (updateClient client st')) = clientName (estimate st')) ∧
     (read (Client.p_phone client) = None →
      clientPhone (estimate (updateClient client st')) = clientPhone (estimate st')) ∧
     (read (Client.p_email client) = None →
      clientEmail (estimate (updateClient client st')) = clientEmail (estimate st'))).
Proof.
  revert st. induction calls as [|client calls IH]; intros st.
  - simpl. repeat split; simpl; intros ->; reflexivity.
  - specialize (IH (updateClient client st)).
    destruct IH as (Hn & Hp & He & Hkeep).
    destruct (updateClient_mirrors client st) as (Mn & Mp & Me).
    cbn [updateClient_calls fold_left List.map] in *.
    fold (updateClient_calls calls (updateClient client st)) in *.
    rewrite !most_recently_supplied_cons, <- Mn, <- Mp, <- Me.
    repeat split; try assumption; apply Hkeep.
Qed.

Example updateClient_three_calls :
  let e0 := fst (Sequence.createInitialEstimate "2024-05-01"
                   (Sequence.mkWorld true Sequence.Missing true "2024-05-01")) in
  let st := updateClient_calls
              [Client.mkPartial (Value "Kim") Absent (Value "a@b.c") Absent;
               Client.mkPartial Undefined (Value "010") Absent Absent;
               Client.mkPartial Absent Absent (Value "x@y.z") (Value "Seoul")]
              (mkState e0 None) in
  clientName (estimate st) = "Kim" ∧
  clientPhone (estimate st) = "010" ∧
  clientEmail (estimate st) = "x@y.z" ∧
  Client.name (client (estimate st)) = None.
Proof. repeat split. Qed.

(** *** updateField('estimateDate', d) and the sequence store *)

(** Up to 2^53 an integer is a double. *)
Lemma int_add_safe a b : Z.abs (a + b) <= 2 ^ 53 → JSNum.int_add a b = a + b.
Proof.
  intros H. unfold JSNum.int_add, JSNum.round_int.
  destruct (Z.abs (a + b) <=? 2 ^ 53) eqn:E; [reflexivity|].
  apply Z.leb_gt in E. lia.
Qed.

Section SequenceStore.
Variable w : Sequence.World.
Hypothesis in_browser : Sequence.hasWindow w = true.
Hypothesis persists : Sequence.setItem_ok w = true.

Lemma generateEstimateNumber_effect date :
  let dateKey := JSString.remove_hyphens date in
  let nextCount :=
    JSNum.int_add (Sequence.count_or_0 (Sequence.store_read w) dateKey) 1 in
  let w' := snd (Sequence.generateEstimateNumber date w) in
  fst (Sequence.generateEstimateNumber date w)
  = (dateKey +:+ "-") +:+ JSString.padStart_0 3 (JSString.String_int nextCount) ∧
  Sequence.store_read w' = <[dateKey := nextCount]> (Sequence.store_read w) ∧
  Sequence.hasWindow w' = true ∧
  Sequence.setItem_ok w' = true.
Proof.
  unfold Sequence.generateEstimateNumber, Sequence.store_write. simpl.
  rewrite in_browser, persists. simpl.
  repeat split; try assumption.
Qed.

End SequenceStore.

Lemma count_or_0_lookup (sequences : gmap string Z) key n :
  sequences !! key = Some n → Sequence.count_or_0 sequences key = n.
Proof.
  intros H. unfold Sequence.count_or_0. rewrite H.
  destruct (n =? 0) eqn:E; [apply Z.eqb_eq in E; lia|reflexivity].
Qed.

Lemma count_or_0_insert_ne (sequences : gmap string Z) key k n :
  k ≠ key →
  Sequence.count_or_0 (<[k := n]> sequences) key = Sequence.count_or_0 sequences key.
Proof.
  intros H. unfold Sequence.count_or_0. rewrite lookup_insert_ne by exact H.
  reflexivity.
Qed.

Lemma updateField_estimateDate d st w :
  updateField (f_estimateDate d) st w
  = (mkState (with_estimateNumber (fst (Sequence.generateEstimateNumber d w))
                (assign (f_estimateDate d) (estimate st)))
       (currentEstimateId st),
     snd (Sequence.generateEstimateNumber d w)).
Proof.
  unfold updateField, updateField_updater.
  destruct (Sequence.generateEstimateNumber d w); reflexivity.
Qed.

(** Calls for other dates leave the count of a date key alone. *)
Lemma updateField_dates_other_keys key dates :
  Forall (fun d => JSString.remove_hyphens d ≠ key) dates →
  ∀ st w,
    Sequence.hasWindow w = true → Sequence.setItem_ok w = true →
    let w' := snd (updateField_dates dates st w) in
    Sequence.store_read w' !! key = Sequence.store_read w !! key ∧
    Sequence.hasWindow w' = true ∧ Sequence.setItem_ok w' = true.
Proof.
  induction 1 as [|d dates Hd _ IH]; intros st w Hw Hs.
  - simpl. auto.
  - destruct (generateEstimateNumber_effect w Hw Hs d) as (_ & Hread & Hw1 & Hs1).
    unfold updateField_dates in *. cbn [fold_left].
    rewrite updateField_estimateDate.
    match goal with
    | |- context [fold_left _ dates (?st1, ?w1)] =>
        destruct (IH st1 w1 Hw1 Hs1) as (IHr & IHw & IHs)
    end.
    repeat split; try assumption.
    rewrite IHr, Hread. apply lookup_insert_ne. exact Hd.
Qed.

(** On the browsers of [Sequence], where [localStorage] accepts the
    write: for a stored count [c] of the date key that is a non-negative
    safe integer, [updateField('estimateDate', d)] sets the date, sets
    the estimate number to the date key, a hyphen and [c + 1] padded
    with zeros to three digits, stores [c + 1] under the date key and
    touches no other key; and the next call for the same date key,
    after any calls for other dates, issues [c + 2]. *)
Lemma updateField_estimateDate_counts d st w :
  JSString.date_string d = true →
  Sequence.hasWindow w = true →
  Sequence.setItem_ok w = true →
  let dateKey := JSString.remove_hyphens d in
  let c := Sequence.count_or_0 (Sequence.store_read w) dateKey in
  0 <= c → c < JSNum.MAX_SAFE_INTEGER →
  let st1 := fst (updateField (f_estimateDate d) st w) in
  let w1 := snd (updateField (f_estimateDate d) st w) in
  estimateNumber (estimate st1)
  = (dateKey +:+ "-") +:+ JSString.padStart_0 3 (JSString.String_int (c + 1)) ∧
  estimateDate (estimate st1) = d ∧
  Sequence.store_read w1 !! dateKey = Some (c + 1) ∧
  (∀ k, k ≠ dateKey → Sequence.store_read w1 !! k = Sequence.store_read w !! k) ∧
  (∀ others d',
     Forall (fun o => JSString.date_string o = true) others →
     Forall (fun o => JSString.remove_hyphens o ≠ dateKey) others →
     JSString.date_string d' = true →
     JSString.remove_hyphens d' = dateKey →
     let st2 := fst (updateField_dates (others ++ [d']) st1 w1) in
     let w2 := snd (updateField_dates (others ++ [d']) st1 w1) in
     estimateNumber (estimate st2)
     = (dateKey +:+ "-") +:+ JSString.padStart_0 3 (JSString.String_int (c + 2)) ∧
     Sequence.store_read w2 !! dateKey = Some (c + 2) ∧
     c + 1 < c + 2).
Proof.
  intros _ Hw Hs dateKey c Hc0 Hcmax st1 w1.
  assert (Hmax : JSNum.MAX_SAFE_INTEGER = 2 ^ 53 - 1) by reflexivity.
  destruct (generateEstimateNumber_effect w Hw Hs d) as (Hnum & Hread & Hw1 & Hs1).
  fold dateKey in Hnum, Hread. fold c in Hnum, Hread.
  rewrite int_add_safe in Hnum, Hread by lia.
  pose proof (updateField_estimateDate d st w) as Est.
  assert (Ew1 : w1 = snd (Sequence.generateEstimateNumber d w))
    by (unfold w1; rewrite Est; reflexivity).
  assert (Hk : Sequence.store_read w1 !! dateKey = Some (c + 1))
    by (rewrite Ew1, Hread; apply lookup_insert_eq).
  split; [unfold st1; rewrite Est; exact Hnum|].
  split; [unfold st1; rewrite Est; reflexivity|].
  split; [exact Hk|].
  split; [intros k Hne; rewrite Ew1, Hread; apply lookup_insert_ne; congruence|].
  intros others d' _ Hothers _ Hd' st2 w2.
  rewrite <- Ew1 in Hw1, Hs1.
  destruct (updateField_dates_other_keys dateKey others Hothers st1 w1 Hw1 Hs1)
    as (Hr & Hw' & Hs').
  set (sm := updateField_dates others st1 w1) in *.
  assert (E2 : updateField_dates (others ++ [d']) st1 w1
               = updateField (f_estimateDate d') (fst sm) (snd sm)).
  { unfold updateField_dates, sm. rewrite fold_left_app. simpl.
    unfold updateField_dates.
    destruct (fold_left _ others (st1, w1)); reflexivity. }
  destruct (generateEstimateNumber_effect (snd sm) Hw' Hs' d') as (Hnum2 & Hread2 & _).
  rewrite Hd' in Hnum2, Hread2.
  rewrite (count_or_0_lookup _ _ (c + 1)) in Hnum2, Hread2 by (rewrite Hr; exact Hk).
  rewrite int_add_safe in Hnum2, Hread2 by lia.
  replace (c + 1 + 1) with (c + 2) in Hnum2, Hread2 by lia.
  pose proof (updateField_estimateDate d' (fst sm) (snd sm)) as Est2.
  unfold st2, w2. rewrite E2, Est2. cbn [fst snd estimate].
  split; [exact Hnum2|]. split; [|lia].
  rewrite Hread2. apply lookup_insert_eq.
Qed.

(** *** The item list operations *)

Lemma filter_from_out_of_range {A} (index i : Z) (l : list A) :
  index < i ∨ i + Z.of_nat (length l) <= index →
  JSArray.filter_from i (fun _ j => negb (j =? index)) l = l.
Proof.
  revert i. induction l as [|x l IH]; intros i Hout; [reflexivity|].
  cbn [JSArray.filter_from]. cbn [length] in Hout.
  destruct (i =? index) eqn:E.
  - apply Z.eqb_eq in E. lia.
  - cbn [negb]. f_equal. apply IH. lia.
Qed.

Lemma map_from_out_of_range {A} (f : A → A) (index i : Z) (l : list A) :
  index < i ∨ i + Z.of_nat (length l) <= index →
  JSArray.map_from i (fun existing j => if j =? index then f existing else existing) l = l.
Proof.
  revert i. induction l as [|x l IH]; intros i Hout; [reflexivity|].
  cbn [JSArray.map_from]. cbn [length] in Hout.
  destruct (i =? index) eqn:E.
  - apply Z.eqb_eq in E. lia.
  - f_equal. apply IH. lia.
Qed.

Lemma with_items_same prev : with_items (items prev) prev = prev.
Proof. destruct prev; reflexivity. Qed.

Lemma length_filter_from {A} (keep : A → Z → bool) i (l : list A) :
  (length (JSArray.filter_from i keep l) <= length l)%nat.
Proof.
  revert i. induction l as [|x l IH]; intros i; cbn [JSArray.filter_from length].
  - lia.
  - destruct (keep x i); cbn [length]; specialize (IH (i + 1)); lia.
Qed.

Lemma length_map_from {A B} (f : A → Z → B) i (l : list A) :
  length (JSArray.map_from i f l) = length l.
Proof.
  revert i. induction l as [|x l IH]; intros i; cbn [JSArray.map_from length];
    [reflexivity | now rewrite IH].
Qed.

(** [splice] takes out at most [deleteCount] elements and puts the new
    ones in, whatever the integers. *)
Lemma length_splice {A} start deleteCount (ins l : list A) :
  let '(taken, rest) := JSArray.splice start deleteCount ins l in
  (length taken <= Z.to_nat deleteCount)%nat ∧
  (length rest + length taken = length l + length ins)%nat.
Proof.
  unfold JSArray.splice. cbv zeta.
  set (len := Z.of_nat (length l)).
  set (actualStart := if start <? 0 then Z.max (len + start) 0 else Z.min start len).
  assert (Hs : 0 <= actualStart <= len)
    by (unfold actualStart, len; destruct (Z.ltb_spec start 0); lia).
  clearbody actualStart.
  set (actualDeleteCount := Z.min (Z.max deleteCount 0) (len - actualStart)).
  assert (Hd : 0 <= actualDeleteCount <= len - actualStart ∧
               actualDeleteCount <= Z.max deleteCount 0)
    by (unfold actualDeleteCount; lia).
  clearbody actualDeleteCount.
  rewrite !length_app, !length_take, !length_drop.
  unfold len in *. split; lia.
Qed.

(** The item list after each operation, for any integers: no element is
    added by [removeItem], the length is kept by [updateItem], and
    [moveItem] keeps the length or, when nothing was taken out, puts one
    undefined element in. *)
Lemma item_operations_total index item from to st :
  (length (items (estimate (removeItem index st))) <= length (items (estimate st)))%nat ∧
  length (items (estimate (updateItem index item st))) = length (items (estimate st)) ∧
  (length (items (estimate (moveItem from to st))) = length (items (estimate st)) ∨
   length (items (estimate (moveItem from to st))) = S (length (items (estimate st)))).
Proof.
  split; [apply length_filter_from|]. split; [apply length_map_from|].
  unfold moveItem. destruct (from =? to); [left; reflexivity|].
  pose proof (length_splice from 1 [] (items (estimate st))) as H1.
  destruct (JSArray.splice from 1 [] (items (estimate st))) as [taken rest1].
  pose proof (length_splice to 0 [match taken with x :: _ => x | [] => None end] rest1) as H2.
  destruct (JSArray.splice to 0 _ rest1) as [taken2 rest2].
  cbn [estimate items with_items length] in *.
  lia.
Qed.

(** C9.  An index below 0 or not below the length of the item list
    makes [removeItem] and [updateItem] return the state as it was, and
    so does [moveItem] with equal arguments; and for any integers the
    three operations return a state (they are total functions, as the
    array methods they call are) whose item list has at most the
    elements it had, the same number, and the same number or one more. *)
Theorem C9_item_operations_out_of_range index item from st :
  index < 0 ∨ Z.of_nat (length (items (estimate st))) <= index →
  removeItem index st = st ∧
  updateItem index item st = st ∧
  moveItem from from st = st ∧
  (∀ i patch a b,
     (length (items (estimate (removeItem i st))) <= length (items (estimate st)))%nat ∧
     length (items (estimate (updateItem i patch st))) = length (items (estimate st)) ∧
     (length (items (estimate (moveItem a b st))) = length (items (estimate st)) ∨
      length (items (estimate (moveItem a b st))) = S (length (items (estimate st))))).
Proof.
  intros Hout. split; [|split; [|split]].
  - unfold removeItem, JSArray.filter.
    rewrite filter_from_out_of_range by lia.
    rewrite with_items_same. destruct st; reflexivity.
  - unfold updateItem, JSArray.map.
    rewrite (map_from_out_of_range
               (fun existing => Some (Item.merge (default Item.empty existing) item)))
      by lia.
    rewrite with_items_same. destruct st; reflexivity.
  - unfold moveItem. rewrite Z.eqb_refl. reflexivity.
  - intros i patch a b. apply item_operations_total.
Qed.

(** C9 at the index 5 of a list of one item. *)
Lemma C9_item_operations_out_of_range_witness :
  let w := Sequence.mkWorld true Sequence.Missing true "2024-05-01" in
  let st := appendItems [Item.make "A" 2 1000 "EA" ""]
              (mkState (fst (Sequence.createInitialEstimate "2024-05-01" w)) None) in
  (5 < 0 ∨ Z.of_nat (length (items (estimate st))) <= 5) ∧
  removeItem 5 st = st ∧
  updateItem 5 (Item.mkPartial (Value "B") Absent Absent Absent Absent) st = st ∧
  moveItem 0 0 st = st.
Proof.
  intros w st.
  assert (Hout : 5 < 0 ∨ Z.of_nat (length (items (estimate st))) <= 5)
    by (right; vm_compute; discriminate).
  split; [exact Hout|].
  destruct (C9_item_operations_out_of_range 5
              (Item.mkPartial (Value "B") Absent Absent Absent Absent) 0 st Hout)
    as (Hr & Hu & Hm & _).
  repeat split; assumption.
Defined.

(** What [moveItem] does when [from] is out of range and differs from
    [to]: nothing is taken out and an undefined element is put in. *)
Example moveItem_out_of_range_from :
  let w := Sequence.mkWorld true Sequence.Missing true "2024-05-01" in
  let a := Item.make "A" 2 1000 "EA" "" in
  let st := appendItems [a]
              (mkState (fst (Sequence.createInitialEstimate "2024-05-01" w)) None) in
  items (estimate (moveItem 5 0 st)) = [None; Some a] ∧
  items (estimate (moveItem (-1) 0 st)) = [Some a].
Proof. split; reflexivity. Qed.

(** *** resetEstimate and hasDirtyState *)

Lemma createInitialEstimate_not_meaningful date w :
  Sequence.hasMeaningfulEstimateData (fst (Sequence.createInitialEstimate date w)) = false.
Proof.
  unfold Sequence.createInitialEstimate.
  destruct (Sequence.generateEstimateNumber date w) as [number w'].
  unfold Sequence.hasMeaningfulEstimateData. cbn [fst items client
    constructionStartDate constructionEndDate constructionDate businessFields
    footerNotes length].
  rewrite !String.eqb_refl. reflexivity.
Qed.

(** C10.  The state that [resetEstimate] sets is not dirty: it is bound
    to no record, its item list is empty, its client properties and
    construction dates are empty strings, and its business fields and
    footer notes are those of the default supplier. *)
Theorem C10_reset_is_not_dirty st w :
  let st' := fst (resetEstimate st w) in
  hasDirtyState st' = false ∧
  currentEstimateId st' = None ∧
  items (estimate st') = [] ∧
  client (estimate st') = Sequence.EMPTY_CLIENT ∧
  constructionStartDate (estimate st') = "" ∧
  constructionEndDate (estimate st') = "" ∧
  constructionDate (estimate st') = "" ∧
  businessFields (estimate st') = Supplier.businessFields Sequence.DEFAULT_SUPPLIER ∧
  footerNotes (estimate st') = Supplier.footerNotes Sequence.DEFAULT_SUPPLIER.
Proof.
  pose proof (createInitialEstimate_not_meaningful (Sequence.today w) w) as H.
  unfold resetEstimate, hasDirtyState.
  unfold Sequence.createInitialEstimate in *.
  destruct (Sequence.generateEstimateNumber (Sequence.today w) w) as [number w'].
  cbn [fst estimate currentEstimateId] in *.
  split; [exact H | repeat split].
Qed.

End StoreFacts.

(** ** The sequence store over everything that localStorage can hold *)

Module StorageFacts.
Import EstimateData Store.

Lemma count_or_0_default (sequences : gmap string Z) key :
  Sequence.count_or_0 sequences key = default 0 (sequences !! key).
Proof.
  unfold Sequence.count_or_0. destruct (sequences !! key) as [n|]; [|reflexivity].
  cbn. destruct (Z.eqb_spec n 0) as [->|_]; reflexivity.
Qed.

Lemma store_read_of_world w :
  Storage.store_read (Storage.of_world w) = Storage.record (Sequence.store_read w).
Proof.
  destruct w as [window item ok day].
  unfold Storage.store_read, Sequence.store_read, Storage.of_world.
  destruct window, item; reflexivity.
Qed.

Lemma store_write_of_world value w :
  Storage.store_write value (Storage.of_world w)
  = Storage.of_world (Sequence.store_write value w).
Proof.
  destruct w as [window item ok day].
  unfold Storage.store_write, Sequence.store_write, Storage.of_world.
  destruct window, ok; reflexivity.
Qed.

Lemma stored_count_of_world w key :
  Sequence.hasWindow w = true →
  Storage.stored_count (Storage.of_world w) key
  = Sequence.count_or_0 (Sequence.store_read w) key.
Proof.
  intros Hw. rewrite count_or_0_default.
  destruct w as [window item ok day]. cbn in Hw. subst window.
  unfold Storage.stored_count, Sequence.store_read, Storage.of_world.
  destruct item; reflexivity.
Qed.

(** On a date string and a count among the safe integers, the function
    of [Sequence] is the function over all browsers, taken at a browser
    of [Sequence]. *)
Lemma generateEstimateNumber_of_world date w :
  JSString.date_string date = true →
  Z.abs (Sequence.count_or_0 (Sequence.store_read w) (JSString.remove_hyphens date))
  <= JSNum.MAX_SAFE_INTEGER →
  Storage.generateEstimateNumber date (Storage.of_world w)
  = Storage.Returned (fst (Sequence.generateEstimateNumber date w),
                      Storage.of_world (snd (Sequence.generateEstimateNumber date w))).
Proof.
  intros Hdate Hcount. unfold Storage.generateEstimateNumber.
  rewrite store_read_of_world, Hdate. cbn [negb].
  replace (Z.abs _ <=? JSNum.MAX_SAFE_INTEGER) with true
    by (symmetry; apply Z.leb_le; exact Hcount).
  cbn [negb]. rewrite store_write_of_world. reflexivity.
Qed.

Lemma updateField_of_world d st w :
  JSString.date_string d = true →
  Z.abs (Sequence.count_or_0 (Sequence.store_read w) (JSString.remove_hyphens d))
  <= JSNum.MAX_SAFE_INTEGER →
  Storage.updateField (f_estimateDate d) st (Storage.of_world w)
  = Storage.Returned (fst (updateField (f_estimateDate d) st w),
                      Storage.of_world (snd (updateField (f_estimateDate d) st w))).
Proof.
  intros Hdate Hcount. unfold Storage.updateField.
  rewrite (generateEstimateNumber_of_world d w Hdate Hcount).
  rewrite StoreFacts.updateField_estimateDate. reflexivity.
Qed.

(** The counts after one call, on a browser that stores. *)
Lemma count_after_updateField d st w key :
  Sequence.hasWindow w = true → Sequence.setItem_ok w = true →
  let c := Sequence.count_or_0 (Sequence.store_read w) (JSString.remove_hyphens d) in
  0 <= c → c < JSNum.MAX_SAFE_INTEGER →
  let w1 := snd (updateField (f_estimateDate d) st w) in
  Sequence.hasWindow w1 = true ∧ Sequence.setItem_ok w1 = true ∧
  Sequence.count_or_0 (Sequence.store_read w1) key
  = if decide (key = JSString.remove_hyphens d)
    then c + 1
    else Sequence.count_or_0 (Sequence.store_read w) key.
Proof.
  intros Hw Hs c Hc0 Hcmax w1.
  assert (Hmax : JSNum.MAX_SAFE_INTEGER = 2 ^ 53 - 1) by reflexivity.
  destruct (StoreFacts.generateEstimateNumber_effect w Hw Hs d) as (_ & Hread & Hw1 & Hs1).
  fold c in Hread. rewrite StoreFacts.int_add_safe in Hread by lia.
  unfold w1. rewrite StoreFacts.updateField_estimateDate. cbn [snd].
  split; [exact Hw1|]. split; [exact Hs1|].
  rewrite Hread. destruct (decide (key = JSString.remove_hyphens d)) as [->|Hne].
  - apply StoreFacts.count_or_0_lookup. apply lookup_insert_eq.
  - apply StoreFacts.count_or_0_insert_ne. congruence.
Qed.

(** A run of calls for dates whose counts stay among the safe integers
    returns, and is the run of [Sequence]. *)
Lemma updateField_dates_of_world dates :
  ∀ st w,
    Sequence.hasWindow w = true → Sequence.setItem_ok w = true →
    Forall (fun d => JSString.date_string d = true) dates →
    Forall (fun d =>
              let c := Sequence.count_or_0 (Sequence.store_read w)
                         (JSString.remove_hyphens d) in
              0 <= c ∧ c + Z.of_nat (length dates) <= JSNum.MAX_SAFE_INTEGER) dates →
    Storage.updateField_dates dates st (Storage.of_world w)
    = Storage.Returned (fst (updateField_dates dates st w),
                        Storage.of_world (snd (updateField_dates dates st w))).
Proof.
  induction dates as [|d dates IH]; intros st w Hw Hs Hdates Hcounts.
  - reflexivity.
  - apply Forall_cons in Hdates as [Hd Hdates].
    apply Forall_cons in Hcounts as [[Hc0 Hcmax] Hcounts].
    cbn [length] in Hcmax. cbv zeta in Hc0, Hcmax.
    unfold Storage.updateField_dates, updateField_dates. cbn [fold_left Storage.bind].
    rewrite (updateField_of_world d st w Hd) by lia.
    destruct (count_after_updateField d st w (JSString.remove_hyphens d) Hw Hs
                ltac:(exact Hc0) ltac:(lia)) as (Hw1 & Hs1 & _).
    destruct (updateField (f_estimateDate d) st w) as [st1 w1] eqn:E.
    cbn [fst snd] in *.
    apply (IH st1 w1 Hw1 Hs1 Hdates).
    eapply Forall_impl; [exact Hcounts|].
    intros o [Ho0 Homax]. cbv zeta in *. cbn [length] in Homax.
    destruct (count_after_updateField d st w (JSString.remove_hyphens o) Hw Hs
                ltac:(exact Hc0) ltac:(lia)) as (_ & _ & Hcount).
    rewrite E in Hcount. cbn [snd] in Hcount. rewrite Hcount.
    destruct (decide _) as [Heq|_]; lia.
Qed.

(** C5, refuted as stated: the estimate number does not always follow
    a strictly increasing count.  In a browser whose [localStorage]
    refuses the write (the quota is exhausted; the exception is caught
    and logged) two calls of [updateField('estimateDate', '2024-05-01')]
    after seven numbers of that day both yield 20240501-008 and the
    stored count stays 7; and in a browser whose stored text is [null]
    the call throws and yields no document. *)
Lemma C5_number_repeats_when_the_write_fails :
  let full := Storage.mkWorld true
                (Storage.Counts (Sequence.Parsed {[ "20240501" := 7 ]})) false "2024-05-01" in
  let st := mkState Server.sample_estimate None in
  (∃ st1 st2,
     Storage.updateField (f_estimateDate "2024-05-01") st full = Storage.Returned (st1, full) ∧
     Storage.updateField (f_estimateDate "2024-05-01") st1 full = Storage.Returned (st2, full) ∧
     estimateNumber (estimate st1) = "20240501-008" ∧
     estimateNumber (estimate st2) = "20240501-008" ∧
     Storage.stored_count full "20240501" = 7) ∧
  Storage.updateField (f_estimateDate "2024-05-01") st
    (Storage.mkWorld true Storage.Null true "2024-05-01")
  = Storage.Thrown.
Proof.
  cbv zeta. split; [|reflexivity].
  eexists _, _. split; [reflexivity|]. split; [reflexivity|].
  split; [reflexivity|]. split; reflexivity.
Qed.

(** C5, as amended.  In a browser whose [localStorage] accepts the
    write and whose stored item is absent, unparsable or an object of
    integer counts, for a date string [d] whose running count [c] (the
    integer stored under its date key, 0 when there is none) is
    non-negative and below the largest safe integer:
    [updateField('estimateDate', d)] returns, sets the date, sets the
    estimate number to the date key of [d] (its hyphens removed), a
    hyphen and [c + 1] padded with zeros to three digits, stores
    [c + 1] under the date key and leaves the count of every other key
    as it was; and the next call for the same date key, after any calls
    for other dates (date strings whose counts are non-negative and
    stay below the largest safe integer during the run), issues
    [c + 2]. *)
Theorem C5_updateField_estimateDate d st w :
  JSString.date_string d = true →
  Storage.hasWindow w = true →
  Storage.setItem_ok w = true →
  (∃ item, Storage.estimateNumbers w = Storage.Counts item) →
  let dateKey := JSString.remove_hyphens d in
  let c := Storage.stored_count w dateKey in
  0 <= c → c < JSNum.MAX_SAFE_INTEGER →
  ∃ st1 w1,
    Storage.updateField (f_estimateDate d) st w = Storage.Returned (st1, w1) ∧
    estimateNumber (estimate st1)
    = (dateKey +:+ "-") +:+ JSString.padStart_0 3 (JSString.String_int (c + 1)) ∧
    estimateDate (estimate st1) = d ∧
    Storage.stored_count w1 dateKey = c + 1 ∧
    (∀ k, k ≠ dateKey → Storage.stored_count w1 k = Storage.stored_count w k) ∧
    (∀ others d',
       Forall (fun o => JSString.date_string o = true) others →
       Forall (fun o => JSString.remove_hyphens o ≠ dateKey) others →
       Forall (fun o =>
                 let c' := Storage.stored_count w (JSString.remove_hyphens o) in
                 0 <= c' ∧ c' + Z.of_nat (length others) < JSNum.MAX_SAFE_INTEGER)
              others →
       JSString.date_string d' = true →
       JSString.remove_hyphens d' = dateKey →
       ∃ st2 w2,
         Storage.updateField_dates (others ++ [d']) st1 w1 = Storage.Returned (st2, w2) ∧
         estimateNumber (estimate st2)
         = (dateKey +:+ "-") +:+ JSString.padStart_0 3 (JSString.String_int (c + 2)) ∧
         Storage.stored_count w2 dateKey = c + 2 ∧
         c + 1 < c + 2).
Proof.
  intros Hd Hw Hs [item Hitem] dateKey c Hc0 Hcmax.
  assert (Hmax : JSNum.MAX_SAFE_INTEGER = 2 ^ 53 - 1) by reflexivity.
  set (w0 := Sequence.mkWorld (Storage.hasWindow w) item (Storage.setItem_ok w)
               (Storage.today w)).
  assert (Ew : w = Storage.of_world w0).
  { destruct w as [window stored ok day]. cbn in Hitem. subst stored. reflexivity. }
  assert (Hw0 : Sequence.hasWindow w0 = true) by exact Hw.
  assert (Hs0 : Sequence.setItem_ok w0 = true) by exact Hs.
  assert (Hcount : ∀ k, Storage.stored_count w k
                        = Sequence.count_or_0 (Sequence.store_read w0) k).
  { intros k. rewrite Ew. apply stored_count_of_world, Hw0. }
  assert (Hc : Sequence.count_or_0 (Sequence.store_read w0) dateKey = c)
    by (symmetry; apply Hcount).
  destruct (StoreFacts.updateField_estimateDate_counts d st w0 Hd Hw0 Hs0
              ltac:(cbv zeta; fold dateKey; rewrite Hc; exact Hc0)
              ltac:(cbv zeta; fold dateKey; rewrite Hc; exact Hcmax))
    as (Hnum & Hdate & Hstored & Hframe & Hnext).
  fold dateKey in Hnum, Hstored, Hframe, Hnext. rewrite Hc in Hnum, Hstored, Hnext.
  destruct (count_after_updateField d st w0 dateKey Hw0 Hs0
              ltac:(cbv zeta; fold dateKey; rewrite Hc; exact Hc0)
              ltac:(cbv zeta; fold dateKey; rewrite Hc; exact Hcmax))
    as (Hw1 & Hs1 & _).
  set (r := updateField (f_estimateDate d) st w0) in *.
  exists (fst r), (Storage.of_world (snd r)).
  split.
  { rewrite Ew. unfold r. apply updateField_of_world; [exact Hd|].
    fold dateKey. rewrite Hc. lia. }
  split; [exact Hnum|]. split; [exact Hdate|].
  assert (Hcount1 : ∀ k, Storage.stored_count (Storage.of_world (snd r)) k
                         = Sequence.count_or_0 (Sequence.store_read (snd r)) k)
    by (intros k; apply stored_count_of_world, Hw1).
  split.
  { rewrite Hcount1. apply StoreFacts.count_or_0_lookup, Hstored. }
  split.
  { intros k Hk. rewrite Hcount1, Hcount. unfold Sequence.count_or_0.
    rewrite (Hframe k Hk). reflexivity. }
  intros others d' Hothers Hkeys Hcounts Hd' Hkey'.
  destruct (Hnext others d' Hothers Hkeys Hd' Hkey') as (Hnum2 & Hstored2 & Hlt).
  destruct (StoreFacts.updateField_dates_other_keys dateKey others Hkeys (fst r) (snd r)
              Hw1 Hs1) as (Hsame & Hw' & Hs').
  set (sm := updateField_dates others (fst r) (snd r)) in *.
  assert (Hrun : Storage.updateField_dates others (fst r) (Storage.of_world (snd r))
                 = Storage.Returned (fst sm, Storage.of_world (snd sm))).
  { unfold sm. apply updateField_dates_of_world; [exact Hw1|exact Hs1|exact Hothers|].
    rewrite Forall_forall in Hcounts, Hkeys. apply Forall_forall.
    intros o Ho. specialize (Hcounts o Ho). specialize (Hkeys o Ho). cbv zeta in *.
    replace (Sequence.count_or_0 (Sequence.store_read (snd r)) (JSString.remove_hyphens o))
      with (Storage.stored_count w (JSString.remove_hyphens o)); [lia|].
    rewrite Hcount. unfold Sequence.count_or_0. rewrite (Hframe _ Hkeys). reflexivity. }
  assert (Hlast : Sequence.count_or_0 (Sequence.store_read (snd sm))
                    (JSString.remove_hyphens d') = c + 1).
  { rewrite Hkey'. apply StoreFacts.count_or_0_lookup. rewrite Hsame. exact Hstored. }
  assert (E2 : updateField_dates (others ++ [d']) (fst r) (snd r)
               = updateField (f_estimateDate d') (fst sm) (snd sm)).
  { unfold updateField_dates, sm. rewrite fold_left_app. cbn [fold_left].
    unfold updateField_dates.
    destruct (fold_left _ others (fst r, snd r)); reflexivity. }
  exists (fst (updateField (f_estimateDate d') (fst sm) (snd sm))),
    (Storage.of_world (snd (updateField (f_estimateDate d') (fst sm) (snd sm)))).
  rewrite E2 in Hnum2, Hstored2.
  split.
  { unfold Storage.updateField_dates. rewrite fold_left_app. cbn [fold_left].
    fold (Storage.updateField_dates others (fst r) (Storage.of_world (snd r))).
    rewrite Hrun. cbn [Storage.bind].
    apply updateField_of_world; [exact Hd'|]. rewrite Hlast. lia. }
  split; [exact Hnum2|]. split; [|exact Hlt].
  rewrite stored_count_of_world.
  - apply StoreFacts.count_or_0_lookup, Hstored2.
  - rewrite StoreFacts.updateField_estimateDate. cbn [snd].
    apply (StoreFacts.generateEstimateNumber_effect (snd sm) Hw' Hs' d').
Qed.

(** C5 at the date 2024-05-01 with seven numbers issued that day. *)
Lemma C5_updateField_estimateDate_witness :
  let w := Storage.mkWorld true (Storage.Counts (Sequence.Parsed {[ "20240501" := 7 ]}))
             true "2024-05-01" in
  let st := mkState Server.sample_estimate None in
  ∃ st1 w1,
    Storage.updateField (f_estimateDate "2024-05-01") st w = Storage.Returned (st1, w1) ∧
    estimateNumber (estimate st1) = "20240501-008" ∧
    Storage.stored_count w1 "20240501" = 8.
Proof.
  cbv zeta.
  set (w := Storage.mkWorld true (Storage.Counts (Sequence.Parsed {[ "20240501" := 7 ]}))
              true "2024-05-01").
  assert (Hitem : ∃ item, Storage.estimateNumbers w = Storage.Counts item)
    by (eexists; reflexivity).
  assert (H0 : 0 <= Storage.stored_count w (JSString.remove_hyphens "2024-05-01"))
    by (vm_compute; discriminate).
  assert (H1 : Storage.stored_count w (JSString.remove_hyphens "2024-05-01")
               < JSNum.MAX_SAFE_INTEGER)
    by (vm_compute; reflexivity).
  destruct (C5_updateField_estimateDate "2024-05-01"
              (mkState Server.sample_estimate None) w eq_refl eq_refl eq_refl Hitem H0 H1)
    as (st1 & w1 & Hreturned & Hnum & _ & Hstored & _).
  exists st1, w1. split; [exact Hreturned|]. split; [exact Hnum|exact Hstored].
Defined.

End StorageFacts.

(** ** The record service *)

Module ServerFacts.
Import Server.

(** *** Arrays *)

Lemma filter_none_rejected {A} (keep : A → bool) (l : list A) :
  Forall (fun x => keep x = true) l → List.filter keep l = l.
Proof.
  induction 1 as [|x l Hx _ IH]; simpl; [reflexivity|].
  rewrite Hx, IH. reflexivity.
Qed.

Lemma filter_twice {A} (keep : A → bool) (l : list A) :
  List.filter keep (List.filter keep l) = List.filter keep l.
Proof.
  induction l as [|x l IH]; simpl; [reflexivity|].
  destruct (keep x) eqn:E; simpl; rewrite ?E, IH; reflexivity.
Qed.

(** [findIndex] gives -1 when no element passes, and otherwise the
    position of the first one that does. *)
Lemma findIndex_from_spec {A} (p : A → bool) (l : list A) (i : Z) :
  0 <= i →
  (JSArray.findIndex_from i p l = -1 ∧ Forall (fun x => p x = false) l) ∨
  (∃ n x, JSArray.findIndex_from i p l = i + Z.of_nat n ∧
          l !! n = Some x ∧ p x = true ∧
          Forall (fun y => p y = false) (take n l)).
Proof.
  revert i. induction l as [|a l IH]; intros i Hi; cbn [JSArray.findIndex_from].
  - left. split; [reflexivity|constructor].
  - destruct (p a) eqn:E.
    + right. exists 0%nat, a. repeat split; [lia|assumption|constructor].
    + destruct (IH (i + 1)) as [(Hm & Hall)|(n & x & Hidx & Hl & Hp & Hbefore)]; [lia| |].
      * left. split; [assumption|constructor; assumption].
      * right. exists (S n), x. repeat split; [lia|assumption|assumption|].
        cbn [take]. constructor; assumption.
Qed.

Lemma findIndex_spec {A} (p : A → bool) (l : list A) :
  (JSArray.findIndex p l = -1 ∧ Forall (fun x => p x = false) l) ∨
  (∃ n x, JSArray.findIndex p l = Z.of_nat n ∧
          l !! n = Some x ∧ p x = true ∧
          Forall (fun y => p y = false) (take n l)).
Proof.
  destruct (findIndex_from_spec p l 0) as [H|(n & x & H & Hrest)]; [lia|left; exact H|].
  right. exists n, x. split; [unfold JSArray.findIndex; lia|exact Hrest].
Qed.

(** *** The store *)

Lemma get_set_suppliers uid v st :
  get_or_empty (user_suppliers (set_suppliers uid v st)) uid = v.
Proof. unfold get_or_empty, set_suppliers. simpl. now rewrite lookup_insert_eq. Qed.

Lemma get_set_clients uid v st :
  get_or_empty (user_clients (set_clients uid v st)) uid = v.
Proof. unfold get_or_empty, set_clients. simpl. now rewrite lookup_insert_eq. Qed.

Lemma get_set_item_templates uid v st :
  get_or_empty (user_item_templates (set_item_templates uid v st)) uid = v.
Proof. unfold get_or_empty, set_item_templates. simpl. now rewrite lookup_insert_eq. Qed.

Lemma get_set_estimates uid v st :
  get_or_empty (user_estimates (set_estimates uid v st)) uid = v.
Proof. unfold get_or_empty, set_estimates. simpl. now rewrite lookup_insert_eq. Qed.

Lemma set_suppliers_twice uid v st :
  set_suppliers uid v (set_suppliers uid v st) = set_suppliers uid v st.
Proof. unfold set_suppliers. simpl. now rewrite insert_insert_eq. Qed.

Lemma set_clients_twice uid v st :
  set_clients uid v (set_clients uid v st) = set_clients uid v st.
Proof. unfold set_clients. simpl. now rewrite insert_insert_eq. Qed.

Lemma set_item_templates_twice uid v st :
  set_item_templates uid v (set_item_templates uid v st) = set_item_templates uid v st.
Proof. unfold set_item_templates. simpl. now rewrite insert_insert_eq. Qed.

(** *** DELETE on the three keyed collections *)

Section Delete.
Variable env : Env.
Variable authorization : option string.
Variable user_id : string.
Hypothesis authenticated : authenticate env authorization = inr user_id.

Lemma delete_suppliers_ok param companyName st :
  decodeURIComponent env param = Some companyName →
  let filtered :=
    List.filter (fun s => negb (String.eqb (Supplier.companyName s) companyName))
                (get_or_empty (user_suppliers st) user_id) in
  delete_suppliers env authorization param st
  = (json (P_suppliers "Supplier deleted successfully" filtered),
     set_suppliers user_id filtered st).
Proof.
  intros Hdec. unfold delete_suppliers. rewrite authenticated, Hdec. reflexivity.
Qed.

Lemma delete_clients_ok param clientName st :
  decodeURIComponent env param = Some clientName →
  let filtered :=
    List.filter (fun c => negb (bool_decide (Client.name c = Some clientName)))
                (get_or_empty (user_clients st) user_id) in
  delete_clients env authorization param st
  = (json (P_clients "Client deleted successfully" filtered),
     set_clients user_id filtered st).
Proof.
  intros Hdec. unfold delete_clients. rewrite authenticated, Hdec. reflexivity.
Qed.

Lemma delete_item_templates_ok param st :
  let filtered :=
    List.filter (fun t => negb (bool_decide (Item.name t = Some param)))
                (get_or_empty (user_item_templates st) user_id) in
  delete_item_templates env authorization param st
  = (json (P_itemTemplates "Item template deleted successfully" filtered),
     set_item_templates user_id filtered st).
Proof. unfold delete_item_templates. rewrite authenticated. reflexivity. Qed.

End Delete.

(** No DELETE on these collections answers 404. *)
Lemma delete_never_404 env authorization param st :
  status (fst (delete_suppliers env authorization param st)) ≠ 404 ∧
  status (fst (delete_clients env authorization param st)) ≠ 404 ∧
  status (fst (delete_item_templates env authorization param st)) ≠ 404.
Proof.
  unfold delete_suppliers, delete_clients, delete_item_templates, authenticate.
  split; [|split]; repeat case_match; simplify_eq; cbn; intros Heq; discriminate Heq.
Qed.

(** Where the handler's [decodeURIComponent] of the route parameter
    returns (item templates do not decode): for an authenticated DELETE
    on suppliers, clients or item templates whose key matches no record
    of the user's collection, the answer is 200 with the collection as
    it was, and the stored collection is as it was; no DELETE on these
    collections answers 404; and a second DELETE with the same key
    answers as the first and leaves the store as the first left it. *)
Lemma delete_is_idempotent_when_decoded env authorization user_id param key st :
  authenticate env authorization = inr user_id →
  decodeURIComponent env param = Some key →
  let suppliers := get_or_empty (user_suppliers st) user_id in
  let clients := get_or_empty (user_clients st) user_id in
  let templates := get_or_empty (user_item_templates st) user_id in
  (Forall (fun s => Supplier.companyName s ≠ key) suppliers →
   fst (delete_suppliers env authorization param st)
   = mkResponse 200 (P_suppliers "Supplier deleted successfully" suppliers) ∧
   get_or_empty (user_suppliers (snd (delete_suppliers env authorization param st))) user_id
   = suppliers) ∧
  (Forall (fun c => Client.name c ≠ Some key) clients →
   fst (delete_clients env authorization param st)
   = mkResponse 200 (P_clients "Client deleted successfully" clients) ∧
   get_or_empty (user_clients (snd (delete_clients env authorization param st))) user_id
   = clients) ∧
  (Forall (fun t => Item.name t ≠ Some param) templates →
   fst (delete_item_templates env authorization param st)
   = mkResponse 200 (P_itemTemplates "Item template deleted successfully" templates) ∧
   get_or_empty
     (user_item_templates (snd (delete_item_templates env authorization param st))) user_id
   = templates) ∧
  (status (fst (delete_suppliers env authorization param st)) ≠ 404 ∧
   status (fst (delete_clients env authorization param st)) ≠ 404 ∧
   status (fst (delete_item_templates env authorization param st)) ≠ 404) ∧
  (let once := delete_suppliers env authorization param st in
   delete_suppliers env authorization param (snd once) = once) ∧
  (let once := delete_clients env authorization param st in
   delete_clients env authorization param (snd once) = once) ∧
  (let once := delete_item_templates env authorization param st in
   delete_item_templates env authorization param (snd once) = once).
Proof.
  intros Hauth Hdec suppliers clients templates.
  rewrite (delete_suppliers_ok env authorization user_id Hauth param key st Hdec).
  rewrite (delete_clients_ok env authorization user_id Hauth param key st Hdec).
  rewrite (delete_item_templates_ok env authorization user_id Hauth param st).
  cbn [fst snd].
  split; [|split; [|split; [|split; [|split; [|split]]]]].
  - intros Hnone. rewrite get_set_suppliers.
    rewrite filter_none_rejected; [split; reflexivity|].
    eapply Forall_impl; [exact Hnone|]. intros s Hs. cbv beta in Hs |- *.
    apply negb_true_iff, String.eqb_neq. exact Hs.
  - intros Hnone. rewrite get_set_clients.
    rewrite filter_none_rejected; [split; reflexivity|].
    eapply Forall_impl; [exact Hnone|]. intros c Hc. cbv beta in Hc |- *.
    apply negb_true_iff, bool_decide_eq_false. exact Hc.
  - intros Hnone. rewrite get_set_item_templates.
    rewrite filter_none_rejected; [split; reflexivity|].
    eapply Forall_impl; [exact Hnone|]. intros t Ht. cbv beta in Ht |- *.
    apply negb_true_iff, bool_decide_eq_false. exact Ht.
  - cbn. repeat split; intros Heq; discriminate Heq.
  - cbv zeta.
    rewrite (delete_suppliers_ok env authorization user_id Hauth param key _ Hdec).
    rewrite get_set_suppliers, filter_twice, set_suppliers_twice. reflexivity.
  - cbv zeta.
    rewrite (delete_clients_ok env authorization user_id Hauth param key _ Hdec).
    rewrite get_set_clients, filter_twice, set_clients_twice. reflexivity.
  - cbv zeta.
    rewrite (delete_item_templates_ok env authorization user_id Hauth param _).
    rewrite get_set_item_templates, filter_twice, set_item_templates_twice. reflexivity.
Qed.

(** *** DELETE and the second decoding *)

Lemma decodeURIComponent_no_percent s :
  URI.no_percent s = true → URI.decodeURIComponent s = Some s.
Proof.
  unfold URI.decodeURIComponent.
  induction s as [|c s IH]; [reflexivity|]. cbn [URI.no_percent URI.decode].
  intros H. apply andb_true_iff in H. destruct H as [Hc Hs].
  apply negb_true_iff in Hc. rewrite Hc, (IH Hs). reflexivity.
Qed.

(** C8 (the code departs from the claim).  The handlers of DELETE
    /suppliers/:companyName and DELETE /clients/:clientName call
    [decodeURIComponent] on the route parameter, which the router has
    decoded already.  For a name on which it throws, such as [50%]
    (sent as 50%25 by My Page), an authenticated DELETE is answered 500
    with the store as it was, whether or not a record has the name,
    where 200 with the unchanged collection is claimed; the handler of
    item templates does not decode and answers 200. *)
Theorem C8_delete_decodes_the_parameter_twice env authorization user_id param st :
  authenticate env authorization = inr user_id →
  URI.standard env →
  URI.decodeURIComponent param = None →
  delete_suppliers env authorization param st
  = (mkResponse 500 (P_error "Error deleting supplier"), st) ∧
  delete_clients env authorization param st
  = (mkResponse 500 (P_error "Error deleting client"), st) ∧
  status (fst (delete_item_templates env authorization param st)) = 200 ∧
  URI.decodeURIComponent "50%" = None.
Proof.
  intros Hauth Hstandard Hthrows.
  unfold delete_suppliers, delete_clients, delete_item_templates.
  rewrite Hauth, Hstandard, Hthrows. repeat split.
Qed.

(** C8 at the name 50% and a user whose one supplier has another name. *)
Lemma C8_delete_decodes_the_parameter_twice_witness :
  let st := set_suppliers "user-1" [Sequence.DEFAULT_SUPPLIER] initial in
  Forall (fun s => Supplier.companyName s ≠ "50%")
         (get_or_empty (user_suppliers st) "user-1") ∧
  delete_suppliers URI.runtime_env (Some "Bearer token-1") "50%" st
  = (mkResponse 500 (P_error "Error deleting supplier"), st).
Proof.
  intros st.
  assert (Hauth : authenticate URI.runtime_env (Some "Bearer token-1") = inr "user-1")
    by reflexivity.
  assert (Hstandard : URI.standard URI.runtime_env) by (intros s; reflexivity).
  assert (Hthrows : URI.decodeURIComponent "50%" = None) by reflexivity.
  split.
  - repeat constructor. vm_compute. discriminate.
  - exact (proj1 (C8_delete_decodes_the_parameter_twice URI.runtime_env _ "user-1"
                    "50%" st Hauth Hstandard Hthrows)).
Defined.

(** *** POST /suppliers *)

Lemma truthy_nonempty s : s ≠ "" → truthy s = true.
Proof. intros H. unfold truthy. apply negb_true_iff, String.eqb_neq. exact H. Qed.

Lemma post_suppliers_ok env authorization user_id supplier st :
  authenticate env authorization = inr user_id →
  Supplier.companyName supplier ≠ "" →
  let saved := saved_suppliers supplier (get_or_empty (user_suppliers st) user_id) in
  post_suppliers env authorization (Some supplier) st
  = (mkResponse 200 (P_suppliers "Supplier saved successfully" saved),
     set_suppliers user_id saved st).
Proof.
  intros Hauth Hkey. unfold post_suppliers. rewrite Hauth.
  rewrite (truthy_nonempty _ Hkey). reflexivity.
Qed.

(** The first record with the key is replaced where it stands, or the
    record is put at the end. *)
Lemma saved_suppliers_spec supplier existing :
  let key := Supplier.companyName supplier in
  (∃ n old,
     existing !! n = Some old ∧ Supplier.companyName old = key ∧
     Forall (fun s => Supplier.companyName s ≠ key) (take n existing) ∧
     saved_suppliers supplier existing = <[n := supplier]> existing ∧
     length (saved_suppliers supplier existing) = length existing) ∨
  (Forall (fun s => Supplier.companyName s ≠ key) existing ∧
   saved_suppliers supplier existing = existing ++ [supplier]).
Proof.
  intros key. unfold saved_suppliers.
  destruct (findIndex_spec
              (fun s => String.eqb (Supplier.companyName s) (Supplier.companyName supplier))
              existing) as [(Hidx & Hall)|(n & old & Hidx & Hl & Hp & Hbefore)];
    rewrite Hidx.
  - right. split; [|reflexivity].
    eapply Forall_impl; [exact Hall|]. intros s Hs. now apply String.eqb_neq.
  - left. exists n, old.
    replace (0 <=? Z.of_nat n) with true by (symmetry; apply Z.leb_le; lia).
    rewrite Nat2Z.id. repeat split; try assumption.
    + now apply String.eqb_eq.
    + eapply Forall_impl; [exact Hbefore|]. intros s Hs. now apply String.eqb_neq.
    + apply length_insert.
Qed.

Lemma saved_suppliers_unique supplier existing :
  unique_companyNames existing →
  unique_companyNames (saved_suppliers supplier existing).
Proof.
  unfold unique_companyNames. intros Hu.
  destruct (saved_suppliers_spec supplier existing)
    as [(n & old & Hl & Hk & _ & -> & _)|(Hnone & ->)].
  - change (NoDup (Supplier.companyName <$> <[n := supplier]> existing)).
    rewrite list_fmap_insert, list_insert_id; [exact Hu|].
    rewrite list_lookup_fmap, Hl. simpl. now rewrite Hk.
  - rewrite List.map_app. apply NoDup_app. split; [exact Hu|]. split.
    + intros k Hin Hk. apply list_elem_of_singleton in Hk. subst k.
      apply list_elem_of_In, List.in_map_iff in Hin. destruct Hin as (s & Hs & Hin).
      rewrite Forall_forall in Hnone. apply (Hnone s); [now apply list_elem_of_In|exact Hs].
    + simpl. apply NoDup_singleton.
Qed.

Lemma filter_unique {A B} (f : A → B) (keep : A → bool) (l : list A) :
  NoDup (List.map f l) → NoDup (List.map f (List.filter keep l)).
Proof.
  induction l as [|x l IH]; simpl; [trivial|].
  intros Hnd. apply NoDup_cons in Hnd. destruct Hnd as [Hx Hnd].
  destruct (keep x); simpl; [|now apply IH].
  apply NoDup_cons. split; [|now apply IH].
  intros Hin. apply Hx.
  apply list_elem_of_In, List.in_map_iff in Hin. destruct Hin as (y & Hy & Hin).
  apply List.filter_In in Hin. destruct Hin as [Hin _].
  apply list_elem_of_In, List.in_map_iff. exists y. split; assumption.
Qed.

(** Every handler keeps the supplier collections free of duplicate keys. *)
Lemma set_suppliers_unique uid v st :
  suppliers_unique st → unique_companyNames v →
  suppliers_unique (set_suppliers uid v st).
Proof.
  intros Hst Hv u. unfold get_or_empty, set_suppliers. simpl.
  destruct (decide (uid = u)) as [->|Hne].
  - rewrite lookup_insert_eq. exact Hv.
  - rewrite lookup_insert_ne by exact Hne. apply Hst.
Qed.

Lemma handle_keeps_suppliers_unique env req st :
  suppliers_unique st → suppliers_unique (snd (handle env req st)).
Proof.
  intros Hst.
  destruct req as [a j|a j|a j|a j|a i j|a k|a k|a k|a i]; cbn [handle].
  - unfold post_suppliers.
    destruct (authenticate env a) as [|uid]; [exact Hst|].
    destruct j as [supplier|]; [|exact Hst].
    destruct (negb (truthy (Supplier.companyName supplier))); [exact Hst|].
    cbn [snd].
    apply (set_suppliers_unique uid
             (saved_suppliers supplier (get_or_empty (user_suppliers st) uid)));
      [exact Hst|].
    apply saved_suppliers_unique, Hst.
  - unfold post_clients. repeat case_match; exact Hst.
  - unfold post_item_templates. repeat case_match; exact Hst.
  - unfold post_estimates, now, random_suffix. repeat case_match; exact Hst.
  - unfold put_estimates, now. repeat case_match; exact Hst.
  - unfold delete_suppliers.
    destruct (authenticate env a) as [|uid]; [exact Hst|].
    destruct (decodeURIComponent env k) as [companyName|]; [|exact Hst].
    cbn [snd]. apply set_suppliers_unique; [exact Hst|].
    apply filter_unique, Hst.
  - unfold delete_clients. repeat case_match; exact Hst.
  - unfold delete_item_templates. repeat case_match; exact Hst.
  - unfold delete_estimates. repeat case_match; exact Hst.
Qed.

Lemma serve_from_keeps_suppliers_unique env history st :
  suppliers_unique st →
  suppliers_unique (fold_left (fun st req => snd (handle env req st)) history st).
Proof.
  revert st. induction history as [|req history IH]; intros st Hst; simpl.
  - exact Hst.
  - apply IH, handle_keeps_suppliers_unique, Hst.
Qed.

Lemma serve_suppliers_unique env history : suppliers_unique (serve env history).
Proof.
  apply serve_from_keeps_suppliers_unique.
  intros uid. unfold get_or_empty, initial. simpl. rewrite lookup_empty.
  apply NoDup_nil_2.
Qed.

Lemma filter_key_absent key (l : list Supplier.t) :
  key ∉ List.map Supplier.companyName l →
  List.filter (fun s => String.eqb (Supplier.companyName s) key) l = [].
Proof.
  induction l as [|x l IH]; simpl; [reflexivity|].
  intros Hnot. apply not_elem_of_cons in Hnot. destruct Hnot as [Hx Hl].
  destruct (String.eqb_spec (Supplier.companyName x) key) as [E|_]; [congruence|].
  now apply IH.
Qed.

(** In a collection without duplicate keys the records with the key of
    a member are that member alone. *)
Lemma unique_filter_key (l : list Supplier.t) n x :
  unique_companyNames l → l !! n = Some x →
  List.filter (fun s => String.eqb (Supplier.companyName s) (Supplier.companyName x)) l
  = [x].
Proof.
  unfold unique_companyNames. revert n.
  induction l as [|a l IH]; intros n Hu Hl; [discriminate|].
  simpl in Hu. apply NoDup_cons in Hu. destruct Hu as [Ha Hu].
  destruct n as [|n]; simpl in Hl.
  - injection Hl as ->. simpl. rewrite String.eqb_refl.
    now rewrite filter_key_absent.
  - simpl.
    destruct (String.eqb_spec (Supplier.companyName a) (Supplier.companyName x)) as [E|_].
    + exfalso. apply Ha. rewrite E.
      apply list_elem_of_In, List.in_map, list_elem_of_In.
      eapply list_elem_of_lookup_2. exact Hl.
    + now apply (IH n).
Qed.

(** C6.  In every state that the service reaches, an authenticated POST
    /suppliers with a non-empty [companyName] answers 200 with the
    collection it stores, which is the user's collection with the first
    record of that [companyName] replaced where it stands (all other
    positions and the length as they were) or, when there is none, with
    the new record added at the end; a second POST with the same
    [companyName] keeps the length of the collection and leaves exactly
    one record with that key, the second payload. *)
Theorem C6_post_suppliers_upserts env history authorization user_id supplier second :
  authenticate env authorization = inr user_id →
  Supplier.companyName supplier ≠ "" →
  Supplier.companyName second = Supplier.companyName supplier →
  let st := serve env history in
  let existing := get_or_empty (user_suppliers st) user_id in
  let key := Supplier.companyName supplier in
  let first_post := post_suppliers env authorization (Some supplier) st in
  let second_post := post_suppliers env authorization (Some second) (snd first_post) in
  ∃ saved saved2,
    fst first_post = mkResponse 200 (P_suppliers "Supplier saved successfully" saved) ∧
    get_or_empty (user_suppliers (snd first_post)) user_id = saved ∧
    ((∃ n old,
        existing !! n = Some old ∧ Supplier.companyName old = key ∧
        Forall (fun s => Supplier.companyName s ≠ key) (take n existing) ∧
        saved = <[n := supplier]> existing ∧ length saved = length existing) ∨
     (Forall (fun s => Supplier.companyName s ≠ key) existing ∧
      saved = existing ++ [supplier])) ∧
    fst second_post = mkResponse 200 (P_suppliers "Supplier saved successfully" saved2) ∧
    get_or_empty (user_suppliers (snd second_post)) user_id = saved2 ∧
    length saved2 = length saved ∧
    List.filter (fun s => String.eqb (Supplier.companyName s) key) saved2 = [second].
Proof.
  intros Hauth Hkey Hsame st existing key first_post second_post.
  assert (Hkey2 : Supplier.companyName second ≠ "") by (rewrite Hsame; exact Hkey).
  pose proof (post_suppliers_ok env authorization user_id supplier st Hauth Hkey) as E1.
  cbv zeta in E1. fold existing in E1.
  set (saved := saved_suppliers supplier existing) in *.
  pose proof (post_suppliers_ok env authorization user_id second
                (set_suppliers user_id saved st) Hauth Hkey2) as E2.
  cbv zeta in E2. rewrite get_set_suppliers in E2.
  set (saved2 := saved_suppliers second saved) in *.
  exists saved, saved2.
  unfold second_post, first_post. rewrite E1. cbn [fst snd]. rewrite E2. cbn [fst snd].
  rewrite !get_set_suppliers.
  assert (Hu : unique_companyNames existing) by apply serve_suppliers_unique.
  assert (Hu1 : unique_companyNames saved) by now apply saved_suppliers_unique.
  assert (Hu2 : unique_companyNames saved2) by now apply saved_suppliers_unique.
  (* the first POST leaves a record with the key in the collection *)
  assert (Hmember : ∃ m, saved !! m = Some supplier).
  { destruct (saved_suppliers_spec supplier existing)
      as [(n & old & Hl & _ & _ & Hs & _)|(_ & Hs)]; fold saved in Hs; rewrite Hs.
    - exists n. apply list_lookup_insert_eq. eapply lookup_lt_Some. exact Hl.
    - exists (length existing). now rewrite lookup_app_r, Nat.sub_diag. }
  destruct Hmember as (m & Hm).
  (* so the second POST replaces in place *)
  destruct (saved_suppliers_spec second saved)
    as [(n & old & Hl & Hk & _ & Hs2 & Hlen)|(Hnone & _)].
  - fold saved2 in Hs2. repeat split; try reflexivity.
    + exact (saved_suppliers_spec supplier existing).
    + fold saved2 in Hlen. exact Hlen.
    + unfold key. rewrite <- Hsame.
      apply (unique_filter_key saved2 n second Hu2).
      rewrite Hs2. apply list_lookup_insert_eq. eapply lookup_lt_Some. exact Hl.
  - exfalso. rewrite Forall_forall in Hnone.
    apply (Hnone supplier); [eapply list_elem_of_lookup_2; exact Hm|].
    symmetry. exact Hsame.
Qed.

(** C6 for two POSTs of the default supplier under new phone numbers,
    after a first POST stored it. *)
Lemma C6_post_suppliers_upserts_witness :
  let first_post :=
    post_suppliers sample_env (Some "Bearer token-1") (Some (sample_supplier "02) 111-1111"))
      (serve sample_env [POST_suppliers (Some "Bearer token-1")
                           (Some Sequence.DEFAULT_SUPPLIER)]) in
  let second_post :=
    post_suppliers sample_env (Some "Bearer token-1") (Some (sample_supplier "02) 222-2222"))
      (snd first_post) in
  ∃ saved2,
    fst second_post = mkResponse 200 (P_suppliers "Supplier saved successfully" saved2) ∧
    length saved2 = 1%nat ∧
    List.filter
      (fun s => String.eqb (Supplier.companyName s)
                  (Supplier.companyName (sample_supplier "02) 111-1111")))
      saved2
    = [sample_supplier "02) 222-2222"].
Proof.
  intros first_post second_post.
  assert (Hauth : authenticate sample_env (Some "Bearer token-1") = inr "user-1")
    by reflexivity.
  assert (Hkey : Supplier.companyName (sample_supplier "02) 111-1111") ≠ "")
    by (vm_compute; discriminate).
  assert (Hsame : Supplier.companyName (sample_supplier "02) 222-2222")
                  = Supplier.companyName (sample_supplier "02) 111-1111"))
    by reflexivity.
  destruct (C6_post_suppliers_upserts sample_env
              [POST_suppliers (Some "Bearer token-1") (Some Sequence.DEFAULT_SUPPLIER)]
              (Some "Bearer token-1") "user-1"
              (sample_supplier "02) 111-1111") (sample_supplier "02) 222-2222")
              Hauth Hkey Hsame)
    as (saved & saved2 & _ & Hsaved & _ & Hresp & _ & Hlen & Hone).
  exists saved2. split; [exact Hresp|]. split; [|exact Hone].
  rewrite Hlen, <- Hsaved. vm_compute. reflexivity.
Defined.

(** *** POST and PUT /estimates *)

(** The record that POST /estimates returns: its time stamps are the
    second and the third reading of the clock by the handler. *)
Lemma post_estimates_ok env authorization user_id estimateData st :
  authenticate env authorization = inr user_id →
  EstimateData.estimateNumber estimateData ≠ "" →
  EstimateData.clientName estimateData ≠ "" →
  let n := clock_reads st in
  let record :=
    {| data := estimateData;
       id := (JSString.String_int (clock env n) +:+ "_") +:+ random env (random_draws st);
       createdAt := clock env (S n);
       updatedAt := clock env (S (S n)) |} in
  fst (post_estimates env authorization (Some estimateData) st)
  = mkResponse 200 (P_estimate "Estimate saved successfully" record) ∧
  get_or_empty (user_estimates (snd (post_estimates env authorization (Some estimateData) st)))
    user_id
  = record :: get_or_empty (user_estimates st) user_id.
Proof.
  intros Hauth Hnum Hname. unfold post_estimates. rewrite Hauth.
  rewrite (truthy_nonempty _ Hnum), (truthy_nonempty _ Hname).
  unfold now, random_suffix.
  cbn [fst snd orb negb user_suppliers user_clients user_item_templates
       user_estimates clock_reads random_draws].
  rewrite get_set_estimates. split; reflexivity.
Qed.

(** The two stamps are equal exactly when the clock did not move
    between its second and its third reading. *)
Lemma post_estimates_stamps env authorization user_id estimateData st record message :
  authenticate env authorization = inr user_id →
  EstimateData.estimateNumber estimateData ≠ "" →
  EstimateData.clientName estimateData ≠ "" →
  fst (post_estimates env authorization (Some estimateData) st)
  = mkResponse 200 (P_estimate message record) →
  (createdAt record = updatedAt record
   ↔ clock env (S (clock_reads st)) = clock env (S (S (clock_reads st)))).
Proof.
  intros Hauth Hnum Hname Hresp.
  destruct (post_estimates_ok env authorization user_id estimateData st Hauth Hnum Hname)
    as [E _].
  rewrite E in Hresp. injection Hresp as _ <-. reflexivity.
Qed.

(** PUT /estimates/:id answers 404 when no record of the user has the id. *)
Lemma put_estimates_not_found env authorization user_id param estimateData st :
  authenticate env authorization = inr user_id →
  Forall (fun e => id e ≠ param) (get_or_empty (user_estimates st) user_id) →
  put_estimates env authorization param (Some estimateData) st
  = (mkResponse 404 (P_error "Estimate not found"), st).
Proof.
  intros Hauth Hnone. unfold put_estimates. rewrite Hauth.
  destruct (findIndex_spec (fun e => String.eqb (id e) param)
              (get_or_empty (user_estimates st) user_id))
    as [(Hidx & _)|(n & x & _ & Hl & Hp & _)].
  - rewrite Hidx. reflexivity.
  - exfalso. rewrite Forall_forall in Hnone.
    apply (Hnone x); [eapply list_elem_of_lookup_2; exact Hl|now apply String.eqb_eq].
Qed.

(** Otherwise it replaces the first record with the id: the body becomes
    the data, the id and [createdAt] stay, [updatedAt] is the reading of
    the clock, later than before when the clock is. *)
Lemma put_estimates_found env authorization user_id param estimateData st n old :
  authenticate env authorization = inr user_id →
  get_or_empty (user_estimates st) user_id !! n = Some old →
  id old = param →
  Forall (fun e => id e ≠ param) (take n (get_or_empty (user_estimates st) user_id)) →
  let replacement :=
    {| data := estimateData; id := param;
       createdAt := createdAt old;
       updatedAt := clock env (clock_reads st) |} in
  fst (put_estimates env authorization param (Some estimateData) st)
  = mkResponse 200 (P_estimate "Estimate updated successfully" replacement) ∧
  get_or_empty
    (user_estimates (snd (put_estimates env authorization param (Some estimateData) st)))
    user_id
  = <[n := replacement]> (get_or_empty (user_estimates st) user_id) ∧
  (updatedAt old < clock env (clock_reads st) → updatedAt old < updatedAt replacement).
Proof.
  intros Hauth Hl Hid Hbefore replacement.
  unfold put_estimates. rewrite Hauth.
  destruct (findIndex_spec (fun e => String.eqb (id e) param)
              (get_or_empty (user_estimates st) user_id))
    as [(_ & Hall)|(m & x & Hidx & Hm & Hp & Hfirst)].
  - exfalso. rewrite Forall_forall in Hall.
    assert (Hf : String.eqb (id old) param = false)
      by (apply Hall; eapply list_elem_of_lookup_2; exact Hl).
    apply String.eqb_neq in Hf. contradiction.
  - assert (m = n) as ->.
    { destruct (Nat.lt_trichotomy m n) as [Hlt|[E|Hgt]]; [|exact E|]; exfalso.
      - rewrite Forall_forall in Hbefore. apply (Hbefore x).
        + eapply list_elem_of_lookup_2. rewrite lookup_take_lt by exact Hlt. exact Hm.
        + now apply String.eqb_eq.
      - rewrite Forall_forall in Hfirst.
        assert (Hf : String.eqb (id old) param = false).
        { apply Hfirst. eapply list_elem_of_lookup_2.
          rewrite lookup_take_lt by exact Hgt. exact Hl. }
        apply String.eqb_neq in Hf. contradiction. }
    rewrite Hidx. replace (Z.of_nat n =? -1) with false by (symmetry; apply Z.eqb_neq; lia).
    rewrite Nat2Z.id, Hl. unfold now.
    cbn [fst snd user_suppliers user_clients user_item_templates
         user_estimates clock_reads random_draws].
    rewrite get_set_estimates.
    repeat split. intros H. exact H.
Qed.

(** C7, refuted as stated.  With a clock that shows one millisecond
    more at each reading, the record that POST /estimates returns has
    [createdAt] 1700000000001 and [updatedAt] 1700000000002; and with a
    clock that stands still, the PUT that follows the POST returns the
    [updatedAt] that the record had. *)
Lemma C7_stamps_are_clock_readings :
  (∃ record,
     fst (post_estimates sample_env (Some "Bearer token-1") (Some sample_estimate) initial)
     = mkResponse 200 (P_estimate "Estimate saved successfully" record) ∧
     createdAt record = 1700000000001 ∧
     updatedAt record = 1700000000002 ∧
     createdAt record ≠ updatedAt record) ∧
  (∃ record updated,
     let posted :=
       post_estimates frozen_env (Some "Bearer token-1") (Some sample_estimate) initial in
     fst posted = mkResponse 200 (P_estimate "Estimate saved successfully" record) ∧
     fst (put_estimates frozen_env (Some "Bearer token-1") (id record)
            (Some sample_estimate) (snd posted))
     = mkResponse 200 (P_estimate "Estimate updated successfully" updated) ∧
     ¬ updatedAt record < updatedAt updated).
Proof.
  split.
  - eexists. split; [vm_compute; reflexivity|].
    cbn [createdAt updatedAt]. repeat split. discriminate.
  - eexists. eexists. cbv zeta. split; [vm_compute; reflexivity|].
    split; [vm_compute; reflexivity|].
    cbn [updatedAt]. lia.
Qed.

(** C7, as amended.  An authenticated POST /estimates with non-empty
    [estimateNumber] and [clientName] answers 200 with a record that
    holds the body, whose [createdAt] and [updatedAt] are the second and
    the third reading of the clock by the handler, and puts it at the
    front of the user's list.  PUT /estimates/:id answers 404 and
    changes nothing when no record of the user has the id.  The PUT that
    follows the POST, for the id of the record, answers 200 with the
    request body under the same [id] and [createdAt], with [updatedAt]
    the next reading of the clock, and stores it in the place of the
    record; [updatedAt] is later than before exactly when that reading
    is later than the previous one. *)
Theorem C7_estimate_lifecycle env authorization user_id estimateData body st :
  authenticate env authorization = inr user_id →
  EstimateData.estimateNumber estimateData ≠ "" →
  EstimateData.clientName estimateData ≠ "" →
  let n := clock_reads st in
  let existing := get_or_empty (user_estimates st) user_id in
  let posted := post_estimates env authorization (Some estimateData) st in
  ∃ record,
    fst posted = mkResponse 200 (P_estimate "Estimate saved successfully" record) ∧
    data record = estimateData ∧
    createdAt record = clock env (S n) ∧
    updatedAt record = clock env (S (S n)) ∧
    get_or_empty (user_estimates (snd posted)) user_id = record :: existing ∧
    (∀ st' absent,
       Forall (fun e => id e ≠ absent) (get_or_empty (user_estimates st') user_id) →
       put_estimates env authorization absent (Some body) st'
       = (mkResponse 404 (P_error "Estimate not found"), st')) ∧
    (let put := put_estimates env authorization (id record) (Some body) (snd posted) in
     ∃ updated,
       fst put = mkResponse 200 (P_estimate "Estimate updated successfully" updated) ∧
       data updated = body ∧
       id updated = id record ∧
       createdAt updated = createdAt record ∧
       updatedAt updated = clock env (S (S (S n))) ∧
       get_or_empty (user_estimates (snd put)) user_id = updated :: existing ∧
       (updatedAt record < updatedAt updated
        ↔ clock env (S (S n)) < clock env (S (S (S n))))).
Proof.
  intros Hauth Hnum Hname n existing posted.
  destruct (post_estimates_ok env authorization user_id estimateData st Hauth Hnum Hname)
    as [Hresp Hstore].
  fold posted in Hresp, Hstore. fold n in Hresp, Hstore. fold existing in Hstore.
  set (record := {| data := estimateData;
                    id := (JSString.String_int (clock env n) +:+ "_")
                          +:+ random env (random_draws st);
                    createdAt := clock env (S n);
                    updatedAt := clock env (S (S n)) |}) in *.
  exists record. split; [exact Hresp|].
  split; [reflexivity|]. split; [reflexivity|]. split; [reflexivity|].
  split; [exact Hstore|]. split.
  - intros st' absent Hnone.
    apply (put_estimates_not_found env authorization user_id absent body st' Hauth Hnone).
  - cbv zeta.
    assert (Hreads : clock_reads (snd posted) = S (S (S n))).
    { unfold posted, post_estimates. rewrite Hauth.
      rewrite (truthy_nonempty _ Hnum), (truthy_nonempty _ Hname). reflexivity. }
    destruct (put_estimates_found env authorization user_id (id record) body
                (snd posted) 0%nat record Hauth)
      as (Hput & Hstored & _);
      [rewrite Hstore; reflexivity | reflexivity | constructor |].
    rewrite Hreads in Hput.
    eexists. split; [exact Hput|].
    split; [reflexivity|]. split; [reflexivity|]. split; [reflexivity|].
    split; [reflexivity|]. split.
    + rewrite Hstored, Hstore, Hreads. reflexivity.
    + cbn [updatedAt]. subst record. cbn [updatedAt]. reflexivity.
Qed.

(** The amended C7 for the sample document in the empty store. *)
Lemma C7_estimate_lifecycle_witness :
  let posted :=
    post_estimates sample_env (Some "Bearer token-1") (Some sample_estimate) initial in
  ∃ record,
    fst posted = mkResponse 200 (P_estimate "Estimate saved successfully" record) ∧
    get_or_empty (user_estimates (snd posted)) "user-1" = [record].
Proof.
  intros posted.
  assert (Hauth : authenticate sample_env (Some "Bearer token-1") = inr "user-1")
    by reflexivity.
  assert (Hnum : EstimateData.estimateNumber sample_estimate ≠ "")
    by (vm_compute; discriminate).
  assert (Hname : EstimateData.clientName sample_estimate ≠ "")
    by (vm_compute; discriminate).
  destruct (C7_estimate_lifecycle sample_env (Some "Bearer token-1") "user-1"
              sample_estimate sample_estimate initial Hauth Hnum Hname)
    as (record & Hresp & _ & _ & _ & Hstore & _).
  exists record. split; [exact Hresp | exact Hstore].
Defined.

End ServerFacts.

(** * Further properties of the code *)

(** ** The record service: rejections, isolation, reads *)

Module ServiceFacts.
Import Server ServerReads.

Lemma authenticate_rejection env authorization rejected :
  authenticate env authorization = inl rejected →
  rejected = mkResponse 401 (P_error "No access token provided") ∨
  rejected = mkResponse 401 (P_error "Invalid access token").
Proof.
  unfold authenticate. intros H.
  destruct (negb _); [left; inversion H; reflexivity|].
  destruct (getUserFromToken _ _); [discriminate H|right; inversion H; reflexivity].
Qed.

Ltac unfold_handlers :=
  unfold post_suppliers, post_clients, post_item_templates, post_estimates,
    put_estimates, delete_suppliers, delete_clients, delete_item_templates,
    delete_estimates, now, random_suffix in *.

Lemma handle_rejected env req st rejected :
  authenticate env (authorization_of req) = inl rejected →
  handle env req st = (rejected, st).
Proof.
  intros Hrej.
  destruct req; cbn [handle authorization_of] in *; unfold_handlers;
    rewrite Hrej; reflexivity.
Qed.

(** X1.  Each of the thirteen endpoints under /suppliers, /clients,
    /item-templates and /estimates (the endpoints that read the
    Authorization header; /health and /signup do not) answers a request
    without a token that the verifier accepts with 401 and one of the
    two messages: the nine that write leave the store and the counters
    as they were, and the four list endpoints give the same
    rejection. *)
Theorem unauthenticated_requests_change_nothing env req st rejected :
  authenticate env (authorization_of req) = inl rejected →
  handle env req st = (rejected, st) ∧
  status rejected = 401 ∧
  (body rejected = P_error "No access token provided" ∨
   body rejected = P_error "Invalid access token") ∧
  get_suppliers env (authorization_of req) st = inl rejected ∧
  get_clients env (authorization_of req) st = inl rejected ∧
  get_item_templates env (authorization_of req) st = inl rejected ∧
  get_estimates env (authorization_of req) st = inl rejected.
Proof.
  intros Hrej.
  split; [apply handle_rejected, Hrej|].
  unfold get_suppliers, get_clients, get_item_templates, get_estimates.
  rewrite Hrej.
  destruct (authenticate_rejection _ _ _ Hrej) as [->| ->]; cbn; auto 10.
Qed.

(** X1 at a request that carries no Authorization header. *)
Lemma unauthenticated_requests_change_nothing_witness :
  handle sample_env (DELETE_suppliers None "ACME") initial
  = (mkResponse 401 (P_error "No access token provided"), initial).
Proof.
  assert (H : authenticate sample_env (authorization_of (DELETE_suppliers None "ACME"))
              = inl (mkResponse 401 (P_error "No access token provided")))
    by reflexivity.
  exact (proj1 (unauthenticated_requests_change_nothing sample_env
                  (DELETE_suppliers None "ACME") initial _ H)).
Defined.

(** X2.  Every answer is 200, 400, 401, 404 or 500, and an answer other
    than 200 leaves the store and the counters as they were: a request
    is applied in full or not at all. *)
Theorem failed_requests_change_nothing env req st :
  let answer := handle env req st in
  (status (fst answer) = 200 ∨ status (fst answer) = 400 ∨
   status (fst answer) = 401 ∨ status (fst answer) = 404 ∨
   status (fst answer) = 500) ∧
  (status (fst answer) ≠ 200 → snd answer = st).
Proof.
  cbv zeta.
  destruct (authenticate env (authorization_of req)) as [rejected|user_id] eqn:Hauth.
  - rewrite (handle_rejected _ _ _ _ Hauth). cbn [fst snd].
    destruct (authenticate_rejection _ _ _ Hauth) as [->| ->]; cbn;
      (split; [auto 10|reflexivity]).
  - destruct req; cbn [handle authorization_of] in *; unfold_handlers;
      rewrite Hauth; repeat case_match; cbn [fst snd status json json_status];
      (split; [auto 10 | intros Hne; try reflexivity; try (exfalso; apply Hne; reflexivity)]).
Qed.

(** X3.  A request changes the collections of nobody but the user whom
    its token resolves to. *)
Theorem other_users_collections_untouched env req st uid :
  authenticate env (authorization_of req) ≠ inr uid →
  collections_of (snd (handle env req st)) uid = collections_of st uid.
Proof.
  intros Hother.
  destruct (authenticate env (authorization_of req)) as [rejected|user_id] eqn:Hauth.
  - rewrite (handle_rejected _ _ _ _ Hauth). reflexivity.
  - assert (Hne : user_id ≠ uid) by congruence.
    destruct req; cbn [handle authorization_of] in *; unfold_handlers;
      rewrite Hauth; repeat case_match; cbn [fst snd]; try reflexivity;
      unfold collections_of, get_or_empty; cbn;
      rewrite ?lookup_insert_ne by exact Hne; reflexivity.
Qed.

(** X3 at a supplier saved by user-1, seen from user-2. *)
Lemma other_users_collections_untouched_witness :
  collections_of
    (snd (handle sample_env
            (POST_suppliers (Some "Bearer token-1") (Some Sequence.DEFAULT_SUPPLIER))
            initial)) "user-2"
  = collections_of initial "user-2".
Proof.
  apply other_users_collections_untouched.
  vm_compute. intros H. discriminate H.
Defined.

Lemma in_map_id_split (param : string) (l : list EstimateRecord) :
  param ∈ List.map id l →
  ∃ n old, l !! n = Some old ∧ id old = param ∧
           Forall (fun e => id e ≠ param) (take n l).
Proof.
  intros Hin.
  destruct (ServerFacts.findIndex_spec (fun e => String.eqb (id e) param) l)
    as [[_ Hall]|(n & old & _ & Hn & Hp & Hbefore)].
  - exfalso. apply list_elem_of_In, in_map_iff in Hin.
    destruct Hin as (e & He & Hin).
    rewrite Forall_forall in Hall. apply list_elem_of_In, Hall in Hin.
    apply String.eqb_neq in Hin. congruence.
  - exists n, old. split; [exact Hn|]. split; [apply String.eqb_eq, Hp|].
    eapply Forall_impl; [exact Hbefore|].
    intros e He. apply String.eqb_neq, He.
Qed.

Lemma not_in_map_id (param : string) (l : list EstimateRecord) :
  param ∉ List.map id l → Forall (fun e => id e ≠ param) l.
Proof.
  intros Hnot. apply Forall_forall. intros e He Heq. apply Hnot.
  apply list_elem_of_In, in_map_iff. exists e. split; [exact Heq|].
  apply list_elem_of_In, He.
Qed.

Lemma map_id_insert (l : list EstimateRecord) n old replacement :
  l !! n = Some old → id replacement = id old →
  List.map id (<[n := replacement]> l) = List.map id l.
Proof.
  intros Hn Hid.
  change (List.map id) with (fmap (M := list) id).
  rewrite list_fmap_insert, Hid. apply list_insert_id.
  rewrite list_lookup_fmap, Hn. reflexivity.
Qed.

(** X4.  PUT /estimates/:id looks at the id alone.  With any body, valid
    or not, it answers 200 when the user holds a record of that id and
    404 otherwise; on 200 the stored array keeps its length and its ids
    in their order, and holds a record with the body and the id; on 404
    nothing changes.  POST refuses a body without an estimate number. *)
Theorem put_estimates_checks_the_id_only env authorization user_id param estimateData st :
  authenticate env authorization = inr user_id →
  let existing := get_or_empty (user_estimates st) user_id in
  let answer := put_estimates env authorization param (Some estimateData) st in
  let stored := get_or_empty (user_estimates (snd answer)) user_id in
  (param ∈ List.map id existing →
   status (fst answer) = 200 ∧
   length stored = length existing ∧
   List.map id stored = List.map id existing ∧
   ∃ record, record ∈ stored ∧ data record = estimateData ∧ id record = param) ∧
  (param ∉ List.map id existing →
   answer = (mkResponse 404 (P_error "Estimate not found"), st)) ∧
  (truthy (EstimateData.estimateNumber estimateData) = false →
   post_estimates env authorization (Some estimateData) st
   = (mkResponse 400 (P_error "Estimate number and client name are required"), st)).
Proof.
  intros Hauth existing answer stored.
  split; [|split].
  - intros Hin.
    destruct (in_map_id_split _ _ Hin) as (n & old & Hn & Hid & Hbefore).
    destruct (ServerFacts.put_estimates_found env authorization user_id param
                estimateData st n old Hauth Hn Hid Hbefore) as (Hresp & Hstored & _).
    fold answer in Hresp, Hstored. fold stored in Hstored. fold existing in Hstored.
    split; [rewrite Hresp; reflexivity|].
    rewrite Hstored.
    split; [apply length_insert|].
    split; [apply (map_id_insert _ _ old); [exact Hn|symmetry; exact Hid]|].
    exists {| data := estimateData; id := param; createdAt := createdAt old;
              updatedAt := clock env (clock_reads st) |}.
    split; [|split; reflexivity].
    eapply list_elem_of_lookup_2. apply list_lookup_insert_eq.
    eapply lookup_lt_Some, Hn.
  - intros Hnot. apply (ServerFacts.put_estimates_not_found _ _ user_id); [exact Hauth|].
    apply not_in_map_id, Hnot.
  - intros Hempty. unfold post_estimates. rewrite Hauth, Hempty. reflexivity.
Qed.

(** X4 at a record saved a moment ago, updated with a body whose
    estimate number and client name are empty. *)
Lemma put_estimates_checks_the_id_only_witness :
  let posted :=
    post_estimates sample_env (Some "Bearer token-1") (Some sample_estimate) initial in
  let blank := fst (Sequence.createInitialEstimate ""
                      (Sequence.mkWorld false Sequence.Missing false "")) in
  status (fst (put_estimates sample_env (Some "Bearer token-1")
                 "1700000000000_k3x9q2m7p"
                 (Some (Store.with_estimateNumber "" blank)) (snd posted))) = 200.
Proof.
  cbv zeta.
  assert (Hauth : authenticate sample_env (Some "Bearer token-1") = inr "user-1")
    by reflexivity.
  refine (proj1 (proj1 (put_estimates_checks_the_id_only sample_env _ "user-1"
                          "1700000000000_k3x9q2m7p" _ _ Hauth) _)).
  vm_compute. apply list_elem_of_here.
Defined.

(** X5.  What an answer carries is what the store holds afterwards: the
    array in the answer to a POST or DELETE on suppliers, clients or
    item templates, or to a DELETE on estimates, is the array that the
    list endpoint returns next; the record in the answer to a POST or
    PUT on estimates is in the list of estimates; an error answer goes
    with an untouched store. *)
Theorem answers_tell_the_stored_state env req st :
  let answer := handle env req st in
  let authorization := authorization_of req in
  match body (fst answer) with
  | P_suppliers _ suppliers =>
      get_suppliers env authorization (snd answer) = inr suppliers
  | P_clients _ clients =>
      get_clients env authorization (snd answer) = inr clients
  | P_itemTemplates _ itemTemplates =>
      get_item_templates env authorization (snd answer) = inr itemTemplates
  | P_estimates _ estimates =>
      get_estimates env authorization (snd answer) = inr estimates
  | P_estimate _ estimate =>
      ∃ estimates, get_estimates env authorization (snd answer) = inr estimates ∧
                   estimate ∈ estimates
  | P_error _ => snd answer = st
  end.
Proof.
  cbv zeta.
  destruct (authenticate env (authorization_of req)) as [rejected|user_id] eqn:Hauth.
  - rewrite (handle_rejected _ _ _ _ Hauth). cbn [fst snd].
    destruct (authenticate_rejection _ _ _ Hauth) as [->| ->]; reflexivity.
  - unfold get_suppliers, get_clients, get_item_templates, get_estimates.
    rewrite Hauth.
    destruct req; cbn [handle authorization_of] in *; unfold_handlers;
      rewrite Hauth; repeat case_match;
      cbn [fst snd body json json_status] in *; simplify_eq;
      try reflexivity;
      rewrite ?ServerFacts.get_set_suppliers, ?ServerFacts.get_set_clients,
        ?ServerFacts.get_set_item_templates; try reflexivity.
    + eexists. split; [rewrite ServerFacts.get_set_estimates; reflexivity|].
      apply list_elem_of_here.
    + eexists. split; [rewrite ServerFacts.get_set_estimates; reflexivity|].
      eapply list_elem_of_lookup_2. apply list_lookup_insert_eq.
      eapply lookup_lt_Some. eassumption.
    + rewrite ServerFacts.get_set_estimates. reflexivity.
Qed.

Lemma filter_insert_rejected {A} (keep : A → bool) (l : list A) n old x :
  l !! n = Some old → keep old = false → keep x = false →
  List.filter keep (<[n := x]> l) = List.filter keep l.
Proof.
  revert n. induction l as [|y l IH]; intros [|n] Hn Hold Hx; simpl in *;
    try discriminate.
  - injection Hn as ->. rewrite Hold, Hx. reflexivity.
  - rewrite (IH n Hn Hold Hx). reflexivity.
Qed.

Lemma filter_app_rejected {A} (keep : A → bool) (l : list A) x :
  keep x = false → List.filter keep (l ++ [x]) = List.filter keep l.
Proof.
  intros Hx. rewrite List.filter_app. cbn. rewrite Hx. apply app_nil_r.
Qed.

(** X6.  A supplier is saved and then deleted by its company name,
    which is the route parameter that the router hands over.  For a
    name without [%], which the handler's own decoding leaves as it
    is, the collection is left as the deletion alone would leave it,
    with no record of that name, and is back as it was if no record had
    the name.  For a name on which [decodeURIComponent] throws, such as
    [50%], the DELETE is answered 500 and the saved record stays. *)
Theorem post_then_delete_supplier env authorization user_id supplier st :
  authenticate env authorization = inr user_id →
  URI.standard env →
  Supplier.companyName supplier ≠ "" →
  let name := Supplier.companyName supplier in
  let existing := get_or_empty (user_suppliers st) user_id in
  let posted := snd (post_suppliers env authorization (Some supplier) st) in
  let left_over st' :=
    get_or_empty (user_suppliers (snd (delete_suppliers env authorization name st')))
      user_id in
  (URI.no_percent name = true →
   left_over posted = left_over st ∧
   Forall (fun s => Supplier.companyName s ≠ name) (left_over posted) ∧
   (Forall (fun s => Supplier.companyName s ≠ name) existing →
    left_over posted = existing)) ∧
  (URI.decodeURIComponent name = None →
   delete_suppliers env authorization name posted
   = (mkResponse 500 (P_error "Error deleting supplier"), posted) ∧
   supplier ∈ get_or_empty (user_suppliers posted) user_id).
Proof.
  intros Hauth Hstandard Hname name existing posted left_over.
  assert (Hposted : get_or_empty (user_suppliers posted) user_id
                    = saved_suppliers supplier existing).
  { unfold posted.
    rewrite (ServerFacts.post_suppliers_ok env authorization user_id supplier st
               Hauth Hname).
    cbn [snd]. apply ServerFacts.get_set_suppliers. }
  split.
  - intros Hplain.
    assert (Hparam : decodeURIComponent env name = Some name).
    { rewrite Hstandard. apply ServerFacts.decodeURIComponent_no_percent, Hplain. }
    set (keep := fun s => negb (String.eqb (Supplier.companyName s) name)).
    assert (Hleft : ∀ st', left_over st'
                           = List.filter keep (get_or_empty (user_suppliers st') user_id)).
    { intros st'. unfold left_over.
      rewrite (ServerFacts.delete_suppliers_ok env authorization user_id Hauth
                 name name st' Hparam).
      cbn [snd]. apply ServerFacts.get_set_suppliers. }
    assert (Hkeep : keep supplier = false).
    { unfold keep, name. rewrite String.eqb_refl. reflexivity. }
    assert (Hsame : left_over posted = left_over st).
    { rewrite !Hleft, Hposted. fold existing.
      destruct (ServerFacts.saved_suppliers_spec supplier existing)
        as [(n & old & Hn & Hold & _ & -> & _)|[_ ->]].
      - apply (filter_insert_rejected keep existing n old); [exact Hn| |exact Hkeep].
        unfold keep. fold name in Hold. rewrite Hold, String.eqb_refl. reflexivity.
      - apply filter_app_rejected, Hkeep. }
    split; [exact Hsame|]. split.
    + rewrite Hsame, Hleft. apply Forall_forall. intros s Hs.
      apply list_elem_of_In, filter_In in Hs. destruct Hs as [_ Hs].
      unfold keep in Hs. apply negb_true_iff, String.eqb_neq in Hs. exact Hs.
    + intros Habsent. rewrite Hsame, Hleft. fold existing.
      apply ServerFacts.filter_none_rejected.
      eapply Forall_impl; [exact Habsent|].
      intros s Hs. unfold keep. apply negb_true_iff, String.eqb_neq, Hs.
  - intros Hthrows. split.
    + unfold delete_suppliers. rewrite Hauth, Hstandard, Hthrows. reflexivity.
    + rewrite Hposted.
      destruct (ServerFacts.saved_suppliers_spec supplier existing)
        as [(n & old & Hn & _ & _ & -> & _)|[_ ->]].
      * eapply list_elem_of_lookup_2. apply list_lookup_insert_eq.
        eapply lookup_lt_Some, Hn.
      * apply elem_of_app. right. apply list_elem_of_here.
Qed.

(** X6 at the default supplier, saved into the empty store and deleted. *)
Lemma post_then_delete_supplier_witness :
  let posted :=
    snd (post_suppliers URI.runtime_env (Some "Bearer token-1")
           (Some Sequence.DEFAULT_SUPPLIER) initial) in
  get_or_empty
    (user_suppliers (snd (delete_suppliers URI.runtime_env (Some "Bearer token-1")
                            "오빠두엑셀" posted))) "user-1"
  = [].
Proof.
  cbv zeta.
  assert (Hauth : authenticate URI.runtime_env (Some "Bearer token-1") = inr "user-1")
    by reflexivity.
  assert (Hstandard : URI.standard URI.runtime_env) by (intros s; reflexivity).
  assert (Hname : Supplier.companyName Sequence.DEFAULT_SUPPLIER ≠ "")
    by (intros H; discriminate H).
  refine (proj2 (proj2 (proj1 (post_then_delete_supplier URI.runtime_env _ "user-1"
                                 Sequence.DEFAULT_SUPPLIER initial
                                 Hauth Hstandard Hname) _)) _).
  - reflexivity.
  - apply Forall_nil_2.
Defined.

(** X7.  Once DELETE /estimates/:id has been answered, no record of the
    user has that id, the other records are there in their order, and
    a PUT for the id is answered 404 and changes nothing. *)
Theorem deleted_estimate_cannot_be_updated env authorization user_id param estimateData st :
  authenticate env authorization = inr user_id →
  let existing := get_or_empty (user_estimates st) user_id in
  let deleted := snd (delete_estimates env authorization param st) in
  let left_over := get_or_empty (user_estimates deleted) user_id in
  left_over = List.filter (fun e => negb (String.eqb (id e) param)) existing ∧
  (param ∉ List.map id left_over) ∧
  put_estimates env authorization param (Some estimateData) deleted
  = (mkResponse 404 (P_error "Estimate not found"), deleted).
Proof.
  intros Hauth existing deleted left_over.
  assert (Hleft : left_over
                  = List.filter (fun e => negb (String.eqb (id e) param)) existing).
  { unfold left_over, deleted, delete_estimates. rewrite Hauth. cbn [snd].
    apply ServerFacts.get_set_estimates. }
  assert (Hnone : Forall (fun e => id e ≠ param) left_over).
  { rewrite Hleft. apply Forall_forall. intros e He.
    apply list_elem_of_In, filter_In in He. destruct He as [_ He].
    apply negb_true_iff, String.eqb_neq in He. exact He. }
  split; [exact Hleft|]. split.
  - intros Hin. apply list_elem_of_In, in_map_iff in Hin.
    destruct Hin as (e & He & Hin).
    rewrite Forall_forall in Hnone. apply list_elem_of_In, Hnone in Hin.
    contradiction.
  - apply (ServerFacts.put_estimates_not_found _ _ user_id); [exact Hauth|exact Hnone].
Qed.

(** X7 at a record saved a moment ago. *)
Lemma deleted_estimate_cannot_be_updated_witness :
  let posted :=
    snd (post_estimates sample_env (Some "Bearer token-1") (Some sample_estimate) initial) in
  let deleted :=
    snd (delete_estimates sample_env (Some "Bearer token-1") "1700000000000_k3x9q2m7p"
           posted) in
  put_estimates sample_env (Some "Bearer token-1") "1700000000000_k3x9q2m7p"
    (Some sample_estimate) deleted
  = (mkResponse 404 (P_error "Estimate not found"), deleted).
Proof.
  cbv zeta.
  assert (Hauth : authenticate sample_env (Some "Bearer token-1") = inr "user-1")
    by reflexivity.
  exact (proj2 (proj2 (deleted_estimate_cannot_be_updated sample_env _ "user-1"
                         "1700000000000_k3x9q2m7p" sample_estimate _ Hauth))).
Defined.

Lemma upsert_keys_sound {A} (key : A → option string) (test : A → bool) (x : A)
    (l : list A) :
  (∀ y, test y = true ↔ key y = key x) →
  truthy_opt (key x) = true →
  keys_sound key l →
  keys_sound key
    (if 0 <=? JSArray.findIndex test l
     then <[Z.to_nat (JSArray.findIndex test l) := x]> l
     else l ++ [x]).
Proof.
  intros Htest Hx [Hall Hnodup].
  destruct (ServerFacts.findIndex_spec test l)
    as [[-> Hnone]|(n & old & -> & Hn & Hold & _)].
  - change (0 <=? -1) with false. cbv iota. split.
    + apply Forall_app. split; [exact Hall|]. apply Forall_cons. split; [exact Hx|constructor].
    + rewrite List.map_app. cbn [List.map]. apply NoDup_app. split; [exact Hnodup|].
      split; [|apply NoDup_singleton].
      intros k Hk Hk'. apply list_elem_of_singleton in Hk'. subst k.
      apply list_elem_of_In, in_map_iff in Hk. destruct Hk as (y & Hy & Hin).
      rewrite Forall_forall in Hnone. apply list_elem_of_In, Hnone in Hin.
      apply Htest in Hy. congruence.
  - replace (0 <=? Z.of_nat n) with true by (symmetry; apply Z.leb_le; lia).
    rewrite Nat2Z.id. split.
    + apply Forall_insert; [exact Hall|exact Hx].
    + change (List.map key) with (fmap (M := list) key) in *.
      rewrite list_fmap_insert, list_insert_id; [exact Hnodup|].
      rewrite list_lookup_fmap, Hn. cbn. f_equal. apply Htest, Hold.
Qed.

Lemma filter_keys_sound {A} (key : A → option string) (keep : A → bool) (l : list A) :
  keys_sound key l → keys_sound key (List.filter keep l).
Proof.
  intros [Hall Hnodup]. split; [|apply ServerFacts.filter_unique, Hnodup].
  apply Forall_forall. intros x Hx. apply list_elem_of_In, filter_In in Hx.
  destruct Hx as [Hx _]. rewrite Forall_forall in Hall.
  apply Hall, list_elem_of_In, Hx.
Qed.

Lemma get_or_empty_insert {A} (m : gmap string (list A)) uid uid' v :
  get_or_empty (<[uid := v]> m) uid' = if decide (uid = uid') then v else get_or_empty m uid'.
Proof.
  unfold get_or_empty. destruct (decide (uid = uid')) as [->|Hne].
  - rewrite lookup_insert_eq. reflexivity.
  - rewrite lookup_insert_ne by exact Hne. reflexivity.
Qed.

Lemma set_suppliers_sound uid v st :
  store_sound st → keys_sound (fun s => Some (Supplier.companyName s)) v →
  store_sound (set_suppliers uid v st).
Proof.
  intros Hst Hv uid'. destruct (Hst uid') as (Hs & Hc & Ht).
  cbn [set_suppliers user_suppliers user_clients user_item_templates].
  rewrite get_or_empty_insert. destruct (decide (uid = uid')); auto.
Qed.

Lemma set_clients_sound uid v st :
  store_sound st → keys_sound Client.name v → store_sound (set_clients uid v st).
Proof.
  intros Hst Hv uid'. destruct (Hst uid') as (Hs & Hc & Ht).
  cbn [set_clients user_suppliers user_clients user_item_templates].
  rewrite get_or_empty_insert. destruct (decide (uid = uid')); auto.
Qed.

Lemma set_item_templates_sound uid v st :
  store_sound st → keys_sound Item.name v → store_sound (set_item_templates uid v st).
Proof.
  intros Hst Hv uid'. destruct (Hst uid') as (Hs & Hc & Ht).
  cbn [set_item_templates user_suppliers user_clients user_item_templates].
  rewrite get_or_empty_insert. destruct (decide (uid = uid')); auto.
Qed.

Lemma handle_keeps_store_sound env req st :
  store_sound st → store_sound (snd (handle env req st)).
Proof.
  intros Hst.
  destruct (authenticate env (authorization_of req)) as [rejected|user_id] eqn:Hauth.
  { rewrite (handle_rejected _ _ _ _ Hauth). exact Hst. }
  destruct req as [a [s|]|a [c|]|a [t|]|a j|a i j|a k|a k|a k|a i];
    cbn [handle authorization_of] in *.
  - unfold post_suppliers. rewrite Hauth.
    destruct (negb (truthy (Supplier.companyName s))) eqn:Hkey; [exact Hst|].
    cbn [snd]. apply set_suppliers_sound; [exact Hst|].
    apply (upsert_keys_sound (fun s => Some (Supplier.companyName s))).
    + intros y. rewrite String.eqb_eq. split; [congruence|].
      intros Heq. injection Heq as ->. reflexivity.
    + apply negb_false_iff, Hkey.
    + apply (Hst user_id).
  - unfold post_suppliers. rewrite Hauth. exact Hst.
  - unfold post_clients. rewrite Hauth.
    destruct (negb (truthy_opt (Client.name c))) eqn:Hkey; [exact Hst|].
    cbn [snd]. apply set_clients_sound; [exact Hst|].
    apply (upsert_keys_sound Client.name).
    + intros y. apply bool_decide_eq_true.
    + apply negb_false_iff, Hkey.
    + apply (Hst user_id).
  - unfold post_clients. rewrite Hauth. exact Hst.
  - unfold post_item_templates. rewrite Hauth.
    destruct (negb (truthy_opt (Item.name t))) eqn:Hkey; [exact Hst|].
    cbn [snd]. apply set_item_templates_sound; [exact Hst|].
    apply (upsert_keys_sound Item.name).
    + intros y. apply bool_decide_eq_true.
    + apply negb_false_iff, Hkey.
    + apply (Hst user_id).
  - unfold post_item_templates. rewrite Hauth. exact Hst.
  - unfold post_estimates, now, random_suffix. rewrite Hauth.
    repeat case_match; exact Hst.
  - unfold put_estimates, now. rewrite Hauth.
    repeat case_match; exact Hst.
  - unfold delete_suppliers. rewrite Hauth.
    destruct (decodeURIComponent env k); [|exact Hst].
    cbn [snd]. apply set_suppliers_sound; [exact Hst|].
    apply filter_keys_sound, (Hst user_id).
  - unfold delete_clients. rewrite Hauth.
    destruct (decodeURIComponent env k); [|exact Hst].
    cbn [snd]. apply set_clients_sound; [exact Hst|].
    apply filter_keys_sound, (Hst user_id).
  - unfold delete_item_templates. rewrite Hauth.
    cbn [snd]. apply set_item_templates_sound; [exact Hst|].
    apply filter_keys_sound, (Hst user_id).
  - unfold delete_estimates. rewrite Hauth. exact Hst.
Qed.

(** X8.  Whatever requests the service has handled since the empty
    store, every stored supplier has a non-empty company name, every
    stored client and item template has a non-empty name, and within
    one user's collection no two records share that key. *)
Theorem served_store_is_sound env history : store_sound (serve env history).
Proof.
  unfold serve.
  assert (Hinit : store_sound initial).
  { intros uid. unfold keys_sound, get_or_empty. cbn.
    rewrite !lookup_empty. cbn. repeat split; constructor. }
  revert Hinit. generalize initial.
  induction history as [|req history IH]; intros st Hst; cbn [fold_left].
  - exact Hst.
  - apply IH, handle_keeps_store_sound, Hst.
Qed.

Lemma split_space_piece s : no_space s = true → JSString.split_space s = [s].
Proof.
  induction s as [|c s IH]; simpl; [reflexivity|].
  intros H. apply andb_true_iff in H. destruct H as [Hc Hs].
  apply negb_true_iff in Hc. rewrite Hc, (IH Hs). reflexivity.
Qed.

Lemma split_space_first piece rest :
  no_space piece = true →
  JSString.split_space (piece +:+ (" " +:+ rest)) = piece :: JSString.split_space rest.
Proof.
  induction piece as [|c piece IH]; simpl; [reflexivity|].
  intros H. apply andb_true_iff in H. destruct H as [Hc Hs].
  apply negb_true_iff in Hc. rewrite Hc, (IH Hs). reflexivity.
Qed.

(** X9.  The handlers read the token as the second space-separated piece
    of the Authorization header and nothing else of it: the scheme is
    not compared with Bearer, what follows a second space is dropped, a
    header without a space or with an empty second piece is refused
    before the verifier is asked, and otherwise the verifier decides. *)
Theorem authorization_scheme_is_not_checked env scheme token :
  no_space scheme = true →
  no_space token = true →
  let verdict :=
    if truthy token
    then match getUserFromToken env token with
         | Some user_id => inr user_id
         | None => inl (mkResponse 401 (P_error "Invalid access token"))
         end
    else inl (mkResponse 401 (P_error "No access token provided")) in
  authenticate env (Some (scheme +:+ (" " +:+ token))) = verdict ∧
  (∀ rest, authenticate env (Some (scheme +:+ (" " +:+ (token +:+ (" " +:+ rest)))))
           = verdict) ∧
  authenticate env (Some scheme)
  = inl (mkResponse 401 (P_error "No access token provided")) ∧
  authenticate env None = inl (mkResponse 401 (P_error "No access token provided")).
Proof.
  intros Hscheme Htoken verdict.
  assert (Hsecond : ∀ pieces,
            JSString.split_space (scheme +:+ (" " +:+ token)) !! 1%nat = Some token ∧
            JSString.split_space (scheme +:+ (" " +:+ (token +:+ (" " +:+ pieces))))
              !! 1%nat = Some token).
  { intros pieces.
    rewrite !(split_space_first scheme) by exact Hscheme.
    rewrite (split_space_first token) by exact Htoken.
    rewrite (split_space_piece token) by exact Htoken. split; reflexivity. }
  assert (Hverdict : ∀ header,
            JSString.split_space header !! 1%nat = Some token →
            authenticate env (Some header) = verdict).
  { intros header Hheader. unfold authenticate, verdict. rewrite Hheader.
    change (default "" (Some token)) with token. cbn [truthy_opt].
    destruct (truthy token); cbn [negb]; [|reflexivity].
    destruct (getUserFromToken env token); reflexivity. }
  split; [apply Hverdict, (Hsecond "")|].
  split; [intros rest; apply Hverdict, (Hsecond rest)|].
  split; [|reflexivity].
  unfold authenticate. rewrite (split_space_piece scheme) by exact Hscheme.
  reflexivity.
Qed.

(** X9 at a header whose scheme is Basic. *)
Lemma authorization_scheme_is_not_checked_witness :
  authenticate sample_env (Some "Basic token-1") = inr "user-1".
Proof.
  assert (Hscheme : no_space "Basic" = true) by reflexivity.
  assert (Htoken : no_space "token-1" = true) by reflexivity.
  exact (proj1 (authorization_scheme_is_not_checked sample_env "Basic" "token-1"
                  Hscheme Htoken)).
Defined.

(** X27.  For a key without [%] (the route parameter, which the
    handlers of suppliers and clients decode a second time and find
    unchanged), an authenticated DELETE on suppliers, clients or item
    templates whose key matches no record of the user's collection is
    answered 200 with the collection as it was; no DELETE on these
    collections answers 404; and a second DELETE with the same key
    answers as the first and leaves the store as the first left it. *)
Theorem delete_of_plain_key_is_idempotent env authorization user_id key st :
  authenticate env authorization = inr user_id →
  URI.standard env →
  URI.no_percent key = true →
  let suppliers := get_or_empty (user_suppliers st) user_id in
  let clients := get_or_empty (user_clients st) user_id in
  let templates := get_or_empty (user_item_templates st) user_id in
  (Forall (fun s => Supplier.companyName s ≠ key) suppliers →
   delete_suppliers env authorization key st
   = (mkResponse 200 (P_suppliers "Supplier deleted successfully" suppliers),
      set_suppliers user_id suppliers st) ∧
   get_or_empty (user_suppliers (snd (delete_suppliers env authorization key st))) user_id
   = suppliers) ∧
  (Forall (fun c => Client.name c ≠ Some key) clients →
   delete_clients env authorization key st
   = (mkResponse 200 (P_clients "Client deleted successfully" clients),
      set_clients user_id clients st) ∧
   get_or_empty (user_clients (snd (delete_clients env authorization key st))) user_id
   = clients) ∧
  (Forall (fun t => Item.name t ≠ Some key) templates →
   delete_item_templates env authorization key st
   = (mkResponse 200 (P_itemTemplates "Item template deleted successfully" templates),
      set_item_templates user_id templates st) ∧
   get_or_empty
     (user_item_templates (snd (delete_item_templates env authorization key st))) user_id
   = templates) ∧
  (status (fst (delete_suppliers env authorization key st)) ≠ 404 ∧
   status (fst (delete_clients env authorization key st)) ≠ 404 ∧
   status (fst (delete_item_templates env authorization key st)) ≠ 404) ∧
  (let once := delete_suppliers env authorization key st in
   delete_suppliers env authorization key (snd once) = once) ∧
  (let once := delete_clients env authorization key st in
   delete_clients env authorization key (snd once) = once) ∧
  (let once := delete_item_templates env authorization key st in
   delete_item_templates env authorization key (snd once) = once).
Proof.
  intros Hauth Hstandard Hplain suppliers clients templates.
  assert (Hparam : decodeURIComponent env key = Some key).
  { rewrite Hstandard. apply ServerFacts.decodeURIComponent_no_percent, Hplain. }
  destruct (ServerFacts.delete_is_idempotent_when_decoded env authorization user_id
              key key st Hauth Hparam)
    as (Hs & Hc & Ht & H404 & Hs2 & Hc2 & Ht2).
  fold suppliers in Hs. fold clients in Hc. fold templates in Ht.
  split; [|split; [|split; [|split; [exact H404|split; [exact Hs2|split; [exact Hc2|exact Ht2]]]]]].
  - intros Habsent. destruct (Hs Habsent) as [Hanswer Hstored].
    split; [|exact Hstored].
    rewrite (ServerFacts.delete_suppliers_ok env authorization user_id Hauth key key st Hparam).
    rewrite ServerFacts.filter_none_rejected; [reflexivity|].
    eapply Forall_impl; [exact Habsent|].
    intros s Hne. apply negb_true_iff, String.eqb_neq, Hne.
  - intros Habsent. destruct (Hc Habsent) as [Hanswer Hstored].
    split; [|exact Hstored].
    rewrite (ServerFacts.delete_clients_ok env authorization user_id Hauth key key st Hparam).
    rewrite ServerFacts.filter_none_rejected; [reflexivity|].
    eapply Forall_impl; [exact Habsent|].
    intros c Hne. apply negb_true_iff, bool_decide_eq_false, Hne.
  - intros Habsent. destruct (Ht Habsent) as [Hanswer Hstored].
    split; [|exact Hstored].
    rewrite (ServerFacts.delete_item_templates_ok env authorization user_id Hauth key st).
    rewrite ServerFacts.filter_none_rejected; [reflexivity|].
    eapply Forall_impl; [exact Habsent|].
    intros t Hne. apply negb_true_iff, bool_decide_eq_false, Hne.
Qed.

(** X27 for a supplier key that the collection of the user does not hold. *)
Lemma delete_of_plain_key_is_idempotent_witness :
  let st := set_suppliers "user-1" [Sequence.DEFAULT_SUPPLIER] initial in
  fst (delete_suppliers URI.runtime_env (Some "Bearer token-1") "ACME" st)
  = mkResponse 200 (P_suppliers "Supplier deleted successfully" [Sequence.DEFAULT_SUPPLIER]).
Proof.
  intros st.
  assert (Hauth : authenticate URI.runtime_env (Some "Bearer token-1") = inr "user-1")
    by reflexivity.
  assert (Hstandard : URI.standard URI.runtime_env) by (intros s; reflexivity).
  assert (Hplain : URI.no_percent "ACME" = true) by reflexivity.
  destruct (delete_of_plain_key_is_idempotent URI.runtime_env (Some "Bearer token-1")
              "user-1" "ACME" st Hauth Hstandard Hplain) as (Hsuppliers & _).
  destruct Hsuppliers as [Hanswer _].
  - repeat constructor. vm_compute. discriminate.
  - rewrite Hanswer. reflexivity.
Defined.

End ServiceFacts.

(** ** The state store: what edits do to the document *)

Module EditingFacts.
Import EstimateData Store StoreMore.

(** X10.  The dirty test reads the items, the client, the construction
    dates and the two text blocks.  An [updateField] on any other field
    (estimate number or date, the three client mirrors, the supplier,
    the tax option) leaves it as it was, so that after such edits on a
    fresh document New Estimate resets without asking. *)
Theorem unread_fields_never_dirty fv st w :
  unread_by_dirty fv = true →
  let edited := updateField fv st w in
  hasDirtyState (fst edited) = hasDirtyState st ∧
  (hasDirtyState st = false →
   ∀ confirmed, Flow.handleReset confirmed (fst edited) (snd edited)
                = resetEstimate (fst edited) (snd edited)).
Proof.
  intros Hfv edited.
  assert (Hsame : hasDirtyState (fst edited) = hasDirtyState st).
  { unfold edited, updateField, updateField_updater, hasDirtyState.
    destruct fv; try discriminate Hfv; cbn [assign];
      try destruct (Sequence.generateEstimateNumber _ _); reflexivity. }
  split; [exact Hsame|].
  intros Hclean confirmed. unfold Flow.handleReset.
  rewrite Hsame, Hclean. reflexivity.
Qed.

(** X10 at a change of the tax option on a fresh document. *)
Lemma unread_fields_never_dirty_witness :
  let w := Sequence.mkWorld true Sequence.Missing true "2024-05-01" in
  let st := mkState (fst (Sequence.createInitialEstimate "2024-05-01" w)) None in
  hasDirtyState (fst (updateField (f_taxOption including) st w)) = hasDirtyState st.
Proof.
  cbv zeta.
  assert (Hfv : unread_by_dirty (f_taxOption including) = true) by reflexivity.
  exact (proj1 (unread_fields_never_dirty (f_taxOption including) _ _ Hfv)).
Defined.

Lemma updateClient_synced client e :
  mirrors_synced e → no_undefined client → mirrors_synced (updateClient_updater client e).
Proof.
  intros (Hn & Hp & He) (Hun & Hup & Hue). unfold mirrors_synced.
  cbn [updateClient_updater EstimateData.client clientName clientPhone clientEmail
       Client.merge Client.name Client.phone Client.email].
  destruct (Client.p_name client), (Client.p_phone client), (Client.p_email client);
    try contradiction; cbn [spread read nullish]; auto.
Qed.

(** X11.  The three mirrors repeat the client object for as long as no
    patch sets name, phone or email to undefined: the fresh document has
    them equal, and every [updateClient] call of that kind keeps them
    equal.  A patch with [name: undefined] breaks it: the client then
    has no name while the mirror keeps its string. *)
Theorem mirrors_follow_the_client calls st :
  mirrors_synced (estimate st) →
  Forall no_undefined calls →
  mirrors_synced (estimate (updateClient_calls calls st)) ∧
  (∀ w, mirrors_synced (estimate (fst (resetEstimate st w)))) ∧
  (∀ client, Client.p_name client = Undefined →
             ¬ mirrors_synced (estimate (updateClient client st))).
Proof.
  intros Hsynced Hcalls. split; [|split].
  - revert st Hsynced. induction Hcalls as [|client calls Hclient _ IH];
      intros st Hsynced; [exact Hsynced|].
    cbn [updateClient_calls fold_left]. apply IH.
    apply updateClient_synced; assumption.
  - intros w. unfold resetEstimate, Sequence.createInitialEstimate.
    destruct (Sequence.generateEstimateNumber _ _). repeat split.
  - intros client Hundefined (Hname & _).
    cbn [updateClient estimate updateClient_updater EstimateData.client Client.merge
         Client.name] in Hname.
    rewrite Hundefined in Hname. discriminate Hname.
Qed.

(** X11 at two patches on a fresh document. *)
Lemma mirrors_follow_the_client_witness :
  let w := Sequence.mkWorld true Sequence.Missing true "2024-05-01" in
  let st := mkState (fst (Sequence.createInitialEstimate "2024-05-01" w)) None in
  mirrors_synced
    (estimate (updateClient_calls
                 [Client.mkPartial (Value "Kim") Absent (Value "a@b.c") Absent;
                  Client.mkPartial Absent (Value "010") Absent (Value "Seoul")] st)).
Proof.
  cbv zeta.
  refine (proj1 (mirrors_follow_the_client _ _ _ _)).
  - repeat split.
  - repeat constructor; intros H; discriminate H.
Defined.

Lemma filter_from_in_range {A} (l : list A) n i index :
  index = i + Z.of_nat n → (n < length l)%nat →
  JSArray.filter_from i (fun _ j => negb (j =? index)) l = take n l ++ drop (S n) l.
Proof.
  revert n i. induction l as [|x l IH]; intros n i Hindex Hn; cbn in Hn; [lia|].
  cbn [JSArray.filter_from]. destruct n as [|n].
  - replace (i =? index) with true by (symmetry; apply Z.eqb_eq; lia).
    cbn [negb take drop app].
    apply StoreFacts.filter_from_out_of_range. left. lia.
  - replace (i =? index) with false by (symmetry; apply Z.eqb_neq; lia).
    cbn [negb take drop app]. f_equal. apply IH; lia.
Qed.

Lemma map_from_in_range {A} (f : A → A) (l : list A) n i index x :
  index = i + Z.of_nat n → l !! n = Some x →
  JSArray.map_from i (fun existing j => if j =? index then f existing else existing) l
  = <[n := f x]> l.
Proof.
  revert n i. induction l as [|y l IH]; intros n i Hindex Hn; [discriminate Hn|].
  cbn [JSArray.map_from]. destruct n as [|n].
  - injection Hn as ->.
    replace (i =? index) with true by (symmetry; apply Z.eqb_eq; lia).
    cbn. f_equal. apply StoreFacts.map_from_out_of_range. left. lia.
  - replace (i =? index) with false by (symmetry; apply Z.eqb_neq; lia).
    cbn. f_equal. apply IH; [lia|exact Hn].
Qed.

Lemma merge_empty_patch item : Item.merge item empty_patch = item.
Proof. destruct item. reflexivity. Qed.

(** X12.  On a slot that exists, [removeItem] takes out that slot and
    no other, and [updateItem] rewrites that slot and no other, with
    the patch spread over what the slot held; a patch without
    properties on an item changes nothing. *)
Theorem item_edits_in_range n slot patch st :
  items (estimate st) !! n = Some slot →
  let index := Z.of_nat n in
  items (estimate (removeItem index st))
  = take n (items (estimate st)) ++ drop (S n) (items (estimate st)) ∧
  S (length (items (estimate (removeItem index st)))) = length (items (estimate st)) ∧
  items (estimate (updateItem index patch st))
  = <[n := Some (Item.merge (default Item.empty slot) patch)]> (items (estimate st)) ∧
  (∀ item, slot = Some item → updateItem index empty_patch st = st).
Proof.
  intros Hslot index.
  assert (Hn : (n < length (items (estimate st)))%nat) by (eapply lookup_lt_Some, Hslot).
  assert (Hremove : items (estimate (removeItem index st))
                    = take n (items (estimate st)) ++ drop (S n) (items (estimate st))).
  { cbn [removeItem estimate with_items items]. unfold JSArray.filter.
    apply filter_from_in_range; [reflexivity|exact Hn]. }
  assert (Hupdate : ∀ p, items (estimate (updateItem index p st))
                         = <[n := Some (Item.merge (default Item.empty slot) p)]>
                             (items (estimate st))).
  { intros p. cbn [updateItem estimate with_items items]. unfold JSArray.map.
    apply (map_from_in_range
             (fun existing => Some (Item.merge (default Item.empty existing) p)));
      [reflexivity|exact Hslot]. }
  split; [exact Hremove|]. split.
  - rewrite Hremove, length_app, length_take, length_drop. lia.
  - split; [apply Hupdate|].
    intros item ->. specialize (Hupdate empty_patch).
    cbn [default] in Hupdate. rewrite merge_empty_patch in Hupdate.
    rewrite list_insert_id in Hupdate by exact Hslot.
    unfold updateItem in *. cbn [estimate items with_items] in Hupdate.
    rewrite Hupdate, StoreFacts.with_items_same. destruct st. reflexivity.
Qed.

(** X12 at the second of two items. *)
Lemma item_edits_in_range_witness :
  let w := Sequence.mkWorld true Sequence.Missing true "2024-05-01" in
  let a := Item.make "A" 2 1000 "EA" "" in
  let b := Item.make "B" 1 500 "EA" "" in
  let st := appendItems [a; b]
              (mkState (fst (Sequence.createInitialEstimate "2024-05-01" w)) None) in
  items (estimate (removeItem 1 st)) = [Some a].
Proof.
  cbv zeta.
  refine (proj1 (item_edits_in_range 1 (Some (Item.make "B" 1 500 "EA" ""))
                   empty_patch _ _)).
  reflexivity.
Defined.

Lemma splice_take_out {A} (l : list A) n x :
  l !! n = Some x →
  JSArray.splice (Z.of_nat n) 1 [] l = ([x], take n l ++ drop (S n) l).
Proof.
  intros Hx. assert (Hn : (n < length l)%nat) by (eapply lookup_lt_Some, Hx).
  unfold JSArray.splice.
  replace (Z.of_nat n <? 0) with false by (symmetry; apply Z.ltb_ge; lia).
  replace (Z.min (Z.of_nat n) (Z.of_nat (length l))) with (Z.of_nat n) by lia.
  replace (Z.min (Z.max 1 0) (Z.of_nat (length l) - Z.of_nat n)) with 1 by lia.
  rewrite Nat2Z.id. change (Z.to_nat 1) with 1%nat.
  rewrite (drop_S l x n Hx), Nat.add_1_r. reflexivity.
Qed.

Lemma splice_put_in {A} (l : list A) n x :
  (n <= length l)%nat →
  JSArray.splice (Z.of_nat n) 0 [x] l = ([], take n l ++ x :: drop n l).
Proof.
  intros Hn. unfold JSArray.splice.
  replace (Z.of_nat n <? 0) with false by (symmetry; apply Z.ltb_ge; lia).
  replace (Z.min (Z.of_nat n) (Z.of_nat (length l))) with (Z.of_nat n) by lia.
  replace (Z.min (Z.max 0 0) (Z.of_nat (length l) - Z.of_nat n)) with 0 by lia.
  rewrite Nat2Z.id. change (Z.to_nat 0) with 0%nat.
  rewrite Nat.add_0_r. reflexivity.
Qed.

Lemma splice_beyond {A} (l : list A) index x :
  Z.of_nat (length l) <= index →
  JSArray.splice index 1 [] l = ([], l) ∧
  JSArray.splice index 0 [x] l = ([], l ++ [x]).
Proof.
  intros Hindex. unfold JSArray.splice.
  replace (index <? 0) with false by (symmetry; apply Z.ltb_ge; lia).
  replace (Z.min index (Z.of_nat (length l))) with (Z.of_nat (length l)) by lia.
  rewrite Z.sub_diag.
  replace (Z.min (Z.max 1 0) 0) with 0 by lia.
  replace (Z.min (Z.max 0 0) 0) with 0 by lia.
  rewrite Nat2Z.id. change (Z.to_nat 0) with 0%nat.
  rewrite Nat.add_0_r, firstn_all, skipn_all. cbn. rewrite app_nil_r. split; reflexivity.
Qed.

(** The list after an element was taken out at [from] and put in at [to]. *)
Lemma move_in_range {A} (l : list A) from to x :
  l !! from = Some x → (to < length l)%nat →
  let rest := take from l ++ drop (S from) l in
  let moved := take to rest ++ x :: drop to rest in
  moved !! to = Some x ∧ moved ≡ₚ l ∧
  take to moved ++ drop (S to) moved = rest ∧
  take from rest ++ x :: drop from rest = l ∧
  length rest = pred (length l) ∧ length moved = length l.
Proof.
  intros Hx Hto rest moved.
  assert (Hfrom : (from < length l)%nat) by (eapply lookup_lt_Some, Hx).
  assert (Hrest : length rest = pred (length l)).
  { unfold rest. rewrite length_app, length_take, length_drop. lia. }
  assert (Htake : length (take to rest) = to) by (rewrite length_take; lia).
  split; [|split; [|split; [|split; [|split]]]].
  - unfold moved. apply list_lookup_middle. symmetry. exact Htake.
  - unfold moved. rewrite <- Permutation_middle, take_drop. unfold rest.
    rewrite <- delete_take_drop. symmetry. apply delete_Permutation, Hx.
  - unfold moved. rewrite take_app_length' by (symmetry; exact Htake).
    rewrite drop_app_ge by (rewrite Htake; lia). rewrite Htake.
    replace (S to - to)%nat with 1%nat by lia. exact (take_drop to rest).
  - unfold rest. rewrite take_app_length' by (rewrite length_take; lia).
    rewrite drop_app_length' by (rewrite length_take; lia).
    apply take_drop_middle, Hx.
  - exact Hrest.
  - unfold moved. rewrite length_app. cbn. rewrite length_take, length_drop. lia.
Qed.

Lemma moveItem_items from to slot st :
  from ≠ to →
  items (estimate st) !! from = Some slot →
  (to < length (items (estimate st)))%nat →
  let rest := take from (items (estimate st)) ++ drop (S from) (items (estimate st)) in
  moveItem (Z.of_nat from) (Z.of_nat to) st
  = mkState (with_items (take to rest ++ slot :: drop to rest) (estimate st))
            (currentEstimateId st).
Proof.
  intros Hne Hslot Hto rest. unfold moveItem.
  replace (Z.of_nat from =? Z.of_nat to) with false by (symmetry; apply Z.eqb_neq; lia).
  rewrite (splice_take_out _ _ _ Hslot). fold rest.
  destruct (move_in_range _ from to slot Hslot Hto) as (_ & _ & _ & _ & Hrest & _).
  fold rest in Hrest.
  rewrite splice_put_in by (rewrite Hrest; lia). reflexivity.
Qed.

(** X13.  [moveItem] between two different slots that exist rearranges
    the items and loses none: the item of slot [from] is found at slot
    [to], the items are the same up to their order, and moving back
    from [to] to [from] restores the state. *)
Theorem moveItem_in_range from to slot st :
  from ≠ to →
  items (estimate st) !! from = Some slot →
  (to < length (items (estimate st)))%nat →
  let moved := moveItem (Z.of_nat from) (Z.of_nat to) st in
  items (estimate moved) !! to = Some slot ∧
  items (estimate moved) ≡ₚ items (estimate st) ∧
  moveItem (Z.of_nat to) (Z.of_nat from) moved = st.
Proof.
  intros Hne Hslot Hto moved.
  assert (Hfrom : (from < length (items (estimate st)))%nat)
    by (eapply lookup_lt_Some, Hslot).
  destruct (move_in_range _ from to slot Hslot Hto)
    as (Hat & Hperm & Hout & Hback & _ & Hlen).
  unfold moved. rewrite (moveItem_items from to slot st Hne Hslot Hto).
  cbn [estimate items with_items].
  split; [exact Hat|]. split; [exact Hperm|].
  rewrite (moveItem_items to from slot); cbn [estimate items with_items currentEstimateId];
    [|congruence|exact Hat|rewrite Hlen; exact Hfrom].
  rewrite Hout, Hback. destruct st as [e i]. destruct e. reflexivity.
Qed.

(** X13 at three items, the first moved to the end. *)
Lemma moveItem_in_range_witness :
  let w := Sequence.mkWorld true Sequence.Missing true "2024-05-01" in
  let a := Item.make "A" 2 1000 "EA" "" in
  let b := Item.make "B" 1 500 "EA" "" in
  let c := Item.make "C" 3 200 "EA" "" in
  let st := appendItems [a; b; c]
              (mkState (fst (Sequence.createInitialEstimate "2024-05-01" w)) None) in
  items (estimate (moveItem 0 2 st)) !! 2%nat = Some (Some a) ∧
  moveItem 2 0 (moveItem 0 2 st) = st.
Proof.
  cbv zeta.
  assert (Hne : 0%nat ≠ 2%nat) by (intros H; discriminate H).
  pose proof (moveItem_in_range 0 2 (Some (Item.make "A" 2 1000 "EA" ""))
                (appendItems [Item.make "A" 2 1000 "EA" ""; Item.make "B" 1 500 "EA" "";
                              Item.make "C" 3 200 "EA" ""]
                   (mkState (fst (Sequence.createInitialEstimate "2024-05-01"
                                    (Sequence.mkWorld true Sequence.Missing true
                                       "2024-05-01"))) None))
                Hne eq_refl (le_n 3)) as (Hat & _ & Hback).
  split; [exact Hat|exact Hback].
Defined.

(** X14.  The single-file application moves items with the same two
    [splice] calls but without the test [from === to].  For two
    different indices the two versions agree.  For one index twice the
    old version gives the document back when the slot exists, and
    appends an undefined slot when the index is past the end, where the
    store returns the state as it is. *)
Theorem legacy_moveItem_without_guard st :
  let prev := estimate st in
  (∀ from to, from ≠ to →
     Legacy.moveItem from to prev = estimate (moveItem from to st)) ∧
  (∀ n, (n < length (items prev))%nat →
     Legacy.moveItem (Z.of_nat n) (Z.of_nat n) prev = prev) ∧
  (∀ index, Z.of_nat (length (items prev)) <= index →
     items (Legacy.moveItem index index prev) = items prev ++ [None] ∧
     moveItem index index st = st).
Proof.
  cbv zeta. split; [|split].
  - intros from to Hne. unfold Legacy.moveItem, moveItem.
    replace (from =? to) with false by (symmetry; apply Z.eqb_neq, Hne).
    destruct (JSArray.splice from 1 [] (items (estimate st))) as [taken rest].
    destruct (JSArray.splice to 0 _ rest). reflexivity.
  - intros n Hn. destruct (lookup_lt_is_Some_2 _ _ Hn) as [slot Hslot].
    unfold Legacy.moveItem. rewrite (splice_take_out _ _ _ Hslot).
    rewrite splice_put_in by (rewrite length_app, length_take, length_drop; lia).
    rewrite take_app_length' by (rewrite length_take; lia).
    rewrite drop_app_length' by (rewrite length_take; lia).
    rewrite (take_drop_middle _ _ _ Hslot). apply StoreFacts.with_items_same.
  - intros index Hindex. split.
    + unfold Legacy.moveItem.
      destruct (splice_beyond (items (estimate st)) index None Hindex) as [-> ->].
      reflexivity.
    + unfold moveItem. rewrite Z.eqb_refl. reflexivity.
Qed.

(** X14 at index 5 on a document with one item. *)
Lemma legacy_moveItem_without_guard_witness :
  let w := Sequence.mkWorld true Sequence.Missing true "2024-05-01" in
  let a := Item.make "A" 2 1000 "EA" "" in
  let st := appendItems [a]
              (mkState (fst (Sequence.createInitialEstimate "2024-05-01" w)) None) in
  items (Legacy.moveItem 5 5 (estimate st)) = [Some a; None] ∧ moveItem 5 5 st = st.
Proof.
  cbv zeta.
  refine (proj2 (proj2 (legacy_moveItem_without_guard _)) 5 _).
  cbn. lia.
Defined.

Lemma or_else_nullish (p : patch string) (d : string) :
  p ≠ Value "" → Legacy.or_else (read p) d = nullish (read p) d.
Proof.
  intros Hp. destruct p as [| |s]; try reflexivity.
  cbn. destruct s as [|c s]; [contradiction|reflexivity].
Qed.

(** X15.  The single-file application keeps the client mirrors with
    [||] where the store uses [??].  The two agree on every patch that
    supplies no empty string for name, phone or email; a patch with
    [name: ''] clears the mirror in the store and leaves the old name
    in the mirror of the single-file application. *)
Theorem legacy_updateClient_keeps_stale_mirror c prev :
  (no_empty_string c → Legacy.updateClient c prev = updateClient_updater c prev) ∧
  (Client.p_name c = Value "" →
   clientName (updateClient_updater c prev) = "" ∧
   clientName (Legacy.updateClient c prev) = clientName prev ∧
   Client.name (client (Legacy.updateClient c prev)) = Some "").
Proof.
  split.
  - intros (Hn & Hp & He). unfold Legacy.updateClient, updateClient_updater.
    rewrite !or_else_nullish by assumption. reflexivity.
  - intros Hname.
    cbn [Legacy.updateClient updateClient_updater clientName client Client.merge
         Client.name].
    rewrite Hname. repeat split.
Qed.

(** X15 at a patch that clears the name of the client Kim. *)
Lemma legacy_updateClient_keeps_stale_mirror_witness :
  let w := Sequence.mkWorld true Sequence.Missing true "2024-05-01" in
  let kim := updateClient_updater (Client.mkPartial (Value "Kim") Absent Absent Absent)
               (fst (Sequence.createInitialEstimate "2024-05-01" w)) in
  let cleared := Client.mkPartial (Value "") Absent Absent Absent in
  clientName (updateClient_updater cleared kim) = "" ∧
  clientName (Legacy.updateClient cleared kim) = "Kim".
Proof.
  cbv zeta.
  pose proof (proj2 (legacy_updateClient_keeps_stale_mirror
                       (Client.mkPartial (Value "") Absent Absent Absent)
                       (updateClient_updater
                          (Client.mkPartial (Value "Kim") Absent Absent Absent)
                          (fst (Sequence.createInitialEstimate "2024-05-01"
                                  (Sequence.mkWorld true Sequence.Missing true
                                     "2024-05-01"))))) eq_refl)
    as (Hstore & Hlegacy & _).
  split; [exact Hstore|exact Hlegacy].
Defined.

(** X16.  Whenever the single-file application would ask before a
    reset, so does the store: its dirty test accepts every document
    that the old [hasData] accepts.  The converse fails on a document
    whose only entry is the client's phone number. *)
Theorem legacy_hasData_implies_dirty e :
  (Legacy.hasData e = true → Sequence.hasMeaningfulEstimateData e = true) ∧
  (items e = [] → Client.name (client e) = Some "" →
   constructionStartDate e = "" → constructionEndDate e = "" →
   truthy_opt (Client.phone (client e)) = true →
   Legacy.hasData e = false ∧ Sequence.hasMeaningfulEstimateData e = true).
Proof.
  split.
  - unfold Legacy.hasData, Sequence.hasMeaningfulEstimateData.
    destruct (0 <? Z.of_nat (length (items e))); [reflexivity|].
    destruct (truthy_opt (Client.name (client e))); [reflexivity|].
    destruct (truthy (constructionStartDate e)), (truthy (constructionEndDate e));
      cbn [orb]; intros H; try discriminate H;
      destruct (truthy_opt (Client.phone (client e))),
        (truthy_opt (Client.email (client e))),
        (truthy_opt (Client.address (client e))); reflexivity.
  - intros Hitems Hname Hstart Hend Hphone.
    unfold Legacy.hasData, Sequence.hasMeaningfulEstimateData.
    rewrite Hitems, Hname, Hstart, Hend, Hphone. split; reflexivity.
Qed.

(** X16 at a document with a client name. *)
Lemma legacy_hasData_implies_dirty_witness :
  let w := Sequence.mkWorld true Sequence.Missing true "2024-05-01" in
  let kim := updateClient_updater (Client.mkPartial (Value "Kim") Absent Absent Absent)
               (fst (Sequence.createInitialEstimate "2024-05-01" w)) in
  Sequence.hasMeaningfulEstimateData kim = true.
Proof.
  cbv zeta.
  refine (proj1 (legacy_hasData_implies_dirty _) _).
  reflexivity.
Defined.

End EditingFacts.

(** ** The estimate number sequence: a store that cannot be written,
       and the unguarded copy of the single-file application *)

Module SequenceFacts.
Import Storage.

Lemma int_add_0_1 : JSNum.int_add 0 1 = 1.
Proof. reflexivity. Qed.

(** X17.  For a date string, when the sequence store cannot be written
    (there is no window, or [localStorage.setItem] throws and the
    exception is swallowed) and, where there is a window, the stored
    item is absent, unparsable or an object of integer counts with a
    count of the date key among the safe integers:
    [generateEstimateNumber] returns and leaves the browser as it was,
    so that the next call issues the same estimate number again;
    without a window every number ends in 001. *)
Theorem unwritable_store_repeats_numbers date w :
  JSString.date_string date = true →
  hasWindow w && setItem_ok w = false →
  (hasWindow w = true →
   (∃ item, estimateNumbers w = Counts item) ∧
   Z.abs (stored_count w (JSString.remove_hyphens date)) <= JSNum.MAX_SAFE_INTEGER) →
  ∃ number,
    generateEstimateNumber date w = Returned (number, w) ∧
    (hasWindow w = false → number = (JSString.remove_hyphens date +:+ "-") +:+ "001").
Proof.
  intros Hdate Hunwritable Hstate.
  destruct w as [window stored ok day]. cbn in Hunwritable, Hstate.
  unfold generateEstimateNumber, store_read, store_write.
  cbn [hasWindow estimateNumbers setItem_ok today].
  destruct window; cbn [negb].
  - cbn in Hunwritable. subst ok.
    destruct (Hstate eq_refl) as [[item ->] Hcount].
    unfold stored_count in Hcount. cbn [estimateNumbers] in Hcount.
    rewrite Hdate. cbn [negb]. rewrite StorageFacts.count_or_0_default.
    replace (Z.abs _ <=? JSNum.MAX_SAFE_INTEGER) with true
      by (symmetry; apply Z.leb_le; exact Hcount).
    cbn [negb]. eexists. split; [reflexivity|]. intros H. discriminate H.
  - rewrite Hdate. cbn [negb]. unfold Sequence.count_or_0. rewrite lookup_empty.
    change (negb (Z.abs 0 <=? JSNum.MAX_SAFE_INTEGER)) with false. cbv iota.
    rewrite int_add_0_1. eexists. split; reflexivity.
Qed.

(** X17 at a browser whose storage is full. *)
Lemma unwritable_store_repeats_numbers_witness :
  let w := mkWorld true (Counts (Sequence.Parsed {[ "20240501" := 7 ]})) false "2024-05-01" in
  ∃ number, generateEstimateNumber "2024-05-01" w = Returned (number, w).
Proof.
  cbv zeta.
  set (w := mkWorld true (Counts (Sequence.Parsed {[ "20240501" := 7 ]})) false
              "2024-05-01").
  assert (Hstate : hasWindow w = true →
            (∃ item, estimateNumbers w = Counts item) ∧
            Z.abs (stored_count w (JSString.remove_hyphens "2024-05-01"))
            <= JSNum.MAX_SAFE_INTEGER).
  { intros _. split; [eexists; reflexivity|]. vm_compute. discriminate. }
  destruct (unwritable_store_repeats_numbers "2024-05-01" w eq_refl eq_refl Hstate)
    as (number & Hnumber & _).
  exists number. exact Hnumber.
Defined.

(** X18.  [generateEstimateNumber] of the single-file application is the
    function of utils/estimate without its guards.  For a date string,
    a stored item that is absent, unparsable, [null] or an object of
    integer counts, and a count of the date key among the safe
    integers: the old function throws exactly when there is no window,
    the stored text does not parse or parses to [null], or [setItem]
    throws; the guarded one throws exactly when there is a window and
    the stored text parses to [null]; and whenever the old one returns,
    the guarded one returns the same number and leaves the same
    store. *)
Theorem legacy_generateEstimateNumber_unguarded date w :
  JSString.date_string date = true →
  estimateNumbers w ≠ Other →
  Z.abs (stored_count w (JSString.remove_hyphens date)) <= JSNum.MAX_SAFE_INTEGER →
  (Legacy.generateEstimateNumber date w = Thrown
   ↔ hasWindow w = false ∨ estimateNumbers w = Counts Sequence.Corrupt ∨
     estimateNumbers w = Null ∨ setItem_ok w = false) ∧
  (generateEstimateNumber date w = Thrown
   ↔ hasWindow w = true ∧ estimateNumbers w = Null) ∧
  (Legacy.generateEstimateNumber date w ≠ Unmodelled ∧
   generateEstimateNumber date w ≠ Unmodelled) ∧
  (∀ result, Legacy.generateEstimateNumber date w = Returned result →
             generateEstimateNumber date w = Returned result).
Proof.
  intros Hdate Hother Hcount.
  destruct w as [window stored ok day].
  unfold stored_count in Hcount. cbn [estimateNumbers] in Hother, Hcount.
  unfold Legacy.generateEstimateNumber, generateEstimateNumber, store_read, store_write.
  cbn [hasWindow estimateNumbers setItem_ok today].
  destruct window; cbn [negb].
  2:{ rewrite Hdate. cbn [negb]. unfold Sequence.count_or_0. rewrite lookup_empty.
      change (negb (Z.abs 0 <=? JSNum.MAX_SAFE_INTEGER)) with false. cbv iota.
      split; [split; [auto|reflexivity]|].
      split; [split; [intros H; discriminate H|intros [H _]; discriminate H]|].
      split; [split; intros H; discriminate H|intros result H; discriminate H]. }
  destruct stored as [item| |]; [| |contradiction].
  - rewrite Hdate. cbn [negb]. rewrite StorageFacts.count_or_0_default.
    replace (Z.abs _ <=? JSNum.MAX_SAFE_INTEGER) with true
      by (symmetry; apply Z.leb_le; exact Hcount).
    cbn [negb].
    assert (Hsame : match record_of item !! JSString.remove_hyphens date with
                    | Some n => if n =? 0 then 1 else JSNum.int_add n 1
                    | None => 1
                    end
                    = JSNum.int_add (default 0 (record_of item !! JSString.remove_hyphens date)) 1).
    { destruct (record_of item !! JSString.remove_hyphens date) as [n|]; cbn [default];
        [destruct (Z.eqb_spec n 0) as [->|_]|]; rewrite ?int_add_0_1; reflexivity. }
    destruct item as [| |sequences]; cbn [record_of] in *.
    + rewrite lookup_empty in *. cbn [default]. rewrite int_add_0_1.
      destruct ok.
      * split; [split; [intros H; discriminate H|intros [H|[H|[H|H]]]; discriminate H]|].
        split; [split; [intros H; discriminate H|intros [_ H]; discriminate H]|].
        split; [split; intros H; discriminate H|]. intros result H. exact H.
      * split; [split; [auto 6|reflexivity]|].
        split; [split; [intros H; discriminate H|intros [_ H]; discriminate H]|].
        split; [split; intros H; discriminate H|intros result H; discriminate H].
    + split; [split; [auto|reflexivity]|].
      split; [split; [intros H; discriminate H|intros [_ H]; discriminate H]|].
      split; [split; intros H; discriminate H|intros result H; discriminate H].
    + rewrite Hsame. destruct ok.
      * split; [split; [intros H; discriminate H|intros [H|[H|[H|H]]]; discriminate H]|].
        split; [split; [intros H; discriminate H|intros [_ H]; discriminate H]|].
        split; [split; intros H; discriminate H|]. intros result H. exact H.
      * split; [split; [auto 6|reflexivity]|].
        split; [split; [intros H; discriminate H|intros [_ H]; discriminate H]|].
        split; [split; intros H; discriminate H|intros result H; discriminate H].
  - split; [split; [auto|reflexivity]|].
    split; [split; [auto|reflexivity]|].
    split; [split; intros H; discriminate H|intros result H; discriminate H].
Qed.

(** X18 at a browser with a stored count. *)
Lemma legacy_generateEstimateNumber_unguarded_witness :
  let w := mkWorld true (Counts (Sequence.Parsed {[ "20240501" := 7 ]})) true "2024-05-01" in
  ∃ w', generateEstimateNumber "2024-05-01" w = Returned ("20240501-008", w').
Proof.
  cbv zeta.
  set (w := mkWorld true (Counts (Sequence.Parsed {[ "20240501" := 7 ]})) true "2024-05-01").
  assert (Hother : estimateNumbers w ≠ Other) by (intros H; discriminate H).
  assert (Hcount : Z.abs (stored_count w (JSString.remove_hyphens "2024-05-01"))
                   <= JSNum.MAX_SAFE_INTEGER) by (vm_compute; discriminate).
  eexists.
  apply (proj2 (proj2 (proj2 (legacy_generateEstimateNumber_unguarded "2024-05-01" w
                                eq_refl Hother Hcount)))).
  vm_compute. reflexivity.
Defined.

End SequenceFacts.

(** ** The rows of the items tables and the copies of the totals *)

Module RowFacts.
Import JSNum Totals TotalsCopies.

(** The product of two doubles does not depend on their order. *)
Lemma mul_comm (x y : number) : mul x y = mul y x.
Proof.
  unfold mul, SFmul.
  destruct x as [sx|sx| |sx mx ex], y as [sy|sy| |sy my ey]; try reflexivity;
    rewrite (xorb_comm sx sy); try reflexivity.
  rewrite (Pos.mul_comm mx my), (Z.add_comm ex ey). reflexivity.
Qed.

Lemma sum_rows_contributions taxOption (amount : Item.t → number) items :
  (∀ item, amount item = contribution taxOption item) →
  sum_rows (List.map amount items) = subtotal (useTotals items taxOption).
Proof.
  intros Hamount. rewrite TotalsFacts.useTotals_shape. cbn [subtotal].
  unfold sum_rows. f_equal. apply List.map_ext, Hamount.
Qed.

(** X19.  The amounts printed in the rows add up, in the order of the
    table, to the subtotal printed below it: for the rows of the
    context-based preview and of the older preview in both tax modes,
    and for the rows of the prop-based preview when tax is excluded.
    The total on the cards of the saved estimates is the same
    computation as the totals of the preview. *)
Theorem rows_sum_to_subtotal items taxOption :
  sum_rows (List.map (fun item => itemSubtotal (previewLine_004 taxOption item)) items)
  = subtotal (useTotals items taxOption) ∧
  sum_rows (List.map (fun item => totalPrice (previewLine_006 taxOption item)) items)
  = subtotal (calculateTotals items taxOption) ∧
  sum_rows (List.map (fun item => itemSubtotal (previewLine_003 excluding item)) items)
  = subtotal (calculateTotals items excluding) ∧
  calculateEstimateTotal items taxOption = useTotals items taxOption.
Proof.
  rewrite !TotalsFacts.calculateTotals_useTotals.
  split; [|split; [|split]].
  - apply sum_rows_contributions. intros item.
    destruct taxOption; cbn [previewLine_004 itemSubtotal contribution];
      [reflexivity|apply mul_comm].
  - apply sum_rows_contributions. intros item.
    destruct taxOption; reflexivity.
  - apply sum_rows_contributions. intros item. apply mul_comm.
  - destruct taxOption; reflexivity.
Qed.

End RowFacts.

(** ** The currency words in closed form *)

Module WordsFacts.
Import Korean KoreanWords.

Lemma string_app_nil_l (s : string) : "" +:+ s = s.
Proof. reflexivity. Qed.

Lemma string_app_nil_r (s : string) : s +:+ "" = s.
Proof. induction s as [|c s IH]; [reflexivity|]. change (String c (s +:+ "") = String c s). now rewrite IH. Qed.

Lemma string_app_assoc (a b c : string) : (a +:+ b) +:+ c = a +:+ (b +:+ c).
Proof.
  induction a as [|x a IH]; [reflexivity|].
  change (String x ((a +:+ b) +:+ c) = String x (a +:+ (b +:+ c))). now rewrite IH.
Qed.

Lemma digits_of_group t h d o :
  is_digit t → is_digit h → is_digit d → is_digit o →
  let part := 1000 * t + 100 * h + 10 * d + o in
  part / 1000 = t ∧ part mod 1000 / 100 = h ∧ part mod 100 / 10 = d ∧ part mod 10 = o.
Proof.
  intros Ht Hh Hd Ho part. unfold is_digit in *.
  assert (H1000 : part mod 1000 = 100 * h + 10 * d + o).
  { symmetry. apply (Z.mod_unique _ _ t); [left|unfold part]; lia. }
  assert (H100 : part mod 100 = 10 * d + o).
  { symmetry. apply (Z.mod_unique _ _ (10 * t + h)); [left|unfold part]; lia. }
  split; [|split; [|split]].
  - symmetry. apply (Z.div_unique _ _ _ (100 * h + 10 * d + o)); [left|unfold part]; lia.
  - rewrite H1000. symmetry. apply (Z.div_unique _ _ _ (10 * d + o)); [left|]; lia.
  - rewrite H100. symmetry. apply (Z.div_unique _ _ _ o); [left|]; lia.
  - symmetry. apply (Z.mod_unique _ _ (100 * t + 10 * h + d)); [left|unfold part]; lia.
Qed.

Ltac digit_cases d :=
  destruct (Z.ltb_spec 0 d); destruct (Z.eqb_spec d 0); destruct (Z.eqb_spec d 1);
  try lia.

(** X20.  A group of four digits is spelled digit by digit, from the
    thousands down: nothing for a digit 0, the scale word alone (천, 백,
    십) for a digit 1, the digit word and the scale word otherwise, and
    the digit word for the ones; the three copies of the formatter
    spell it alike. *)
Theorem group_is_spelled_digit_by_digit t h d o :
  is_digit t → is_digit h → is_digit d → is_digit o →
  let part := 1000 * t + 100 * h + 10 * d + o in
  partStr_003 part = group_words t h d o ∧
  partStr_004 part = group_words t h d o ∧
  partStr_006 part = group_words t h d o.
Proof.
  intros Ht Hh Hd Ho part.
  rewrite KoreanFacts.partStr_004_003, KoreanFacts.partStr_006_003.
  assert (H : partStr_003 part = group_words t h d o); [|auto].
  destruct (digits_of_group t h d o Ht Hh Hd Ho) as (Et & Eh & Ed & Eo).
  fold part in Et, Eh, Ed, Eo.
  unfold partStr_003. cbv zeta. rewrite Et, Eh, Ed, Eo.
  unfold group_words, scaled, ones_word, is_digit in *.
  digit_cases t; digit_cases h; digit_cases d;
    destruct (Z.ltb_spec 0 o); destruct (Z.eqb_spec o 0); try lia;
    rewrite ?string_app_nil_l, ?string_app_assoc, ?string_app_nil_l, ?string_app_nil_r;
    reflexivity.
Qed.

(** X20 at the group 1015. *)
Lemma group_is_spelled_digit_by_digit_witness : partStr_003 1015 = "천십오".
Proof.
  assert (H0 : is_digit 0) by (unfold is_digit; lia).
  assert (H1 : is_digit 1) by (unfold is_digit; lia).
  assert (H5 : is_digit 5) by (unfold is_digit; lia).
  exact (proj1 (group_is_spelled_digit_by_digit 1 0 1 5 H1 H0 H1 H5)).
Defined.

Lemma loop_003_done unitIndex result : loop_003 0 unitIndex result = result.
Proof. simp loop_003. destruct (Z_lt_dec 0 0) as [H|H]; [lia|]. reflexivity. Qed.

Lemma loop_003_unroll num unitIndex result :
  0 <= num →
  loop_003 num unitIndex result
  = loop_003 (num / 10000) (unitIndex + 1)
      (group (num mod 10000) (at_index units_003 unitIndex) +:+ result).
Proof.
  intros Hnum. unfold group.
  destruct (Z.eq_dec num 0) as [->|Hpos].
  - change (0 / 10000) with 0. change (0 mod 10000) with 0.
    change (0 <? 0) with false. cbv iota. rewrite string_app_nil_l.
    rewrite !loop_003_done. reflexivity.
  - rewrite (loop_003_equation_1 num). destruct (Z_lt_dec 0 num) as [H|H]; [|lia].
    simpl. destruct (0 <? num mod 10000); rewrite ?string_app_nil_l; reflexivity.
Qed.

(** X21.  For an amount from 1 to below 10000^4 (every safe integer is
    one) the formatters give the four-digit groups from the highest
    down, each followed by its unit word 조, 억, 만 or nothing, and
    then 원정; a group that is 0 is left out together with its unit
    word.  The three copies give the same words. *)
Theorem amount_is_spelled_group_by_group num :
  0 < num → num < 10000 ^ 4 →
  numberToKorean_003 num = amount_words num ∧
  formatKoreanCurrency_004 num = amount_words num ∧
  numberToKorean_006 num = amount_words num.
Proof.
  intros Hpos Hbound.
  rewrite KoreanFacts.formatKoreanCurrency_004_003,
    (KoreanFacts.numberToKorean_006_003 num Hbound).
  assert (H : numberToKorean_003 num = amount_words num); [|auto].
  unfold numberToKorean_003, amount_words.
  replace (num =? 0) with false by (symmetry; apply Z.eqb_neq; lia).
  assert (H1 : 0 <= num / 10000) by (apply Z.div_pos; lia).
  assert (H2 : 0 <= num / 10000 / 10000) by (apply Z.div_pos; lia).
  assert (H3 : 0 <= num / 10000 / 10000 / 10000) by (apply Z.div_pos; lia).
  rewrite (loop_003_unroll num) by lia.
  rewrite (loop_003_unroll (num / 10000)) by exact H1.
  rewrite (loop_003_unroll (num / 10000 / 10000)) by exact H2.
  rewrite (loop_003_unroll (num / 10000 / 10000 / 10000)) by exact H3.
  assert (E2 : num / 10000 / 10000 = num / 10000 ^ 2)
    by (rewrite Z.div_div by lia; reflexivity).
  assert (E3 : num / 10000 / 10000 / 10000 = num / 10000 ^ 3)
    by (rewrite !Z.div_div by lia; reflexivity).
  rewrite E3, E2.
  assert (Htop : num / 10000 ^ 3 < 10000)
    by (apply Z.div_lt_upper_bound; lia).
  assert (Htop0 : 0 <= num / 10000 ^ 3) by (apply Z.div_pos; lia).
  rewrite (Z.div_small (num / 10000 ^ 3) 10000) by lia.
  rewrite (Z.mod_small (num / 10000 ^ 3) 10000) by lia.
  rewrite loop_003_done.
  change (at_index units_003 0) with "".
  change (at_index units_003 (0 + 1)) with "만".
  change (at_index units_003 (0 + 1 + 1)) with "억".
  change (at_index units_003 (0 + 1 + 1 + 1)) with "조".
  rewrite !string_app_assoc, string_app_nil_l. reflexivity.
Qed.

(** X21 at one hundred million and five. *)
Lemma amount_is_spelled_group_by_group_witness :
  numberToKorean_003 100000005 = "일억오원정".
Proof.
  assert (Hpos : 0 < 100000005) by lia.
  assert (Hbound : 100000005 < 10000 ^ 4) by (vm_compute; reflexivity).
  exact (proj1 (amount_is_spelled_group_by_group 100000005 Hpos Hbound)).
Defined.

End WordsFacts.

(** ** Saving and loading: the preview, the shell and the service together *)

Module FlowFacts.
Import Server Flow StoreMore.

Lemma issued_id_truthy (stamp suffix : string) : truthy ((stamp +:+ "_") +:+ suffix) = true.
Proof. destruct stamp; reflexivity. Qed.

Section SignedIn.
Variable env : Env.
Variable accessToken : string.
Variable user_id : string.
Hypothesis token_present : truthy accessToken = true.
Hypothesis authenticated :
  authenticate env (Some ("Bearer " +:+ accessToken)) = inr user_id.

Lemma handleSave_new app server :
  client_valid (Store.estimate app) →
  truthy (EstimateData.clientName (Store.estimate app)) = true →
  truthy_opt (Store.currentEstimateId app) = false →
  let record :=
    {| data := Store.estimate app;
       id := (JSString.String_int (clock env (clock_reads server)) +:+ "_")
             +:+ random env (random_draws server);
       createdAt := clock env (S (clock_reads server));
       updatedAt := clock env (S (S (clock_reads server))) |} in
  ∃ server',
    handleSave env accessToken true app server
    = (SaveDone false, Store.mkState (Store.estimate app) (Some (id record)), server') ∧
    get_or_empty (user_estimates server') user_id
    = record :: get_or_empty (user_estimates server) user_id.
Proof.
  intros (Hnumber & Hclient & Hitems) Hmirror Hnew record.
  assert (Hnumber' : EstimateData.estimateNumber (Store.estimate app) ≠ "").
  { intros E. rewrite E in Hnumber. discriminate Hnumber. }
  assert (Hmirror' : EstimateData.clientName (Store.estimate app) ≠ "").
  { intros E. rewrite E in Hmirror. discriminate Hmirror. }
  destruct (ServerFacts.post_estimates_ok env _ user_id (Store.estimate app) server
              authenticated Hnumber' Hmirror') as [Hresponse Hstored].
  fold record in Hresponse, Hstored.
  unfold handleSave. rewrite token_present, Hnumber, Hclient, Hnew. cbn [negb orb].
  destruct (EstimateData.items (Store.estimate app)) as [|item items] eqn:E;
    [contradiction|]. cbn [length Nat.eqb].
  destruct (post_estimates env _ (Some (Store.estimate app)) server)
    as [response server'].
  cbn [fst snd] in Hresponse, Hstored. subst response.
  exists server'. split; [|exact Hstored].
  cbn [ok status body negb andb]. change (200 <=? 200) with true.
  change (200 <=? 299) with true. cbn [negb andb id].
  unfold record. cbn [id]. rewrite issued_id_truthy. reflexivity.
Qed.

Lemma handleSave_update app server current n old :
  client_valid (Store.estimate app) →
  Store.currentEstimateId app = Some current →
  truthy current = true →
  get_or_empty (user_estimates server) user_id !! n = Some old →
  id old = current →
  Forall (fun e => id e ≠ current) (take n (get_or_empty (user_estimates server) user_id)) →
  let replacement :=
    {| data := Store.estimate app; id := current; createdAt := createdAt old;
       updatedAt := clock env (clock_reads server) |} in
  ∃ server',
    handleSave env accessToken true app server = (SaveDone true, app, server') ∧
    get_or_empty (user_estimates server') user_id
    = <[n := replacement]> (get_or_empty (user_estimates server) user_id).
Proof.
  intros (Hnumber & Hclient & Hitems) Hcurrent Htruthy Hold Hid Hbefore replacement.
  destruct (ServerFacts.put_estimates_found env _ user_id current (Store.estimate app)
              server n old authenticated Hold Hid Hbefore) as (Hresponse & Hstored & _).
  fold replacement in Hresponse, Hstored.
  unfold handleSave. rewrite token_present, Hnumber, Hclient, Hcurrent. cbn [negb orb].
  destruct (EstimateData.items (Store.estimate app)) as [|item items] eqn:E;
    [contradiction|]. cbn [length Nat.eqb truthy_opt].
  rewrite Htruthy.
  change (default "" (Some current)) with current.
  destruct (put_estimates env _ current (Some (Store.estimate app)) server)
    as [response server'].
  cbn [fst snd] in Hresponse, Hstored. subst response.
  exists server'. split; [|exact Hstored].
  cbn [ok status body negb andb]. change (200 <=? 200) with true.
  change (200 <=? 299) with true. reflexivity.
Qed.

End SignedIn.

(** X22.  A signed-in user saves a new document, one that JSON
    carries unchanged, twice.  The first save is a POST: the service stores one record in front of the others and
    the shell binds its id.  The second save is a PUT for that id: it
    replaces that record where it is, with the id and createdAt kept,
    and stores no second record. *)
Theorem second_save_updates_the_first env accessToken user_id app server :
  truthy accessToken = true →
  authenticate env (Some ("Bearer " +:+ accessToken)) = inr user_id →
  json_exact (Store.estimate app) →
  client_valid (Store.estimate app) →
  truthy (EstimateData.clientName (Store.estimate app)) = true →
  truthy_opt (Store.currentEstimateId app) = false →
  ∃ record app1 server1 record' server2,
    handleSave env accessToken true app server = (SaveDone false, app1, server1) ∧
    app1 = Store.mkState (Store.estimate app) (Some (id record)) ∧
    get_or_empty (user_estimates server1) user_id
    = record :: get_or_empty (user_estimates server) user_id ∧
    data record = Store.estimate app ∧
    handleSave env accessToken true app1 server1 = (SaveDone true, app1, server2) ∧
    get_or_empty (user_estimates server2) user_id
    = record' :: get_or_empty (user_estimates server) user_id ∧
    id record' = id record ∧ createdAt record' = createdAt record ∧
    data record' = Store.estimate app.
Proof.
  intros Htoken Hauth _ Hvalid Hmirror Hnew.
  destruct (handleSave_new env accessToken user_id Htoken Hauth app server
              Hvalid Hmirror Hnew) as (server1 & Hfirst & Hstored1).
  set (record := {| data := Store.estimate app;
                    id := (JSString.String_int (clock env (clock_reads server)) +:+ "_")
                          +:+ random env (random_draws server);
                    createdAt := clock env (S (clock_reads server));
                    updatedAt := clock env (S (S (clock_reads server))) |}) in *.
  set (app1 := Store.mkState (Store.estimate app) (Some (id record))) in *.
  destruct (handleSave_update env accessToken user_id Htoken Hauth app1 server1
              (id record) 0 record) as (server2 & Hsecond & Hstored2).
  - exact Hvalid.
  - reflexivity.
  - apply issued_id_truthy.
  - rewrite Hstored1. reflexivity.
  - reflexivity.
  - constructor.
  - rewrite Hstored1 in Hstored2. cbn [Store.estimate app1] in Hstored2.
    eexists record, app1, server1, _, server2.
    split; [exact Hfirst|]. split; [reflexivity|]. split; [exact Hstored1|].
    split; [reflexivity|]. split; [exact Hsecond|]. split; [exact Hstored2|].
    repeat split.
Qed.

(** X22 at the sample document, saved into the empty store. *)
Lemma second_save_updates_the_first_witness :
  ∃ record app1 server1 record' server2,
    handleSave sample_env "token-1" true sample_app initial
    = (SaveDone false, app1, server1) ∧
    handleSave sample_env "token-1" true app1 server1 = (SaveDone true, app1, server2) ∧
    get_or_empty (user_estimates server1) "user-1" = [record] ∧
    get_or_empty (user_estimates server2) "user-1" = [record'].
Proof.
  assert (Htoken : truthy "token-1" = true) by reflexivity.
  assert (Hauth : authenticate sample_env (Some ("Bearer " +:+ "token-1")) = inr "user-1")
    by reflexivity.
  assert (Hvalid : client_valid (Store.estimate sample_app)).
  { split; [reflexivity|]. split; [reflexivity|]. intros H. discriminate H. }
  assert (Hmirror : truthy (EstimateData.clientName (Store.estimate sample_app)) = true)
    by reflexivity.
  assert (Hnew : truthy_opt (Store.currentEstimateId sample_app) = false) by reflexivity.
  assert (Hjson : json_exact (Store.estimate sample_app))
    by (repeat constructor).
  destruct (second_save_updates_the_first sample_env "token-1" "user-1" sample_app
              initial Htoken Hauth Hjson Hvalid Hmirror Hnew)
    as (record & app1 & server1 & record' & server2
        & H1 & _ & H2 & _ & H3 & H4 & _).
  exists record, app1, server1, record', server2.
  split; [exact H1|]. split; [exact H3|]. split; [exact H2|exact H4].
Defined.

(** X23.  The preview asks for a client name in the client object, the
    service for one in the mirror [clientName].  A document (one that
    JSON carries unchanged) that passes
    the check of the preview while its mirror is empty is refused by
    the service on its first save, with the message of the service and
    nothing stored; when the mirrors repeat the client, the first save
    of every document that passes the check succeeds. *)
Theorem save_checks_client_but_service_checks_mirror env accessToken user_id app server :
  truthy accessToken = true →
  authenticate env (Some ("Bearer " +:+ accessToken)) = inr user_id →
  json_exact (Store.estimate app) →
  client_valid (Store.estimate app) →
  truthy_opt (Store.currentEstimateId app) = false →
  (EstimateData.clientName (Store.estimate app) = "" →
   handleSave env accessToken true app server
   = (SaveFailed "Estimate number and client name are required", app, server)) ∧
  (mirrors_synced (Store.estimate app) →
   fst (fst (handleSave env accessToken true app server)) = SaveDone false).
Proof.
  intros Htoken Hauth _ Hvalid Hnew. split.
  - intros Hmirror. destruct Hvalid as (Hnumber & Hclient & Hitems).
    unfold handleSave. rewrite Htoken, Hnumber, Hclient, Hnew. cbn [negb orb].
    destruct (EstimateData.items (Store.estimate app)) as [|item items] eqn:E;
      [contradiction|]. cbn [length Nat.eqb].
    unfold post_estimates. rewrite Hauth, Hnumber, Hmirror. reflexivity.
  - intros (Hname & _).
    assert (Hmirror : truthy (EstimateData.clientName (Store.estimate app)) = true).
    { destruct Hvalid as (_ & Hclient & _). rewrite Hname in Hclient. exact Hclient. }
    destruct (handleSave_new env accessToken user_id Htoken Hauth app server
                Hvalid Hmirror Hnew) as (server' & -> & _).
    reflexivity.
Qed.

(** X23 at the sample document with its mirror emptied. *)
Lemma save_checks_client_but_service_checks_mirror_witness :
  let app := Store.mkState (Store.assign (Store.f_clientName "") sample_document) None in
  handleSave sample_env "token-1" true app initial
  = (SaveFailed "Estimate number and client name are required", app, initial).
Proof.
  cbv zeta.
  assert (Htoken : truthy "token-1" = true) by reflexivity.
  assert (Hauth : authenticate sample_env (Some ("Bearer " +:+ "token-1")) = inr "user-1")
    by reflexivity.
  refine (proj1 (save_checks_client_but_service_checks_mirror sample_env "token-1"
                   "user-1" _ initial Htoken Hauth _ _ _) _);
    [repeat constructor| |reflexivity|reflexivity].
  split; [reflexivity|]. split; [reflexivity|]. intros H. discriminate H.
Defined.

(** X24.  A saved estimate (one that JSON carries unchanged) that is
    loaded from My Page and saved again is written over itself: loading puts the record's document into the
    store and binds its id, and the save that follows is a PUT that
    replaces the first record of that id where it stands, whatever the
    mirror [clientName] holds, since PUT does not validate. *)
Theorem loaded_estimate_is_saved_in_place env accessToken user_id app server n record :
  truthy accessToken = true →
  authenticate env (Some ("Bearer " +:+ accessToken)) = inr user_id →
  get_or_empty (user_estimates server) user_id !! n = Some record →
  Forall (fun e => id e ≠ id record)
         (take n (get_or_empty (user_estimates server) user_id)) →
  truthy (id record) = true →
  json_exact (data record) →
  client_valid (data record) →
  let loaded := handleLoadEstimate record app in
  loaded = Store.mkState (data record) (Some (id record)) ∧
  ∃ server',
    handleSave env accessToken true loaded server = (SaveDone true, loaded, server') ∧
    get_or_empty (user_estimates server') user_id
    = <[n := {| data := data record; id := id record; createdAt := createdAt record;
                updatedAt := clock env (clock_reads server) |}]>
        (get_or_empty (user_estimates server) user_id).
Proof.
  intros Htoken Hauth Hrecord Hbefore Hid _ Hvalid loaded.
  assert (Hloaded : loaded = Store.mkState (data record) (Some (id record))).
  { unfold loaded, handleLoadEstimate. rewrite Hid. reflexivity. }
  split; [exact Hloaded|]. rewrite Hloaded.
  apply (handleSave_update env accessToken user_id Htoken Hauth
           (Store.mkState (data record) (Some (id record))) server (id record) n record);
    try assumption; reflexivity.
Qed.

(** X24 at the record that the first save of the sample document stored. *)
Lemma loaded_estimate_is_saved_in_place_witness :
  let record := {| data := sample_document; id := "1700000000000_k3x9q2m7p";
                   createdAt := 1700000000001; updatedAt := 1700000000002 |} in
  handleLoadEstimate record sample_app
  = Store.mkState sample_document (Some "1700000000000_k3x9q2m7p").
Proof.
  cbv zeta.
  assert (Htoken : truthy "token-1" = true) by reflexivity.
  assert (Hauth : authenticate sample_env (Some ("Bearer " +:+ "token-1")) = inr "user-1")
    by reflexivity.
  refine (proj1 (loaded_estimate_is_saved_in_place sample_env "token-1" "user-1"
                   sample_app
                   (snd (handleSave sample_env "token-1" true sample_app initial))
                   0 _ Htoken Hauth _ _ _ _ _)).
  - vm_compute. reflexivity.
  - constructor.
  - reflexivity.
  - repeat constructor.
  - split; [reflexivity|]. split; [reflexivity|]. intros H. discriminate H.
Defined.

End FlowFacts.

(** ** The form: item drafts and the supplier list kept offline *)

Module FormFacts.
Import Form.

Lemma length_filter_from_but_one {A} (index i : Z) (l : list A) :
  (length l
   <= S (length (JSArray.filter_from i (fun _ idx => negb (idx =? index)%Z) l)))%nat.
Proof.
  revert i. induction l as [|x l IH]; intros i; cbn [JSArray.filter_from length]; [lia|].
  destruct (Z.eqb_spec i index) as [->|Hne]; cbn [negb length].
  - rewrite StoreFacts.filter_from_out_of_range by (left; lia). lia.
  - specialize (IH (i + 1)). lia.
Qed.

Lemma edit_keeps_a_row e prev : prev ≠ [] → edit e prev ≠ [].
Proof.
  intros Hprev.
  assert (Hlen : (0 < length prev)%nat) by (destruct prev; [contradiction|cbn; lia]).
  assert (Hgoal : (0 < length (edit e prev))%nat);
    [|intros E; rewrite E in Hgoal; cbn in Hgoal; lia].
  destruct e as [from to|index field value|index|new_id]; cbn [edit].
  - unfold moveDraft.
    pose proof (StoreFacts.length_splice from 1 [] prev) as H1.
    destruct (JSArray.splice from 1 [] prev) as [taken rest].
    pose proof (StoreFacts.length_splice to 0
                  [match taken with x :: _ => x | [] => None end] rest) as H2.
    destruct (JSArray.splice to 0 _ rest) as [taken' next].
    cbn [length] in *. lia.
  - unfold handleDraftChange. destruct (at_index prev index); [|exact Hlen].
    rewrite length_insert. exact Hlen.
  - unfold handleDraftRemove. destruct (length prev =? 1)%nat eqn:E; [exact Hlen|].
    apply Nat.eqb_neq in E. unfold JSArray.filter.
    pose proof (length_filter_from_but_one index 0 prev). lia.
  - unfold handleAddDraftRow. rewrite length_app. cbn. lia.
Qed.

(** X25.  The table of item drafts always has a row: it starts with
    one, and no sequence of moving, changing, removing and adding rows,
    with whatever indices, empties it; the last row is not removed. *)
Theorem drafts_never_run_out edits :
  fold_left (fun drafts e => edit e drafts) edits initial_drafts ≠ [] ∧
  (∀ index draft, handleDraftRemove index [draft] = [draft]).
Proof.
  split; [|reflexivity].
  assert (Hinitial : initial_drafts ≠ []) by (intros H; discriminate H).
  revert Hinitial. generalize initial_drafts.
  induction edits as [|e edits IH]; intros drafts Hdrafts; cbn [fold_left].
  - exact Hdrafts.
  - apply IH, edit_keeps_a_row, Hdrafts.
Qed.

(** X26.  Saving the supplier offline does to the local list what the
    service does to the stored one: the payload is the supplier of the
    document with the document's business fields and footer notes, a
    payload without a company name changes nothing, and otherwise the
    local list becomes what POST /suppliers would answer for the same
    list, with company names still distinct if they were. *)
Theorem offline_supplier_save_mirrors_the_service env authorization user_id estimate st :
  Server.authenticate env authorization = inr user_id →
  let payload := supplierPayload estimate in
  let suppliers := Server.get_or_empty (Server.user_suppliers st) user_id in
  Supplier.businessFields payload = EstimateData.businessFields estimate ∧
  Supplier.footerNotes payload = EstimateData.footerNotes estimate ∧
  (Supplier.companyName (EstimateData.supplier estimate) = "" →
   local_supplier_save estimate suppliers = suppliers) ∧
  (Supplier.companyName (EstimateData.supplier estimate) ≠ "" →
   Server.body (fst (Server.post_suppliers env authorization (Some payload) st))
   = Server.P_suppliers "Supplier saved successfully"
       (local_supplier_save estimate suppliers) ∧
   (Server.unique_companyNames suppliers →
    Server.unique_companyNames (local_supplier_save estimate suppliers))).
Proof.
  intros Hauth payload suppliers.
  split; [reflexivity|]. split; [reflexivity|]. split.
  - intros Hname. unfold local_supplier_save.
    cbn [supplierPayload Supplier.companyName]. rewrite Hname. reflexivity.
  - intros Hname.
    assert (Hlocal : local_supplier_save estimate suppliers
                     = Server.saved_suppliers payload suppliers).
    { unfold local_supplier_save. cbv zeta. fold payload.
      rewrite (ServerFacts.truthy_nonempty (Supplier.companyName payload) Hname).
      reflexivity. }
    rewrite Hlocal. split.
    + rewrite (ServerFacts.post_suppliers_ok env authorization user_id payload st
                 Hauth Hname). reflexivity.
    + apply ServerFacts.saved_suppliers_unique.
Qed.

(** X26 at the fresh document and the empty store. *)
Lemma offline_supplier_save_mirrors_the_service_witness :
  local_supplier_save Server.sample_estimate [] = [Sequence.DEFAULT_SUPPLIER].
Proof.
  assert (Hauth : Server.authenticate Server.sample_env (Some "Bearer token-1")
                  = inr "user-1") by reflexivity.
  pose proof (offline_supplier_save_mirrors_the_service Server.sample_env _ "user-1"
                Server.sample_estimate Server.initial Hauth)
    as (_ & _ & _ & Hsaved).
  assert (Hname : Supplier.companyName (EstimateData.supplier Server.sample_estimate) ≠ "")
    by (intros H; discriminate H).
  destruct (Hsaved Hname) as [Hbody _].
  vm_compute in Hbody. vm_compute. congruence.
Defined.

End FormFacts.
